(** * WS DOM Controller: the command bridge, verified against its specification

    The development embeds the two halves of the extension:

    - [extension/offscreen.js]: the WebSocket endpoint ([ws.onmessage]) that
      parses an inbound line, picks the correlation id, answers [ping] itself
      and relays everything else to the service worker;
    - [extension/background.js]: the tab resolver, the load wait, the command
      handlers injected into the page, and the message listener that wraps a
      handler's result or failure in an envelope.

    JavaScript values are JSON values, strings are sequences of UTF-16 code
    units, and every asynchronous function is a state-passing computation over
    the browser session ([World]) or over one document ([Page]).

    What the host does is part of the state: which tabs exist, what a selector
    or an XPath expression matches at a given time, how long a site takes to
    load, what a script evaluates to, what the document makes of a write, and
    how late a timer runs in the service worker.  Three idealisations are
    made.  On the page clocks are exact: a [sleep(100)] takes 100ms and
    nothing else takes time.  Page listeners that would react to a
    dispatched event are not part of the model; the activation behaviour of
    a [click] is.  An injected function settles: the script that [exec_js]
    runs returns or throws, and so does a handler on a payload it has to
    coerce; a script that loops forever is never answered and is not
    described here.

    A JSON text is kept as the value it denotes, so [JSON.stringify] is the
    map from a value to the value its text is read back as.  A payload field
    that is not of the type a handler documents is coerced by JavaScript;
    the injected function then leaves the fragment described here
    ([Unmodelled]) and its outcome is the host's ([ill_typed]). *)

From Stdlib Require Import ZArith Lia Ascii String.
From stdpp Require Import base option list functions gmap strings pretty.

Open Scope Z_scope.

Set Warnings "-register-all".

(** ** JavaScript values *)

Module JS.

(** A JavaScript string: its UTF-16 code units.  [length] is [String.length]. *)
Definition jsstring : Type := list N.

(** A source literal (ASCII) as a JavaScript string. *)
Definition str (s : string) : jsstring :=
  map N_of_ascii (list_ascii_of_string s).

(** Numbers as [JSON.parse] delivers them: a number with an integer value
    ([z] is the value of a double, the parser yields no other), a finite
    number for which [Number.isInteger] is false, kept by its [String(..)]
    rendering, or an infinity (a literal beyond the largest double, such as
    [1e999]). *)
Inductive number : Type :=
| Int (z : Z)
| NonInt (repr : jsstring)
| Infinity (negative : bool).

Inductive json : Type :=
| JNull
| JBool (b : bool)
| JNum (n : number)
| JStr (s : jsstring)
| JArr (items : list json)
| JObj (fields : list (jsstring * json)).

(** [undefined] is the absence of a value. *)
Definition jsvalue : Type := option json.

(** *** [Number::toString] on integers

    An integer below 2^53 is printed digit by digit.  Above, a double stands
    for the integers around it and is printed with the fewest significant
    digits that still denote it, in exponent form from 10^21 on. *)

(** The double nearest to the integer [z], ties going to the even
    significand: the number the integer literal [z] denotes. *)
Definition to_double (z : Z) : Z :=
  let a := Z.abs z in
  let shift := Z.log2 a - 52 in
  if shift <=? 0 then z
  else
    let q := Z.shiftr a shift in
    let rest := a - Z.shiftl q shift in
    let half := Z.shiftl 1 (shift - 1) in
    let up := (half <? rest) || ((rest =? half) && Z.odd q) in
    Z.sgn z * Z.shiftl (if up then q + 1 else q) shift.

Definition decimal (a : Z) : jsstring := str (pretty a).

(** The decimal with the fewest significant digits that denotes the double
    [x] (a positive integer), the nearest to [x] if there are two: a multiple
    of [10^j] for the largest [j] that has one. *)
Fixpoint shortest (j : nat) (x : Z) : Z :=
  match j with
  | O => x
  | S j' =>
      let p := 10 ^ Z.of_nat j in
      let lo := x / p * p in
      let hi := lo + p in
      let lo_ok := (0 <? lo) && (to_double lo =? x) in
      let hi_ok := to_double hi =? x in
      if lo_ok && hi_ok then
        if x - lo <? hi - x then lo
        else if hi - x <? x - lo then hi
        else if Z.even (lo / p) then lo else hi
      else if lo_ok then lo
      else if hi_ok then hi
      else shortest j' x
  end.

Fixpoint strip_zeros (rev_digits : jsstring) : jsstring :=
  match rev_digits with
  | 48%N :: rest => strip_zeros rest
  | _ => rev_digits
  end.

(** [d.ddde+n] for the decimal [digits]. *)
Definition exponent_form (digits : jsstring) : jsstring :=
  match reverse (strip_zeros (reverse digits)) with
  | d :: rest =>
      [d] ++ (if bool_decide (rest = []) then [] else 46%N :: rest)
        ++ str "e+" ++ decimal (Z.of_nat (length digits) - 1)
  | [] => []
  end.

Definition integer_to_string (z : Z) : jsstring :=
  let x := Z.abs (to_double z) in
  let sign := if z <? 0 then str "-" else [] in
  if x <? 2 ^ 53 then sign ++ decimal x
  else
    let digits := decimal (shortest (length (decimal x)) x) in
    sign ++ (if (length digits <=? 21)%nat then digits else exponent_form digits).

Definition number_to_string (n : number) : jsstring :=
  match n with
  | Int z => integer_to_string z
  | NonInt repr => repr
  | Infinity false => str "Infinity"
  | Infinity true => str "-Infinity"
  end.

(** [String(v)], which is also the property key [obj[v]] reads. *)
Fixpoint to_string (v : json) : jsstring :=
  match v with
  | JNull => str "null"
  | JBool true => str "true"
  | JBool false => str "false"
  | JNum n => number_to_string n
  | JStr s => s
  | JArr items =>
      let item x := match x with JNull => [] | _ => to_string x end in
      (fix join (xs : list json) : jsstring :=
         match xs with
         | [] => []
         | [x] => item x
         | x :: rest => item x ++ str "," ++ join rest
         end) items
  | JObj _ => str "[object Object]"
  end.

Definition value_to_string (v : jsvalue) : jsstring :=
  match v with
  | None => str "undefined"
  | Some j => to_string j
  end.

(** Truthiness, as [||], [!], [if] and [?:] test it. *)
Definition truthy (v : jsvalue) : bool :=
  match v with
  | None => false
  | Some JNull => false
  | Some (JBool b) => b
  | Some (JNum (Int z)) => negb (z =? 0)
  | Some (JNum (NonInt _)) => true
  | Some (JNum (Infinity _)) => true
  | Some (JStr s) => negb (bool_decide (s = []))
  | Some (JArr _) => true
  | Some (JObj _) => true
  end.

(** [v === 'literal'] *)
Definition is_literal (v : jsvalue) (literal : string) : bool :=
  match v with
  | Some (JStr s) => bool_decide (s = str literal)
  | _ => false
  end.

(** [Number.isInteger(v)], with the integer it found. *)
Definition as_integer (v : jsvalue) : option Z :=
  match v with
  | Some (JNum (Int z)) => Some z
  | _ => None
  end.

Fixpoint lookup_field (k : jsstring) (fs : list (jsstring * json)) : jsvalue :=
  match fs with
  | [] => None
  | (k', v) :: rest => if bool_decide (k = k') then Some v else lookup_field k rest
  end.

(** [v.k] for one of the names the program reads ([id], [cmd], [tabId] and
    the payload fields): only an object has them. *)
Definition get (k : string) (v : json) : jsvalue :=
  match v with
  | JObj fs => lookup_field (str k) fs
  | _ => None
  end.

(** [obj[k] = v] on an object literal under construction. *)
Fixpoint set_field (k : jsstring) (v : json) (fs : list (jsstring * json))
  : list (jsstring * json) :=
  match fs with
  | [] => [(k, v)]
  | (k', v') :: rest =>
      if bool_decide (k = k') then (k, v) :: rest else (k', v') :: set_field k v rest
  end.

(** The own enumerable properties a spread [...v] copies. *)
Definition own_properties (v : jsvalue) : list (jsstring * json) :=
  match v with
  | Some (JObj fs) => fs
  | Some (JStr s) => imap (fun i c => (str (pretty (Z.of_nat i)), JStr [c])) s
  | Some (JArr xs) => imap (fun i x => (str (pretty (Z.of_nat i)), x)) xs
  | _ => []
  end.

(** [{ ...base, ...v }]: the properties of [v] are written over [base].
    Fields stay where they were first written; the order of properties is
    not observable through [get]. *)
Definition spread (base : list (jsstring * json)) (v : jsvalue)
  : list (jsstring * json) :=
  fold_left (fun acc kv => set_field kv.1 kv.2 acc) (own_properties v) base.

(** [for (const ch of s)]: iteration by code point, a surrogate pair being
    one step. *)
Definition is_high_surrogate (c : N) : bool := ((55296 <=? c) && (c <=? 56319))%N.
Definition is_low_surrogate (c : N) : bool := ((56320 <=? c) && (c <=? 57343))%N.

Fixpoint code_points (s : jsstring) : list jsstring :=
  match s with
  | [] => []
  | c :: rest =>
      match rest with
      | d :: rest' =>
          if is_high_surrogate c && is_low_surrogate d
          then [c; d] :: code_points rest'
          else [c] :: code_points rest
      | [] => [[c]]
      end
  end.

(** [s.slice(0, n)] for an integer [n]: a negative [n] counts from the end. *)
Definition slice0 (s : jsstring) (n : Z) : jsstring :=
  let len := Z.of_nat (length s) in
  let stop := if n <? 0 then Z.max (len + n) 0 else Z.min n len in
  take (Z.to_nat stop) s.

(** A JSON text, kept as the value [JSON.parse] reads from it. *)
Definition JSON_text : Type := json.

(** [JSON.stringify(v)]: a number that is not finite is written [null]. *)
Fixpoint JSON_stringify (v : json) : JSON_text :=
  match v with
  | JNum (Infinity _) => JNull
  | JArr items => JArr (map JSON_stringify items)
  | JObj fields => JObj (map (fun '(k, x) => (k, JSON_stringify x)) fields)
  | _ => v
  end.

End JS.
Export JS.

(** ** Computations of the runtime

    An [async] function either returns, throws an [Error] with a message, or
    leaves the fragment of JavaScript that is modelled (an ill-typed payload
    field whose coercion is not described here). *)

Inductive run (A : Type) : Type :=
| Done (a : A)
| Thrown (message : jsstring)
| Unmodelled.
Arguments Done {A} a.
Arguments Thrown {A} message.
Arguments Unmodelled {A}.

Definition Eff (S A : Type) : Type := S -> run A * S.

#[global] Instance eff_ret {S} : MRet (Eff S) := fun A a s => (Done a, s).

#[global] Instance eff_bind {S} : MBind (Eff S) := fun A B f m s =>
  match m s with
  | (Done a, s') => f a s'
  | (Thrown e, s') => (Thrown e, s')
  | (Unmodelled, s') => (Unmodelled, s')
  end.

Definition throw {S A} (message : jsstring) : Eff S A := fun s => (Thrown message, s).
Definition unmodelled {S A} : Eff S A := fun s => (Unmodelled, s).
Definition read {S} : Eff S S := fun s => (Done s, s).
Definition write {S} (s : S) : Eff S unit := fun _ => (Done tt, s).

(** A payload field that must be present at its documented type. *)
Definition expect {S A} (o : option A) : Eff S A :=
  match o with
  | Some a => mret a
  | None => unmodelled
  end.

(** [try { m } catch { h }] *)
Definition try_catch {S A} (m : Eff S A) (h : jsstring -> Eff S A) : Eff S A :=
  fun s =>
    match m s with
    | (Thrown e, s') => h e s'
    | r => r
    end.

(** *** Decoding payload fields *)

(** [{ k = dflt }] for a numeric field: the default replaces [undefined]
    only; an integer is taken as it is. *)
Definition int_field (k : string) (dflt : Z) (p : json) : option Z :=
  match get k p with
  | None => Some dflt
  | Some (JNum (Int z)) => Some z
  | Some _ => None
  end.

(** [{ k = dflt }] for a flag, which the code only tests for truthiness. *)
Definition flag_field (k : string) (dflt : bool) (p : json) : bool :=
  match get k p with
  | None => dflt
  | Some v => truthy (Some v)
  end.

Definition string_field (k : string) (p : json) : option jsstring :=
  match get k p with
  | Some (JStr s) => Some s
  | _ => None
  end.

(** [{ k = dflt }] for a string field. *)
Definition string_field_default (k : string) (dflt : jsstring) (p : json)
  : option jsstring :=
  match get k p with
  | None => Some dflt
  | Some (JStr s) => Some s
  | Some _ => None
  end.

(** ** The document a tab shows

    The host side of the page actuator: what [document.querySelectorAll] and
    [document.evaluate] answer at a given time, the nodes they hand out, what
    the document makes of a write, and the log of what the injected code did.
    Only [sleep] advances the page clock. *)

Inductive NodeType : Type := ELEMENT_NODE | TEXT_NODE | OTHER_NODE.

Record Rect : Type := {
  rect_x : number;
  rect_y : number;
  rect_width : number;
  rect_height : number
}.

(** What the rest of an element reads as after its [value] was assigned:
    a text field reflects nothing, a button or a hidden input reflects its
    value in the attribute of that name and so in its markup, an [<output>]
    in its text. *)
Record Reflection : Type := {
  attribute_now : jsstring -> option jsstring;
  textContent_now : jsstring;
  outerHTML_now : jsstring
}.

(** A node, by what the injected code can read from it.  A control that has
    a [value] stores what its setter makes of a string ([sanitize]: an
    [<input>] drops line breaks, a [<textarea>] keeps them) and shows the
    assignment as [value_reflected] says.  The elements described are those
    whose [value] is a string and whose setter accepts every string: not a
    file input, nor a [<progress>], a [<meter>] or a list item. *)
Record Node : Type := {
  nodeType : NodeType;
  nodeName : jsstring;                       (* [tagName] of an element *)
  el_id : jsstring;
  className : jsstring;
  attribute : jsstring -> option jsstring;     (* [el.getAttribute(name)] *)
  value : option jsstring;                    (* [Some _] iff ['value' in el] *)
  sanitize : jsstring -> jsstring;            (* what [el.value = s] stores *)
  value_reflected : jsstring -> Reflection;   (* what [el.value = s] shows *)
  textContent : jsstring;                     (* [nodeValue] of a text node *)
  outerHTML : jsstring
}.

Inductive Event : Type :=
| ScrollIntoView
| Focus
| MouseEvent (type : jsstring)
| KeyboardEvent (type key : jsstring)
| InputEvent (data : jsstring)
| ChangeEvent.

(** What [new Function(..)()] does with a source text: it throws, or it
    returns a value with its JSON round trip (if it has one) and its string
    form. *)
Inductive ScriptOutcome : Type :=
| ScriptThrows (message : jsstring)
| ScriptReturns (round_trip : option json) (string_form : jsstring).

(** What the document makes of the writes of the injected code: each gives
    the nodes afterwards.  [setAttribute] refuses a name that is not an
    attribute name.  The layout follows what has been scrolled and focused. *)
Record Dom : Type := {
  activated : nat -> (nat -> Node) -> (nat -> Node);      (* a dispatched [click] *)
  attribute_set : nat -> jsstring -> jsstring -> (nat -> Node) -> (nat -> Node) + jsstring;
  text_set : nat -> jsstring -> (nat -> Node) -> (nat -> Node);
  scripted : jsstring -> (nat -> Node) -> (nat -> Node);  (* a script that was run *)
  layout : list (nat * Event) -> nat -> Rect              (* [getBoundingClientRect()] *)
}.

Record Page : Type := {
  now : Z;
  node : nat -> Node;
  querySelectorAll : Z -> jsstring -> list nat + jsstring;
  evaluate : Z -> jsstring -> list nat + jsstring;
  documentElement : nat;
  run_script : jsstring -> ScriptOutcome;
  dom : Dom;
  events : list (nat * Event);
  evaluations : list Z                         (* clock at each [document.evaluate] *)
}.

Definition documentElement_outerHTML (p : Page) : jsstring :=
  outerHTML (node p (documentElement p)).

Definition with_nodes (nodes : nat -> Node) (p : Page) : Page :=
  {| now := now p; node := nodes;
     querySelectorAll := querySelectorAll p; evaluate := evaluate p;
     documentElement := documentElement p;
     run_script := run_script p; dom := dom p; events := events p;
     evaluations := evaluations p |}.

Definition set_node (n : nat) (x : Node) (p : Page) : Page :=
  with_nodes (<[n := x]> (node p)) p.

(** [el.value = s] *)
Definition assign_value (s : jsstring) (x : Node) : Node :=
  let shown := value_reflected x s in
  {| nodeType := nodeType x; nodeName := nodeName x; el_id := el_id x;
     className := className x; attribute := attribute_now shown;
     value := Some (sanitize x s);
     sanitize := sanitize x; value_reflected := value_reflected x;
     textContent := textContent_now shown; outerHTML := outerHTML_now shown |}.

(** *** Primitive page effects *)

Definition performance_now : Eff Page Z := fun p => (Done (now p), p).

Definition sleep (ms : Z) : Eff Page unit := fun p =>
  (Done tt,
   {| now := now p + ms; node := node p;
      querySelectorAll := querySelectorAll p; evaluate := evaluate p;
      documentElement := documentElement p;
      run_script := run_script p; dom := dom p; events := events p;
      evaluations := evaluations p |}).

Definition log_event (n : nat) (e : Event) : Eff Page unit := fun p =>
  (Done tt,
   {| now := now p; node := node p;
      querySelectorAll := querySelectorAll p; evaluate := evaluate p;
      documentElement := documentElement p;
      run_script := run_script p; dom := dom p; events := events p ++ [(n, e)];
      evaluations := evaluations p |}).

Definition get_node (n : nat) : Eff Page Node := fun p => (Done (node p n), p).
Definition put_node (n : nat) (x : Node) : Eff Page unit := fun p => (Done tt, set_node n x p).

(** The activation behaviour of an element. *)
Definition activate (el : nat) : Eff Page unit := fun p =>
  (Done tt, with_nodes (activated (dom p) el (node p)) p).

(** [el.dispatchEvent(new MouseEvent(type, ..))]: the event is dispatched,
    and a [click] runs the activation behaviour of the element. *)
Definition dispatch_mouse_event (el : nat) (type : jsstring) : Eff Page unit :=
  log_event el (MouseEvent type);;
  if bool_decide (type = str "click") then activate el else mret tt.

(** [el.setAttribute(name, v)] *)
Definition setAttribute (el : nat) (name v : jsstring) : Eff Page unit := fun p =>
  match attribute_set (dom p) el name v (node p) with
  | inl nodes => (Done tt, with_nodes nodes p)
  | inr message => (Thrown message, p)
  end.

(** [n.textContent = v] *)
Definition set_textContent (n : nat) (v : jsstring) : Eff Page unit := fun p =>
  (Done tt, with_nodes (text_set (dom p) n v (node p)) p).

(** [el.getBoundingClientRect()] *)
Definition getBoundingClientRect (el : nat) : Eff Page Rect := fun p =>
  (Done (layout (dom p) (events p) el), p).

(** [document.querySelectorAll(sel)]: a malformed selector throws. *)
Definition document_querySelectorAll (sel : jsstring) : Eff Page (list nat) := fun p =>
  match querySelectorAll p (now p) sel with
  | inl matches => (Done matches, p)
  | inr message => (Thrown message, p)
  end.

(** [list[idx]] on a node list: [undefined] outside its range. *)
Definition item {A} (l : list A) (idx : Z) : option A :=
  if idx <? 0 then None else l !! Z.to_nat idx.

(** [snapshot.snapshotItem(idx)]: the argument is an [unsigned long]. *)
Definition snapshotItem (snap : list nat) (idx : Z) : option nat :=
  snap !! Z.to_nat (idx mod 4294967296).

Definition obj (fields : list (string * json)) : json :=
  JObj (map (fun kv => (str kv.1, kv.2)) fields).

Definition JInt (z : Z) : json := JNum (Int z).
Definition JLen (s : jsstring) : json := JInt (Z.of_nat (length s)).
Definition quote : jsstring := [34%N].

(** ** The functions injected into the page ([background.js], [runInPage] arguments) *)

Module Injected.

(** The wait loop of [click] and [type]: one round per 100ms sample.  [fuel]
    bounds the rounds; [poll_rounds] gives as many as the loop can make. *)
Fixpoint find_loop (fuel : nat) (sel : jsstring) (idx timeout start : Z)
  : Eff Page (option nat) :=
  match fuel with
  | O => mret None
  | S fuel' =>
      t ← performance_now;
      if t - start <? timeout then
        list ← document_querySelectorAll sel;
        if Z.of_nat (length list) >? idx then mret (item list idx)
        else sleep 100;; find_loop fuel' sel idx timeout start
      else mret None
  end.

Definition poll_rounds (timeout : Z) : nat := Z.to_nat ((timeout + 99) / 100).

Definition find (sel : jsstring) (idx timeout : Z) : Eff Page (option nat) :=
  start ← performance_now;
  find_loop (poll_rounds timeout) sel idx timeout start.

Definition not_found (selector : jsvalue) (index : Z) : jsstring :=
  str "Element not found: " ++ value_to_string selector
    ++ str "[" ++ integer_to_string index ++ str "]".

Fixpoint dispatch_mouse (el : nat) (types : list string) : Eff Page unit :=
  match types with
  | [] => mret tt
  | t :: rest => dispatch_mouse_event el (str t);; dispatch_mouse el rest
  end.

Definition mouse_sequence : list string :=
  ["mouseover"; "mousemove"; "mousedown"; "mouseup"; "click"]%string.

(** [click]: [{ selector, index = 0, timeout_ms = 2000 }] *)
Definition click (payload : json) : Eff Page json :=
  let selector := get "selector" payload in
  index ← expect (int_field "index" 0 payload);
  timeout_ms ← expect (int_field "timeout_ms" 2000 payload);
  el ← find (value_to_string selector) index timeout_ms;
  match el with
  | None => throw (not_found selector index)
  | Some el =>
      log_event el ScrollIntoView;;
      dispatch_mouse el mouse_sequence;;
      mret (obj [("clicked", JBool true)]%string)
  end.

(** One turn of [for (const ch of text)]. *)
Definition type_char (el : nat) (ch : jsstring) : Eff Page unit :=
  log_event el (KeyboardEvent (str "keydown") ch);;
  x ← get_node el;
  match value x with
  | Some v => put_node el (assign_value (v ++ ch) x)
  | None => mret tt
  end;;
  log_event el (InputEvent ch);;
  log_event el (KeyboardEvent (str "keypress") ch);;
  log_event el (KeyboardEvent (str "keyup") ch);;
  sleep 5.

Fixpoint type_chars (el : nat) (chs : list jsstring) : Eff Page unit :=
  match chs with
  | [] => mret tt
  | ch :: rest => type_char el ch;; type_chars el rest
  end.

(** The body [type] and the [type] action of [xpath] share, from [focus()]
    to the returned object. *)
Definition type_into (el : nat) (text : option jsstring) (clear enter : bool)
  : Eff Page json :=
  log_event el Focus;;
  x ← get_node el;
  (if clear then
     match value x with
     | Some _ => put_node el (assign_value [] x)
     | None => mret tt
     end
   else mret tt);;
  text ← expect text;
  type_chars el (code_points text);;
  log_event el ChangeEvent;;
  (if enter then
     log_event el (KeyboardEvent (str "keydown") (str "Enter"));;
     log_event el (KeyboardEvent (str "keyup") (str "Enter"))
   else mret tt);;
  mret (obj [("typed", JBool true); ("length", JLen text)]%string).

(** [type]: [{ selector, text, clear = true, enter = false, index = 0,
    timeout_ms = 2000 }] *)
Definition type (payload : json) : Eff Page json :=
  let selector := get "selector" payload in
  index ← expect (int_field "index" 0 payload);
  timeout_ms ← expect (int_field "timeout_ms" 2000 payload);
  el ← find (value_to_string selector) index timeout_ms;
  match el with
  | None => throw (not_found selector index)
  | Some el =>
      type_into el (string_field "text" payload)
        (flag_field "clear" true payload) (flag_field "enter" false payload)
  end.

(** [set]: [{ selector, value, attr, index = 0 }], no waiting. *)
Definition set (payload : json) : Eff Page json :=
  let selector := get "selector" payload in
  index ← expect (int_field "index" 0 payload);
  list ← document_querySelectorAll (value_to_string selector);
  match item list index with
  | None => throw (not_found selector index)
  | Some el =>
      x ← get_node el;
      (if truthy (get "attr" payload) then
         attr ← expect (string_field "attr" payload);
         v ← expect (string_field "value" payload);
         setAttribute el attr v
       else
         match value x with
         | Some _ =>
             v ← expect (string_field "value" payload);
             put_node el (assign_value v x);;
             log_event el (InputEvent v);;
             log_event el ChangeEvent
         | None =>
             v ← expect (string_field "value" payload);
             set_textContent el v
         end);;
      mret (obj [("set", JBool true)]%string)
  end.

(** [exists]: [{ selector, index = 0 }] *)
Definition exists_ (payload : json) : Eff Page json :=
  let selector := get "selector" payload in
  index ← expect (int_field "index" 0 payload);
  list ← document_querySelectorAll (value_to_string selector);
  mret (obj [("exists", JBool (Z.of_nat (length list) >? index))]%string).

(** The [{ html, truncated, length }] object of [get_html] and [getHTML]. *)
Definition html_result (html : jsstring) (max_len : Z) : json :=
  let truncated := Z.of_nat (length html) >? max_len in
  let out := if truncated then slice0 html max_len else html in
  obj [("html", JStr out); ("truncated", JBool truncated); ("length", JLen html)]%string.

(** [get_html]: [{ selector = null, max_len = 500000 }] *)
Definition get_html (payload : json) : Eff Page json :=
  let selector := get "selector" payload in
  html ← (if truthy selector then
            list ← document_querySelectorAll (value_to_string selector);
            match list with
            | el :: _ => x ← get_node el; mret (outerHTML x)
            | [] => mret []
            end
          else p ← read; mret (documentElement_outerHTML p));
  max_len ← expect (int_field "max_len" 500000 payload);
  mret (html_result html max_len).

(** [exec_js]: [{ js }].  The script is run once, whatever comes of it. *)
Definition exec_js (payload : json) : Eff Page json :=
  let js := get "js" payload in
  let body := quote ++ str "use strict" ++ quote ++ str "; return ("
                ++ value_to_string js ++ str ")" in
  p ← read;
  write (with_nodes (scripted (dom p) body (node p)) p);;
  match run_script p body with
  | ScriptThrows message => throw (str "exec_js error: " ++ message)
  | ScriptReturns (Some v) _ => mret (obj [("result", v)]%string)
  | ScriptReturns None string_form => mret (obj [("result", JStr string_form)]%string)
  end.

(** *** [xpath] *)

Inductive Action : Type :=
| list_ | exists_a | count | click_a | getAttribute | getHTML | getText
| setValue | type_a
| unknown_action.

(** [action = 'list'], then the comparison with the nine literals. *)
Definition action_of (payload : json) : Action :=
  match get "action" payload with
  | None => list_
  | Some (JStr s) =>
      if bool_decide (s = str "list") then list_
      else if bool_decide (s = str "exists") then exists_a
      else if bool_decide (s = str "count") then count
      else if bool_decide (s = str "click") then click_a
      else if bool_decide (s = str "getAttribute") then getAttribute
      else if bool_decide (s = str "getHTML") then getHTML
      else if bool_decide (s = str "getText") then getText
      else if bool_decide (s = str "setValue") then setValue
      else if bool_decide (s = str "type") then type_a
      else unknown_action
  | Some _ => unknown_action
  end.

(** [['click', 'getAttribute', 'getHTML', 'getText', 'setValue',
    'type'].includes(action)] *)
Definition needsIndex (a : Action) : bool :=
  match a with
  | click_a | getAttribute | getHTML | getText | setValue | type_a => true
  | list_ | exists_a | count | unknown_action => false
  end.

Definition evalSnapshot (xp : jsstring) : Eff Page (list nat) := fun p =>
  let p' :=
    {| now := now p; node := node p;
       querySelectorAll := querySelectorAll p; evaluate := evaluate p;
       documentElement := documentElement p;
       run_script := run_script p; dom := dom p; events := events p;
       evaluations := evaluations p ++ [now p] |} in
  match evaluate p (now p) xp with
  | inl snap => (Done snap, p')
  | inr message => (Thrown (str "Invalid XPath: " ++ message), p')
  end.

Fixpoint waitForIndex_loop (fuel : nat) (xp : jsstring) (idx timeout start : Z)
  : Eff Page (list nat) :=
  match fuel with
  | O => evalSnapshot xp
  | S fuel' =>
      t ← performance_now;
      if t - start <? timeout then
        snap ← evalSnapshot xp;
        if Z.of_nat (length snap) >? idx then mret snap
        else sleep 100;; waitForIndex_loop fuel' xp idx timeout start
      else evalSnapshot xp
  end.

Definition waitForIndex (xp : jsstring) (idx timeout : Z) : Eff Page (list nat) :=
  start ← performance_now;
  waitForIndex_loop (poll_rounds timeout) xp idx timeout start.

Definition or_null (s : jsstring) : json :=
  if bool_decide (s = []) then JNull else JStr s.

Definition summarizeNode (payload : json) (n : nat) : Eff Page json :=
  x ← get_node n;
  match nodeType x with
  | ELEMENT_NODE =>
      r ← getBoundingClientRect n;
      let summary :=
        [("nodeType", JStr (str "element"));
         ("tag", JStr (nodeName x));
         ("id", or_null (el_id x));
         ("classes", or_null (className x));
         ("name", from_option or_null JNull (attribute x (str "name")));
         ("value", from_option JStr JNull (value x));
         ("rect", obj [("x", JNum (rect_x r)); ("y", JNum (rect_y r));
                       ("width", JNum (rect_width r));
                       ("height", JNum (rect_height r))])]%string in
      if flag_field "includeHTML" false payload then
        max_len ← expect (int_field "max_len" 500000 payload);
        let html := outerHTML x in
        let truncated := Z.of_nat (length html) >? max_len in
        mret (obj (summary ++
                   [("html", JStr (if truncated then slice0 html max_len else html));
                    ("html_truncated", JBool truncated)]%string))
      else mret (obj summary)
  | TEXT_NODE =>
      mret (obj [("nodeType", JStr (str "text"));
                 ("text", JStr (slice0 (textContent x) 200))]%string)
  | OTHER_NODE =>
      mret (obj [("nodeType", JStr (str "other"));
                 ("nodeName", JStr (nodeName x))]%string)
  end.

Fixpoint summarize_all (payload : json) (ns : list nat) : Eff Page (list json) :=
  match ns with
  | [] => mret []
  | n :: rest =>
      s ← summarizeNode payload n;
      out ← summarize_all payload rest;
      mret (s :: out)
  end.

(** [nth(idx)] *)
Definition nth (snap : list nat) (idx : Z) : option nat :=
  if idx >=? Z.of_nat (length snap) then None else snapshotItem snap idx.

(** [ensureElement(node)] *)
Definition ensureElement (n : option nat) : Eff Page nat :=
  match n with
  | None => throw (str "Target is not an element node")
  | Some n =>
      x ← get_node n;
      match nodeType x with
      | ELEMENT_NODE => mret n
      | _ => throw (str "Target is not an element node")
      end
  end.

Definition xpath (payload : json) : Eff Page json :=
  let action := action_of payload in
  match get "expr" payload with
  | Some (JStr expr) =>
      if bool_decide (expr = []) then
        throw (str "xpath: missing " ++ quote ++ str "expr" ++ quote)
      else
        snap ← (if needsIndex action then
                  index ← expect (int_field "index" 0 payload);
                  timeout_ms ← expect (int_field "timeout_ms" 2000 payload);
                  waitForIndex expr index timeout_ms
                else evalSnapshot expr);
        let count := Z.of_nat (length snap) in
        match action with
        | list_ =>
            max ← expect (int_field "max" 10 payload);
            let n := Z.min count (Z.max 0 max) in
            out ← summarize_all payload (take (Z.to_nat n) snap);
            mret (obj [("count", JInt count); ("nodes", JArr out)]%string)
        | exists_a => mret (obj [("exists", JBool (count >? 0))]%string)
        | count => mret (obj [("count", JInt count)]%string)
        | click_a =>
            index ← expect (int_field "index" 0 payload);
            el ← ensureElement (nth snap index);
            log_event el ScrollIntoView;;
            dispatch_mouse el mouse_sequence;;
            mret (obj [("clicked", JBool true)]%string)
        | getAttribute =>
            if truthy (get "attr" payload) then
              index ← expect (int_field "index" 0 payload);
              el ← ensureElement (nth snap index);
              attr ← expect (string_field "attr" payload);
              x ← get_node el;
              mret (obj [("value", from_option JStr JNull (attribute x attr))]%string)
            else throw (str "getAttribute requires " ++ quote ++ str "attr" ++ quote)
        | getHTML =>
            index ← expect (int_field "index" 0 payload);
            el ← ensureElement (nth snap index);
            x ← get_node el;
            if bool_decide (outerHTML x = []) then
              mret (obj [("html", JObj []); ("truncated", JBool false)]%string)
            else
              max_len ← expect (int_field "max_len" 500000 payload);
              mret (html_result (outerHTML x) max_len)
        | getText =>
            index ← expect (int_field "index" 0 payload);
            match nth snap index with
            | None => throw (str "No node at index")
            | Some n =>
                x ← get_node n;
                mret (obj [("text", JStr (textContent x));
                           ("length", JLen (textContent x))]%string)
            end
        | setValue =>
            index ← expect (int_field "index" 0 payload);
            match nth snap index with
            | None => throw (str "No node at index")
            | Some n =>
                x ← get_node n;
                text ← expect (string_field_default "text" [] payload);
                match nodeType x, value x with
                | ELEMENT_NODE, Some _ =>
                    put_node n (assign_value text x);;
                    log_event n (InputEvent text);;
                    log_event n ChangeEvent;;
                    mret (obj [("set", JBool true)]%string)
                | _, _ =>
                    set_textContent n text;;
                    mret (obj [("set", JBool true)]%string)
                end
            end
        | type_a =>
            index ← expect (int_field "index" 0 payload);
            el ← ensureElement (nth snap index);
            type_into el (string_field_default "text" [] payload)
              (flag_field "clear" true payload) (flag_field "enter" false payload)
        | unknown_action =>
            throw (str "Unknown xpath action: " ++ value_to_string (get "action" payload))
        end
  | _ => throw (str "xpath: missing " ++ quote ++ str "expr" ++ quote)
  end.

End Injected.

(** ** The browser session

    The host runtime behind the [chrome.*] calls of [background.js] and the
    socket of [offscreen.js]: the open tabs, the session storage slot
    [SESSION_KEY], the focused tab, the documents the network serves, the
    entropy behind [crypto.randomUUID] and the frames written to the socket. *)

Record Tab : Type := {
  discarded : bool;
  tab_url : option jsstring;                  (* [tab.url], absent without permission *)
  load_remaining : option Z;                  (* ms until [status === 'complete']; [None]: never *)
  injection_error : option jsstring;          (* why [executeScript] is refused, if it is *)
  page : Page
}.

Record Site : Type := {
  site_page : Page;
  site_load_ms : option Z;
  site_injection_error : option jsstring
}.

(** What an injected function returns: one of its object literals, none of
    which has a field [tabId]. *)
Record PageResult : Type := {
  result_fields : list (jsstring * json);
  result_lacks_tabId : lookup_field (str "tabId") result_fields = None
}.

(** What the runtime decides.  The [k]-th tick of an interval of 250ms runs
    [250 * k] ms after the interval was set, or [tick_late k] ms later.  A
    payload with a field JavaScript has to coerce makes the injected function
    do what [ill_typed] says of that function, the payload and the page:
    return a result or throw, and leave a page.
    The text of an error raised by the engine or by an API is the host's. *)
Record Host : Type := {
  tick_late : nat -> nat;
  ill_typed : (json -> Eff Page json) -> json -> Page -> (PageResult + jsstring) * Page;
  error_message : jsstring -> jsvalue -> jsstring
}.

Record World : Type := {
  tabs : gmap Z Tab;
  lastTabId : option Z;                       (* [chrome.storage.session[SESSION_KEY]] *)
  active_tab : option Z;                      (* active tab of the last focused window *)
  next_tab_id : Z;
  web : jsstring -> Site;
  host : Host;
  uuid_entropy : nat -> N;
  uuids_drawn : nat;
  lastError : option jsstring;                (* [chrome.runtime.lastError] of the relay *)
  sent : list JSON_text                       (* the texts passed to [ws.send], oldest first *)
}.

Definition with_tabs (f : gmap Z Tab -> gmap Z Tab) (w : World) : World :=
  {| tabs := f (tabs w); lastTabId := lastTabId w; active_tab := active_tab w;
     next_tab_id := next_tab_id w; web := web w; host := host w; uuid_entropy := uuid_entropy w;
     uuids_drawn := uuids_drawn w; lastError := lastError w; sent := sent w |}.

Definition open_site (s : Site) (u : jsstring) : Tab :=
  {| discarded := false; tab_url := Some u; load_remaining := site_load_ms s;
     injection_error := site_injection_error s; page := site_page s |}.

Definition no_tab (tabId : Z) : jsstring :=
  str "No tab with id: " ++ integer_to_string tabId ++ str ".".

(** [chrome.tabs.get(tabId)] *)
Definition chrome_tabs_get (tabId : Z) : Eff World Tab := fun w =>
  match tabs w !! tabId with
  | Some t => (Done t, w)
  | None => (Thrown (no_tab tabId), w)
  end.

(** [chrome.tabs.query({ active: true, lastFocusedWindow: true })] *)
Definition chrome_tabs_query_active : Eff World (list Z) := fun w =>
  (Done (option_list (active_tab w)), w).

(** [chrome.tabs.create({ url, active: true })], returning [tab.id]. *)
Definition chrome_tabs_create (u : jsstring) : Eff World Z := fun w =>
  let id := next_tab_id w in
  (Done id,
   {| tabs := <[id := open_site (web w u) u]> (tabs w); lastTabId := lastTabId w;
      active_tab := Some id; next_tab_id := id + 1; web := web w;
      host := host w; uuid_entropy := uuid_entropy w; uuids_drawn := uuids_drawn w;
      lastError := lastError w; sent := sent w |}).

(** [chrome.tabs.update(tabId, { url, active: true })] *)
Definition chrome_tabs_update (tabId : Z) (u : jsstring) : Eff World unit := fun w =>
  match tabs w !! tabId with
  | Some _ =>
      (Done tt,
       {| tabs := <[tabId := open_site (web w u) u]> (tabs w); lastTabId := lastTabId w;
          active_tab := Some tabId; next_tab_id := next_tab_id w; web := web w;
          host := host w; uuid_entropy := uuid_entropy w; uuids_drawn := uuids_drawn w;
          lastError := lastError w; sent := sent w |})
  | None => (Thrown (no_tab tabId), w)
  end.

(** ** [background.js] *)

Definition getStoredTabId : Eff World (option Z) := fun w => (Done (lastTabId w), w).

Definition setStoredTabId (tabId : Z) : Eff World unit := fun w =>
  (Done tt,
   {| tabs := tabs w; lastTabId := Some tabId; active_tab := active_tab w;
      next_tab_id := next_tab_id w; web := web w; host := host w; uuid_entropy := uuid_entropy w;
      uuids_drawn := uuids_drawn w; lastError := lastError w; sent := sent w |}).

(** [resolveTargetTabId(preferredId)] *)
Definition resolveTargetTabId (preferredId : jsvalue) : Eff World Z :=
  match as_integer preferredId with
  | Some id => mret id
  | None =>
      stored ← getStoredTabId;
      usable ← match stored with
                | Some id =>
                    try_catch
                      (tab ← chrome_tabs_get id;
                       mret (if negb (discarded tab) then Some id else None))
                      (fun _ => mret None)
                | None => mret None
                end;
      match usable with
      | Some id => mret id
      | None =>
          found ← chrome_tabs_query_active;
          match found with
          | active :: _ =>
              if negb (active =? 0) then setStoredTabId active;; mret active
              else
                id ← chrome_tabs_create (str "about:blank");
                setStoredTabId id;; mret id
          | [] =>
              id ← chrome_tabs_create (str "about:blank");
              setStoredTabId id;; mret id
          end
      end
  end.

Definition set_load_remaining (tabId : Z) (r : option Z) : Eff World unit := fun w =>
  (Done tt,
   with_tabs (alter (fun t =>
     {| discarded := discarded t; tab_url := tab_url t; load_remaining := r;
        injection_error := injection_error t; page := page t |}) tabId) w).

(** [Date.now() - start] when the [k]-th tick of the interval runs. *)
Definition tick_time (w : World) (k : nat) : Z :=
  250 * Z.of_nat k + Z.of_nat (tick_late (host w) k).

(** [waitForTabLoad]: one round per tick of the 250ms interval, [k] ticks
    having run.  A load that completes before the next tick runs is reported
    by the [onUpdated] listener; at a tick the timeout is tested first, then
    the tab's status. *)
Fixpoint waitForTabLoad_loop (fuel : nat) (tabId timeoutMs : Z) (k : nat)
  : Eff World unit :=
  match fuel with
  | O => throw (str "Timeout waiting for tab to load")
  | S fuel' =>
      w ← read;
      let tick := tick_time w (S k) in
      let remaining := tabs w !! tabId ≫= load_remaining in
      match remaining with
      | Some r =>
          if (0 <? r) && (r <=? tick) then set_load_remaining tabId (Some 0)
          else if tick >? timeoutMs then
            set_load_remaining tabId (Some (Z.max 0 (r - tick)));;
            throw (str "Timeout waiting for tab to load")
          else if r <=? tick then set_load_remaining tabId (Some 0)
          else waitForTabLoad_loop fuel' tabId timeoutMs (S k)
      | None =>
          if tick >? timeoutMs then throw (str "Timeout waiting for tab to load")
          else waitForTabLoad_loop fuel' tabId timeoutMs (S k)
      end
  end.

(** No tick later than this one finds the timeout not exceeded. *)
Definition load_ticks (timeoutMs : Z) : nat := Z.to_nat (Z.max 0 timeoutMs / 250 + 1).

Definition waitForTabLoad (tabId timeoutMs : Z) : Eff World unit :=
  waitForTabLoad_loop (load_ticks timeoutMs) tabId timeoutMs 0.

(** What the injected function comes to on a payload it has to coerce. *)
Definition coerced (w : World) (func : json -> Eff Page json) (payload : json) (p : Page)
  : run json * Page :=
  match ill_typed (host w) func payload p with
  | (inl result, p') => (Done (JObj (result_fields result)), p')
  | (inr message, p') => (Thrown message, p')
  end.

(** [runInPage(tabId, func, [payload])] *)
Definition runInPage (tabId : Z) (func : json -> Eff Page json) (payload : json)
  : Eff World json := fun w =>
  match tabs w !! tabId with
  | None => (Thrown (no_tab tabId), w)
  | Some t =>
      match injection_error t with
      | Some message => (Thrown message, w)
      | None =>
          let '(r, p') :=
            match func payload (page t) with
            | (Unmodelled, _) => coerced w func payload (page t)
            | settled => settled
            end in
          (r,
           with_tabs (<[tabId :=
             {| discarded := discarded t; tab_url := tab_url t;
                load_remaining := load_remaining t;
                injection_error := injection_error t; page := p' |}]>) w)
      end
  end.

Module handlers.

(** [url || 'about:blank'], as [chrome.tabs.update] and [chrome.tabs.create]
    take it: they refuse a [url] that is not a string. *)
Definition nav_url (api : string) (url : jsvalue) : Eff World jsstring :=
  if truthy url then
    match url with
    | Some (JStr u) => mret u
    | _ => w ← read; throw (error_message (host w) (str api) url)
    end
  else mret (str "about:blank").

(** The [if (reuse) { .. } else { .. }] block of [nav]: the tab the
    navigation is issued on. *)
Definition nav_open (payload : json) : Eff World Z :=
  let url := get "url" payload in
  let reuse := flag_field "reuse" true payload in
  if reuse then
    maybe ← resolveTargetTabId None;
    u ← nav_url "tabs.update" url;
    chrome_tabs_update maybe u;;
    mret maybe
  else
    u ← nav_url "tabs.create" url;
    chrome_tabs_create u.

(** [nav]: [{ url, reuse = true }] *)
Definition nav (payload : json) : Eff World json :=
  let url := get "url" payload in
  tabId ← nav_open payload;
  setStoredTabId tabId;;
  waitForTabLoad tabId 30000;;
  tab ← chrome_tabs_get tabId;
  let reported :=
    if truthy (JStr <$> tab_url tab) then JStr <$> tab_url tab
    else if truthy url then url
    else Some JNull in
  mret (obj [("tabId", JInt tabId); ("url", default JNull reported);
             ("ok", JBool true)]%string).

Definition click (payload : json) (tabId : Z) := runInPage tabId Injected.click payload.
Definition type (payload : json) (tabId : Z) := runInPage tabId Injected.type payload.
Definition set (payload : json) (tabId : Z) := runInPage tabId Injected.set payload.
Definition exists_ (payload : json) (tabId : Z) := runInPage tabId Injected.exists_ payload.
Definition get_html (payload : json) (tabId : Z) := runInPage tabId Injected.get_html payload.
Definition exec_js (payload : json) (tabId : Z) := runInPage tabId Injected.exec_js payload.
Definition xpath (payload : json) (tabId : Z) := runInPage tabId Injected.xpath payload.

End handlers.

(** *** The handler registry and the message listener *)

Inductive Handler : Type :=
| nav_handler | click_handler | type_handler | set_handler | exists_handler
| get_html_handler | exec_js_handler | xpath_handler.

(** The own properties of the object literal [handlers]. *)
Definition registered (key : jsstring) : option Handler :=
  if bool_decide (key = str "nav") then Some nav_handler
  else if bool_decide (key = str "click") then Some click_handler
  else if bool_decide (key = str "type") then Some type_handler
  else if bool_decide (key = str "set") then Some set_handler
  else if bool_decide (key = str "exists") then Some exists_handler
  else if bool_decide (key = str "get_html") then Some get_html_handler
  else if bool_decide (key = str "exec_js") then Some exec_js_handler
  else if bool_decide (key = str "xpath") then Some xpath_handler
  else None.

(** [handlers] is an object literal: a key it does not own is looked up on
    [Object.prototype], whose members are all truthy. *)
Definition Object_prototype : list jsstring :=
  map str ["constructor"; "__defineGetter__"; "__defineSetter__"; "hasOwnProperty";
           "__lookupGetter__"; "__lookupSetter__"; "isPrototypeOf";
           "propertyIsEnumerable"; "toString"; "valueOf"; "__proto__";
           "toLocaleString"]%string.

Inductive Member : Type :=
| Own (h : Handler)
| Inherited (name : jsstring).

(** [handlers[cmd]] *)
Definition handlers_get (cmd : jsvalue) : option Member :=
  let key := value_to_string cmd in
  match registered key with
  | Some h => Some (Own h)
  | None => if bool_decide (key ∈ Object_prototype) then Some (Inherited key) else None
  end.

(** A member of [Object.prototype] called as [handlers[cmd](payload,
    tabId)], with [handlers] as [this].  [toString] and [toLocaleString]
    return [[object Object]]; [constructor] is [Object] and returns the
    payload; [hasOwnProperty] and [propertyIsEnumerable] look the payload up
    as a key of [handlers]; [isPrototypeOf] answers [false]; [valueOf]
    returns [handlers], whose members are functions and are not serialised;
    the [__lookup..__] pair finds no accessor it could serialise;
    [__defineGetter__] and [__defineSetter__] refuse [tabId], which is not a
    function, and [__proto__] is not a function at all. *)
Definition call_inherited (name : jsstring) (payload : json) : Eff World jsvalue :=
  if bool_decide (name = str "toString") || bool_decide (name = str "toLocaleString")
  then mret (Some (JStr (str "[object Object]")))
  else if bool_decide (name = str "constructor") then mret (Some payload)
  else if bool_decide (name = str "hasOwnProperty")
          || bool_decide (name = str "propertyIsEnumerable")
  then mret (Some (JBool (bool_decide (is_Some (registered (to_string payload))))))
  else if bool_decide (name = str "isPrototypeOf") then mret (Some (JBool false))
  else if bool_decide (name = str "valueOf") then mret (Some (JObj []))
  else if bool_decide (name = str "__lookupGetter__")
          || bool_decide (name = str "__lookupSetter__")
  then mret None
  else w ← read; throw (error_message (host w) name None).

(** [handlers[cmd](payload, tabId)] *)
Definition call (m : Member) (payload : json) (tabId : Z) : Eff World jsvalue :=
  match m with
  | Own h =>
      res ← match h with
            | nav_handler => handlers.nav payload
            | click_handler => handlers.click payload tabId
            | type_handler => handlers.type payload tabId
            | set_handler => handlers.set payload tabId
            | exists_handler => handlers.exists_ payload tabId
            | get_html_handler => handlers.get_html payload tabId
            | exec_js_handler => handlers.exec_js payload tabId
            | xpath_handler => handlers.xpath payload tabId
            end;
      mret (Some res)
  | Inherited name => call_inherited name payload
  end.

(** [e?.message || String(e)] for a thrown [Error]. *)
Definition error_text (message : jsstring) : jsstring :=
  if bool_decide (message = []) then str "Error" else message.

(** The listener of [chrome.runtime.onMessage] on a [{ type: 'cmd', id, cmd,
    payload }] message; the result is the argument of [sendResponse]. *)
Definition onMessage (id : json) (cmd : jsvalue) (payload : json) : Eff World json :=
  try_catch
    (match handlers_get cmd with
     | None => throw (str "Unknown cmd: " ++ value_to_string cmd)
     | Some m =>
         tabId ← resolveTargetTabId (get "tabId" payload);
         if is_literal cmd "nav" then
           res ← handlers.nav payload;
           mret (obj [("id", id); ("ok", JBool true); ("result", res)]%string)
         else
           res ← call m payload tabId;
           mret (obj [("id", id); ("ok", JBool true);
                      ("result", JObj (spread [(str "tabId", JInt tabId)] res))]%string)
     end)
    (fun e =>
       mret (obj [("id", id); ("ok", JBool false);
                  ("error", JStr (error_text e))]%string)).

(** ** [offscreen.js] *)

(** [JSON.parse(event.data)]: a [SyntaxError], or the value parsed. *)
Inductive Parse : Type :=
| SyntaxError
| Parsed (msg : json).

(** [ws.send(JSON.stringify(frame))] *)
Definition ws_send (frame : json) : Eff World unit := fun w =>
  (Done tt,
   {| tabs := tabs w; lastTabId := lastTabId w; active_tab := active_tab w;
      next_tab_id := next_tab_id w; web := web w; host := host w;
      uuid_entropy := uuid_entropy w;
      uuids_drawn := uuids_drawn w; lastError := lastError w;
      sent := sent w ++ [JSON_stringify frame] |}).

Definition hex_digit (v : N) : N := (if v <? 10 then 48 + v else 87 + v)%N.

Definition uuid_digit (bits : N) (i : nat) : N :=
  let nibble := N.land (N.shiftr bits (4 * N.of_nat i)) 15 in
  if bool_decide (i = 12%nat) then 4%N
  else if bool_decide (i = 16%nat) then (8 + nibble mod 4)%N
  else nibble.

(** The text of a version 4 UUID: 8-4-4-4-12 hexadecimal digits. *)
Definition format_uuid (bits : N) : jsstring :=
  let digits from n := map (fun i => hex_digit (uuid_digit bits i)) (seq from n) in
  digits 0%nat 8%nat ++ [45%N] ++ digits 8%nat 4%nat ++ [45%N]
    ++ digits 12%nat 4%nat ++ [45%N] ++ digits 16%nat 4%nat ++ [45%N]
    ++ digits 20%nat 12%nat.

Definition crypto_randomUUID : Eff World jsstring := fun w =>
  (Done (format_uuid (uuid_entropy w (uuids_drawn w))),
   {| tabs := tabs w; lastTabId := lastTabId w; active_tab := active_tab w;
      next_tab_id := next_tab_id w; web := web w; host := host w; uuid_entropy := uuid_entropy w;
      uuids_drawn := S (uuids_drawn w); lastError := lastError w; sent := sent w |}).

(** [chrome.runtime.sendMessage({ type: 'cmd', id, cmd, payload }, callback)]:
    the relay either fails, leaving [chrome.runtime.lastError], or runs the
    listener and hands its response to the callback.  The message reaches
    the listener as JSON. *)
Definition chrome_runtime_sendMessage (id : json) (cmd : jsvalue) (payload : json)
  : Eff World unit :=
  w ← read;
  match lastError w with
  | Some message =>
      ws_send (obj [("id", id); ("ok", JBool false); ("error", JStr message)]%string)
  | None =>
      response ← onMessage (JSON_stringify id) (JSON_stringify <$> cmd)
                   (JSON_stringify payload);
      ws_send response
  end.

(** [ws.onmessage] *)
Definition ws_onmessage (data : Parse) : Eff World unit :=
  match data with
  | SyntaxError =>
      ws_send (obj [("id", JNull); ("ok", JBool false);
                    ("error", JStr (str "Invalid JSON received"))]%string)
  | Parsed JNull =>
      throw (str "Cannot read properties of null (reading 'id')")
  | Parsed msg =>
      id ← (if truthy (get "id" msg) then mret (default JNull (get "id" msg))
            else uuid ← crypto_randomUUID; mret (JStr uuid));
      let cmd := get "cmd" msg in
      let payload := msg in
      if is_literal cmd "ping" then
        ws_send (obj [("id", id); ("ok", JBool true);
                      ("result", JStr (str "pong"))]%string)
      else chrome_runtime_sendMessage id cmd payload
  end.

(** ** Properties of computations *)

(** The computation stays inside the modelled fragment. *)
Definition total {S A} (m : Eff S A) : Prop := forall s, (m s).1 <> Unmodelled.

(** Whatever the computation returns satisfies [P]. *)
Definition returns {S A} (m : Eff S A) (P : A -> Prop) : Prop :=
  forall s a s', m s = (Done a, s') -> P a.

(** The computation leaves the component [proj] of the state alone. *)
Definition keeps {S A T} (proj : S -> T) (m : Eff S A) : Prop :=
  forall s, proj (m s).2 = proj s.

(** *** Payload fields at the types the handlers document

    The comment above each handler gives the type of its fields.  The
    statements about a handler name the fields they need at their type. *)

Definition integer_or_absent (k : string) (p : json) : bool :=
  match get k p with
  | None | Some (JNum (Int _)) => true
  | Some _ => false
  end.

Definition string_or_absent (k : string) (p : json) : bool :=
  match get k p with
  | None | Some (JStr _) => true
  | Some _ => false
  end.

Definition string_or_falsy (k : string) (p : json) : bool :=
  match get k p with
  | Some (JStr _) => true
  | v => negb (truthy v)
  end.

Definition is_string (k : string) (p : json) : bool :=
  match get k p with
  | Some (JStr _) => true
  | _ => false
  end.

(** The commands of the protocol: [ping], answered by the endpoint, and the
    registered handler names. *)
Definition valid_cmd (msg : json) : Prop :=
  is_literal (get "cmd" msg) "ping" = true
  \/ exists h, registered (value_to_string (get "cmd" msg)) = Some h.

(** The correlation id [ws.onmessage] settles on: [msg.id ||
    crypto.randomUUID()]. *)
Definition fresh_uuid (w : World) : jsstring :=
  format_uuid (uuid_entropy w (uuids_drawn w)).

Definition correlation_id (msg : json) (w : World) : json :=
  if truthy (get "id" msg) then default JNull (get "id" msg)
  else JStr (fresh_uuid w).

(** [const id = msg.id || crypto.randomUUID()] as a step of its own. *)
Definition choose_id (msg : json) : Eff World json :=
  if truthy (get "id" msg) then mret (default JNull (get "id" msg))
  else uuid ← crypto_randomUUID; mret (JStr uuid).

(** The frames [ws.onmessage] wrote to the socket. *)
Definition outbound (data : Parse) (w : World) : list json :=
  drop (length (sent w)) (sent (ws_onmessage data w).2).

(** A parsed message the endpoint answers: on [null], reading [msg.id]
    throws before anything is sent. *)
Definition answerable (msg : json) : Prop := msg <> JNull.

(** The id survives [JSON.stringify]: no number in it is an infinity. *)
Definition JSON_safe (v : json) : Prop := JSON_stringify v = v.

(** The remembered tab, if it still exists and is not discarded. *)
Definition usable_remembered (w : World) : option Z :=
  id ← lastTabId w;
  tab ← tabs w !! id;
  if discarded tab then None else Some id.

(** The blank tab [chrome.tabs.create({ url: 'about:blank' })] opens. *)
Definition blank_tab (w : World) : Tab :=
  open_site (web w (str "about:blank")) (str "about:blank").

(** What [nav] does after the navigation has been issued on [tabId]. *)
Definition nav_finish (url : jsvalue) (tabId : Z) : Eff World json :=
  setStoredTabId tabId;;
  waitForTabLoad tabId 30000;;
  tab ← chrome_tabs_get tabId;
  let reported :=
    if truthy (JStr <$> tab_url tab) then JStr <$> tab_url tab
    else if truthy url then url
    else Some JNull in
  mret (obj [("tabId", JInt tabId); ("url", default JNull reported);
             ("ok", JBool true)]%string).


(** A handler result without a field named [tabId]. *)
Definition lacks_tabId (res : json) : Prop :=
  exists fs, res = JObj fs /\ lookup_field (str "tabId") fs = None.

(** The markup [get_html] is asked for: the first match of the selector (the
    empty string when nothing matches) or, without a selector, the whole
    document.  A malformed selector selects nothing. *)
Definition selected_markup (payload : json) (p : Page) : option jsstring :=
  let selector := get "selector" payload in
  if truthy selector then
    match querySelectorAll p (now p) (value_to_string selector) with
    | inl (el :: _) => Some (outerHTML (node p el))
    | inl [] => Some []
    | inr _ => None
    end
  else Some (documentElement_outerHTML p).

(** *** The polling schedule of [xpath] *)

(** The expression is one [document.evaluate] accepts. *)
Definition valid_xpath (p : Page) (expr : jsstring) : Prop :=
  forall t, exists snap, evaluate p t expr = inl snap.

(** At time [t] the snapshot does not reach index [idx]. *)
Definition short (p : Page) (expr : jsstring) (idx t : Z) : Prop :=
  exists snap, evaluate p t expr = inl snap /\ Z.of_nat (length snap) <= idx.

(** [n] sample times 100ms apart, from [start]. *)
Definition sample_times (start : Z) (n : nat) : list Z :=
  map (fun k => start + 100 * Z.of_nat k) (seq 0 n).

(** The payload asks for the action called [name]: it says so, or it says
    nothing and [name] is [list], the default. *)
Definition names_action (payload : json) (name : string) : Prop :=
  get "action" payload = Some (JStr (str name))
  \/ (get "action" payload = None /\ name = "list"%string).

(** The numeric field [k] of the payload is the integer [z], or is absent
    and [z] is the default. *)
Definition has_int (k : string) (dflt : Z) (payload : json) (z : Z) : Prop :=
  get k payload = Some (JInt z) \/ (get k payload = None /\ z = dflt).

Definition immediate_names : list string := ["list"; "exists"; "count"]%string.

Definition indexed_names : list string :=
  ["click"; "getAttribute"; "getHTML"; "getText"; "setValue"; "type"]%string.

(** The actions that only look at the snapshot, and those that target the
    node at [index]. *)
Definition immediate_action (a : Injected.Action) : Prop :=
  a = Injected.list_ \/ a = Injected.exists_a \/ a = Injected.count.

Definition indexed_action (a : Injected.Action) : Prop :=
  a = Injected.click_a \/ a = Injected.getAttribute \/ a = Injected.getHTML
  \/ a = Injected.getText \/ a = Injected.setValue \/ a = Injected.type_a.

(** ** A small session to run the model on

    One tab (id 7) showing a document with an [<input id=q>] that appears
    250ms after the document is first queried, a [<div>] and a hidden
    [<input>]; one site that never finishes loading; timers that are never
    late. *)

Module Demo.

Definition rect0 : Rect :=
  {| rect_x := Int 0; rect_y := Int 0; rect_width := Int 0; rect_height := Int 0 |}.

(** An element that shows nothing of what is assigned to its value. *)
Definition unreflected (attributes : jsstring -> option jsstring) (text markup : jsstring)
  : jsstring -> Reflection :=
  fun _ => {| attribute_now := attributes; textContent_now := text;
              outerHTML_now := markup |}.

(** An [<input>] drops the line breaks of what is written to its value. *)
Definition is_line_break (c : N) : bool := ((c =? 10) || (c =? 13))%N.

Definition input_q_attributes (name : jsstring) : option jsstring :=
  if bool_decide (name = str "name") || bool_decide (name = str "id")
  then Some (str "q") else None.

Definition input_q : Node :=
  {| nodeType := ELEMENT_NODE; nodeName := str "INPUT"; el_id := str "q";
     className := [];
     attribute := input_q_attributes;
     value := Some (str "old");
     sanitize := filter (fun c => is_line_break c = false);
     value_reflected := unreflected input_q_attributes [] (str "<input id=q name=q>");
     textContent := [];
     outerHTML := str "<input id=q name=q>" |}.

Definition div_hello : Node :=
  {| nodeType := ELEMENT_NODE; nodeName := str "DIV"; el_id := []; className := [];
     attribute := fun _ => None; value := None; sanitize := id;
     value_reflected := unreflected (fun _ => None) (str "hello") (str "<div>hello</div>");
     textContent := str "hello";
     outerHTML := str "<div>hello</div>" |}.

Definition html_root : Node :=
  {| nodeType := ELEMENT_NODE; nodeName := str "HTML"; el_id := []; className := [];
     attribute := fun _ => None; value := None; sanitize := id;
     value_reflected :=
       unreflected (fun _ => None) (str "hello") (str "<html><div>hello</div></html>");
     textContent := str "hello";
     outerHTML := str "<html><div>hello</div></html>" |}.

(** A static document: a click activates nothing, an attribute or a text
    that is written reads back, scripts leave the nodes alone and nothing
    has a size.  A name with a space in it is not an attribute name. *)
Definition static_dom : Dom :=
  {| activated := fun _ nodes => nodes;
     attribute_set := fun el name v nodes =>
       if bool_decide (32%N ∈ name)
       then inr (str "String contains an invalid character")
       else
         let attributes k := if bool_decide (k = name) then Some v
                             else attribute (nodes el) k in
         inl (<[el :=
           {| nodeType := nodeType (nodes el); nodeName := nodeName (nodes el);
              el_id := el_id (nodes el); className := className (nodes el);
              attribute := attributes;
              value := value (nodes el); sanitize := sanitize (nodes el);
              value_reflected :=
                unreflected attributes (textContent (nodes el)) (outerHTML (nodes el));
              textContent := textContent (nodes el);
              outerHTML := outerHTML (nodes el) |}]> nodes);
     text_set := fun n v nodes =>
       <[n :=
         {| nodeType := nodeType (nodes n); nodeName := nodeName (nodes n);
            el_id := el_id (nodes n); className := className (nodes n);
            attribute := attribute (nodes n);
            value := value (nodes n); sanitize := sanitize (nodes n);
            value_reflected := unreflected (attribute (nodes n)) v (outerHTML (nodes n));
            textContent := v; outerHTML := outerHTML (nodes n) |}]> nodes;
     scripted := fun _ nodes => nodes;
     layout := fun _ _ => rect0 |}.

(** An [<input type=hidden>] reflects its value in the attribute [value]. *)
Definition hidden_attributes (v : jsstring) (name : jsstring) : option jsstring :=
  if bool_decide (name = str "type") then Some (str "hidden")
  else if bool_decide (name = str "value") then Some v
  else None.

Definition hidden_markup (v : jsstring) : jsstring :=
  str "<input type=hidden value=" ++ v ++ str ">".

Definition hidden_token : Node :=
  {| nodeType := ELEMENT_NODE; nodeName := str "INPUT"; el_id := []; className := [];
     attribute := hidden_attributes (str "t0");
     value := Some (str "t0");
     sanitize := id;
     value_reflected := fun s =>
       {| attribute_now := hidden_attributes s; textContent_now := [];
          outerHTML_now := hidden_markup s |};
     textContent := [];
     outerHTML := hidden_markup (str "t0") |}.

Definition document : Page :=
  {| now := 0;
     node := fun n => if bool_decide (n = 0%nat) then input_q
                      else if bool_decide (n = 1%nat) then div_hello
                      else if bool_decide (n = 3%nat) then hidden_token else html_root;
     querySelectorAll := fun t sel =>
       if bool_decide (sel = str "#q") then inl (if 250 <=? t then [0%nat] else [])
       else if bool_decide (sel = str "div") then inl [1%nat]
       else if bool_decide (sel = str "[type=hidden]") then inl [3%nat]
       else if bool_decide (sel = str "a[") then inr (str "'a[' is not a valid selector")
       else inl [];
     evaluate := fun t xp =>
       if bool_decide (xp = str "//input") then inl (if 250 <=? t then [0%nat] else [])
       else if bool_decide (xp = str "//div") then inl [1%nat]
       else if bool_decide (xp = str "//[") then inr (str "not a valid XPath expression")
       else inl [];
     documentElement := 2%nat;
     run_script := fun _ => ScriptReturns (Some (JStr (str "Example"))) (str "Example");
     dom := static_dom;
     events := []; evaluations := [] |}.

(** A disclosure widget: [<details><summary>More</summary>..</details>].
    Activating the summary opens the details. *)
Definition summary_more : Node :=
  {| nodeType := ELEMENT_NODE; nodeName := str "SUMMARY"; el_id := []; className := [];
     attribute := fun _ => None; value := None; sanitize := id;
     value_reflected := unreflected (fun _ => None) (str "More") (str "<summary>More</summary>");
     textContent := str "More";
     outerHTML := str "<summary>More</summary>" |}.

Definition details_markup (open : bool) : jsstring :=
  str "<details" ++ (if open then str " open=" ++ quote ++ quote else [])
    ++ str "><summary>More</summary></details>".

Definition details_attributes (open : bool) (name : jsstring) : option jsstring :=
  if open && bool_decide (name = str "open") then Some [] else None.

Definition details (open : bool) : Node :=
  {| nodeType := ELEMENT_NODE; nodeName := str "DETAILS"; el_id := []; className := [];
     attribute := details_attributes open; value := None; sanitize := id;
     value_reflected :=
       unreflected (details_attributes open) (str "More") (details_markup open);
     textContent := str "More";
     outerHTML := details_markup open |}.

Definition is_open (x : Node) : bool := bool_decide (is_Some (attribute x (str "open"))).

Definition disclosure : Page :=
  {| now := 0;
     node := fun n => if bool_decide (n = 0%nat) then summary_more else details false;
     querySelectorAll := fun _ sel =>
       if bool_decide (sel = str "summary") then inl [0%nat]
       else if bool_decide (sel = str "details") then inl [1%nat]
       else inl [];
     evaluate := fun _ _ => inl [];
     documentElement := 1%nat;
     run_script := fun _ => ScriptReturns (Some JNull) (str "null");
     dom :=
       {| activated := fun el nodes =>
            if bool_decide (el = 0%nat)
            then <[1%nat := details (negb (is_open (nodes 1%nat)))]> nodes
            else nodes;
          attribute_set := attribute_set static_dom;
          text_set := text_set static_dom;
          scripted := scripted static_dom;
          layout := layout static_dom |};
     events := []; evaluations := [] |}.

Definition example_org : Site :=
  {| site_page := document; site_load_ms := Some 400; site_injection_error := None |}.

Definition never_loads : Site :=
  {| site_page := document; site_load_ms := None; site_injection_error := None |}.

Definition tab7 : Tab :=
  {| discarded := false; tab_url := Some (str "https://example.org");
     load_remaining := Some 0; injection_error := None; page := document |}.

(** A punctual runtime that refuses what it has to coerce. *)
Definition punctual : Host :=
  {| tick_late := fun _ => 0%nat;
     ill_typed := fun _ _ p => (inr (str "TypeError"), p);
     error_message := fun _ _ => str "TypeError" |}.

Definition session : World :=
  {| tabs := {[ 7 := tab7 ]}; lastTabId := Some 7; active_tab := Some 7;
     next_tab_id := 8;
     web := fun u => if bool_decide (u = str "https://slow.example") then never_loads
                     else example_org;
     host := punctual;
     uuid_entropy := fun n => N.of_nat n; uuids_drawn := 0;
     lastError := None; sent := [] |}.

(** A session that has just started: nothing remembered, no window focused. *)
Definition empty_session : World :=
  {| tabs := ∅; lastTabId := None; active_tab := None; next_tab_id := 1;
     web := fun _ => example_org; host := punctual;
     uuid_entropy := fun n => N.of_nat n; uuids_drawn := 0;
     lastError := None; sent := [] |}.

(** The same session after the remembered tab was forgotten. *)
Definition forgetful_session : World :=
  {| tabs := {[ 7 := tab7 ]}; lastTabId := None; active_tab := Some 7;
     next_tab_id := 8; web := fun _ => example_org; host := punctual;
     uuid_entropy := fun n => N.of_nat n; uuids_drawn := 0;
     lastError := None; sent := [] |}.




(** A site that takes 30100ms to load, seen from a runtime that is [late]
    milliseconds late at every tick. *)
Definition heavy_site : Site :=
  {| site_page := document; site_load_ms := Some 30100; site_injection_error := None |}.

Definition heavy_session (late : nat) : World :=
  {| tabs := {[ 7 := tab7 ]}; lastTabId := Some 7; active_tab := Some 7;
     next_tab_id := 8; web := fun _ => heavy_site;
     host := {| tick_late := fun _ => late;
                ill_typed := fun _ _ p => (inr (str "TypeError"), p);
                error_message := fun _ _ => str "TypeError" |};
     uuid_entropy := fun n => N.of_nat n; uuids_drawn := 0;
     lastError := None; sent := [] |}.

Definition text (s : string) : json := JStr (str s).

(** Inbound envelopes and payloads used as examples. *)
Definition ping_with_empty_id : json :=
  obj [("id", JStr []); ("cmd", text "ping")]%string.

(** [{"id":1e999,"cmd":"ping"}]: the id is read as [Infinity]. *)
Definition ping_with_infinite_id : json :=
  obj [("id", JNum (Infinity false)); ("cmd", text "ping")]%string.

Definition exists_div : json :=
  obj [("id", text "1"); ("cmd", text "exists"); ("selector", text "div")]%string.

Definition get_html_with_empty_id : json :=
  obj [("id", JStr []); ("cmd", text "get_html")]%string.

Definition cmd_toString : json :=
  obj [("id", text "1"); ("cmd", text "toString")]%string.

Definition nav_slow_fresh_tab : json :=
  obj [("url", text "https://slow.example"); ("reuse", JBool false)]%string.

Definition get_html_5 : json := obj [("max_len", JInt 5)]%string.

Definition type_abc : json :=
  obj [("selector", text "#q"); ("text", text "abc")]%string.

(** The text [a], line feed, [b], for the input. *)
Definition type_line_break : json :=
  obj [("selector", text "#q"); ("text", JStr [97; 10; 98]%N)]%string.

Definition count_none : json :=
  obj [("expr", text "//none"); ("action", text "count")]%string.

Definition getText_input : json :=
  obj [("expr", text "//input"); ("action", text "getText")]%string.

End Demo.

(** ** Further vocabulary for the page and the session *)

(** The page [ms] milliseconds later, nothing else having happened. *)
Definition advance (ms : Z) (p : Page) : Page :=
  {| now := now p + ms; node := node p;
     querySelectorAll := querySelectorAll p; evaluate := evaluate p;
     documentElement := documentElement p;
     run_script := run_script p; dom := dom p; events := events p;
     evaluations := evaluations p |}.

(** The selector is one [querySelectorAll] accepts. *)
Definition valid_selector (p : Page) (sel : jsstring) : Prop :=
  forall t, exists list, querySelectorAll p t sel = inl list.

(** At time [t] the selector matches no element at index [idx]. *)
Definition few (p : Page) (sel : jsstring) (idx t : Z) : Prop :=
  exists list, querySelectorAll p t sel = inl list /\ Z.of_nat (length list) <= idx.

(** The events one turn of the typing loop dispatches on [el]. *)
Definition keystroke (el : nat) (ch : jsstring) : list (nat * Event) :=
  [(el, KeyboardEvent (str "keydown") ch); (el, InputEvent ch);
   (el, KeyboardEvent (str "keypress") ch); (el, KeyboardEvent (str "keyup") ch)].

(** What the value of a control becomes when the code points [chs] are
    added to [v] one at a time, each through the setter. *)
Fixpoint typed_value (setter : jsstring -> jsstring) (v : jsstring) (chs : list jsstring)
  : jsstring :=
  match chs with
  | [] => v
  | ch :: rest => typed_value setter (setter (v ++ ch)) rest
  end.

(** The setter stores as they are the strings that typing [text] after
    [base] writes. *)
Definition stores_typing (setter : jsstring -> jsstring) (base text : jsstring) : Prop :=
  forall k, setter (base ++ concat (take k (code_points text)))
            = base ++ concat (take k (code_points text)).

(** The pointer sequence of [click]. *)
Definition click_events (el : nat) : list (nat * Event) :=
  (el, ScrollIntoView)
  :: map (fun t => (el, MouseEvent (str t))) Injected.mouse_sequence.

(** The message of the [InvalidArgument] failure of [xpath]. *)
Definition missing_expr : jsstring :=
  str "xpath: missing " ++ quote ++ str "expr" ++ quote.

(** [expr] is something else than a non-empty string. *)
Definition expr_missing (payload : json) : Prop :=
  match get "expr" payload with
  | Some (JStr (_ :: _)) => False
  | _ => True
  end.

(** The page after one [document.evaluate] at the current time. *)
Definition evaluated_once (p : Page) : Page :=
  {| now := now p; node := node p;
     querySelectorAll := querySelectorAll p; evaluate := evaluate p;
     documentElement := documentElement p;
     run_script := run_script p; dom := dom p; events := events p;
     evaluations := evaluations p ++ [now p] |}.


(** The summary [s] describes the node [n] of the page as the [list] action
    is to report it: the kind of node; for an element its tag, id, classes,
    [name] attribute, value and rectangle (an empty one being [null]), with
    its markup cut to [max_len] only if [includeHTML] asks for it; for a text
    node its first 200 code units; for another node its name. *)
Definition describes (p : Page) (payload : json) (n : nat) (s : json) : Prop :=
  let x := node p n in
  match nodeType x with
  | ELEMENT_NODE =>
      let r := layout (dom p) (events p) n in
      get "nodeType" s = Some (JStr (str "element"))
      /\ get "tag" s = Some (JStr (nodeName x))
      /\ get "id" s = Some (if bool_decide (el_id x = []) then JNull else JStr (el_id x))
      /\ get "classes" s
         = Some (if bool_decide (className x = []) then JNull else JStr (className x))
      /\ get "name" s
         = Some (match attribute x (str "name") with
                 | Some (c :: name) => JStr (c :: name)
                 | _ => JNull
                 end)
      /\ get "value" s = Some (match value x with Some v => JStr v | None => JNull end)
      /\ get "rect" s
         = Some (obj [("x", JNum (rect_x r)); ("y", JNum (rect_y r));
                      ("width", JNum (rect_width r));
                      ("height", JNum (rect_height r))]%string)
      /\ match get "includeHTML" payload with
         | Some flag =>
             if truthy (Some flag) then
               forall max_len, has_int "max_len" 500000 payload max_len ->
                 let cut := max_len <? Z.of_nat (length (outerHTML x)) in
                 get "html" s
                 = Some (JStr (if cut then slice0 (outerHTML x) max_len else outerHTML x))
                 /\ get "html_truncated" s = Some (JBool cut)
             else get "html" s = None /\ get "html_truncated" s = None
         | None => get "html" s = None /\ get "html_truncated" s = None
         end
  | TEXT_NODE =>
      s = obj [("nodeType", JStr (str "text"));
               ("text", JStr (slice0 (textContent x) 200))]%string
  | OTHER_NODE =>
      s = obj [("nodeType", JStr (str "other")); ("nodeName", JStr (nodeName x))]%string
  end.

(** What the host guarantees about a session: the next tab id is not in use,
    and the active tab of the focused window is an open tab that is not
    discarded. *)
Definition well_formed (w : World) : Prop :=
  tabs w !! next_tab_id w = None
  /\ forall a, active_tab w = Some a ->
       exists t, tabs w !! a = Some t /\ discarded t = false.





(** The envelope the listener builds from the outcome of [nav]. *)
Definition nav_response (id : json) (outcome : run json) : run json :=
  match outcome with
  | Done res => Done (obj [("id", id); ("ok", JBool true); ("result", res)]%string)
  | Thrown e =>
      Done (obj [("id", id); ("ok", JBool false); ("error", JStr (error_text e))]%string)
  | Unmodelled => Unmodelled
  end.

(** The demo session while the relay to the service worker is down. *)
Definition relay_down : World :=
  {| tabs := tabs Demo.session; lastTabId := Some 7; active_tab := Some 7;
     next_tab_id := 8; web := web Demo.session; host := host Demo.session;
     uuid_entropy := uuid_entropy Demo.session; uuids_drawn := 0;
     lastError := Some (str "Could not establish connection. Receiving end does not exist.");
     sent := [] |}.

(** ** [offscreen.js]: keeping the socket alive

    The endpoint holds one socket in [ws] and the id of the last reconnect
    timeout in [reconnectTimer].  The socket is known by its [readyState];
    the pending timeouts are those [setTimeout(connect, delay)] has scheduled
    and that have neither fired nor been cleared. *)

Module Offscreen.

Inductive ReadyState : Type := CONNECTING | OPEN | CLOSING | CLOSED.

Record Endpoint : Type := {
  ws : option ReadyState;                     (* [None]: [ws] is still [null] *)
  reconnectTimer : option nat;                (* timeout ids are positive, hence truthy *)
  timeouts : list (nat * Z);                  (* pending [connect] timeouts: id, delay *)
  next_timeout : nat;
  session : World
}.

Definition initial (w : World) : Endpoint :=
  {| ws := None; reconnectTimer := None; timeouts := []; next_timeout := 1%nat;
     session := w |}.

Definition with_ws (s : ReadyState) (ep : Endpoint) : Endpoint :=
  {| ws := Some s; reconnectTimer := reconnectTimer ep; timeouts := timeouts ep;
     next_timeout := next_timeout ep; session := session ep |}.

(** [reconnectTimer = setTimeout(connect, delay)] *)
Definition schedule_connect (delay : Z) (ep : Endpoint) : Endpoint :=
  {| ws := ws ep; reconnectTimer := Some (next_timeout ep);
     timeouts := timeouts ep ++ [(next_timeout ep, delay)];
     next_timeout := S (next_timeout ep); session := session ep |}.

(** [clearTimeout(id)]: a timeout that has fired already is not there. *)
Definition clearTimeout (id : nat) (ep : Endpoint) : Endpoint :=
  {| ws := ws ep; reconnectTimer := reconnectTimer ep;
     timeouts := filter (fun t => t.1 <> id) (timeouts ep);
     next_timeout := next_timeout ep; session := session ep |}.

(** [connect()]: [new WebSocket(WS_URL)] either yields a connecting socket
    or throws, and then a retry is scheduled. *)
Definition connect (constructor_throws : bool) (ep : Endpoint) : Endpoint :=
  if constructor_throws then schedule_connect 2000 ep
  else with_ws CONNECTING ep.

Definition hello (id : jsstring) : json :=
  obj [("id", JStr id); ("ok", JBool true);
       ("hello", JStr (str "ws-dom-controller-online"))]%string.

(** [ws.onopen] *)
Definition onopen (ep : Endpoint) : Endpoint :=
  let ep1 :=
    match reconnectTimer ep with
    | Some id =>
        let cleared := clearTimeout id ep in
        {| ws := ws cleared; reconnectTimer := None; timeouts := timeouts cleared;
           next_timeout := next_timeout cleared; session := session cleared |}
    | None => ep
    end in
  {| ws := ws ep1; reconnectTimer := reconnectTimer ep1; timeouts := timeouts ep1;
     next_timeout := next_timeout ep1;
     session := ((uuid ← crypto_randomUUID; ws_send (hello uuid)) (session ep1)).2 |}.

(** [ws.onclose] *)
Definition onclose (ep : Endpoint) : Endpoint := schedule_connect 2000 ep.

(** [ws.onerror]: [try { ws.close() } catch {}] *)
Definition onerror (ep : Endpoint) : Endpoint :=
  match ws ep with
  | Some CONNECTING | Some OPEN => with_ws CLOSING ep
  | _ => ep
  end.

(** [ws.onmessage] on the endpoint's session. *)
Definition onmessage (data : Parse) (ep : Endpoint) : Endpoint :=
  {| ws := ws ep; reconnectTimer := reconnectTimer ep; timeouts := timeouts ep;
     next_timeout := next_timeout ep; session := (ws_onmessage data (session ep)).2 |}.

Definition fire (id : nat) (ep : Endpoint) : Endpoint :=
  {| ws := ws ep; reconnectTimer := reconnectTimer ep;
     timeouts := filter (fun t => t.1 <> id) (timeouts ep);
     next_timeout := next_timeout ep; session := session ep |}.

(** What the host may do next: a connecting socket opens; a socket that is
    not closed reports an error or closes (its [close] event comes once); a
    pending timeout fires and calls [connect]; an open socket delivers a
    message.  Each runs the handler the endpoint has installed. *)
Inductive step : Endpoint -> Endpoint -> Prop :=
| socket_opens ep :
    ws ep = Some CONNECTING -> step ep (onopen (with_ws OPEN ep))
| socket_errors ep s :
    ws ep = Some s -> s <> CLOSED -> step ep (onerror ep)
| socket_closes ep s :
    ws ep = Some s -> s <> CLOSED -> step ep (onclose (with_ws CLOSED ep))
| timeout_fires ep id delay constructor_throws :
    (id, delay) ∈ timeouts ep -> step ep (connect constructor_throws (fire id ep))
| message_arrives ep data :
    ws ep = Some OPEN -> step ep (onmessage data ep).

(** The states the endpoint can be in after [connect()] at start-up. *)
Inductive reachable (w : World) : Endpoint -> Prop :=
| started constructor_throws : reachable w (connect constructor_throws (initial w))
| stepped ep ep' : reachable w ep -> step ep ep' -> reachable w ep'.

(** Either a socket is alive and nothing is scheduled, or there is no live
    socket and exactly one reconnect is scheduled, 2000ms after it was set,
    under the id kept in [reconnectTimer]. *)
Definition alive_or_scheduled (ep : Endpoint) : Prop :=
  match ws ep with
  | Some CONNECTING | Some OPEN | Some CLOSING => timeouts ep = []
  | Some CLOSED | None =>
      exists id, timeouts ep = [(id, 2000)] /\ reconnectTimer ep = Some id
  end.

End Offscreen.

(** ** [server.js]: the command line of the controller *)

Module Server.

(** The white space [String.prototype.trim] removes. *)
Definition is_white_space (c : N) : bool :=
  (((9 <=? c) && (c <=? 13)) || (c =? 32) || (c =? 160) || (c =? 5760)
   || ((8192 <=? c) && (c <=? 8202)) || (c =? 8232) || (c =? 8233) || (c =? 8239)
   || (c =? 8287) || (c =? 12288) || (c =? 65279))%N.

Fixpoint trim_start (s : jsstring) : jsstring :=
  match s with
  | c :: rest => if is_white_space c then trim_start rest else s
  | [] => []
  end.

Definition trim (s : jsstring) : jsstring := reverse (trim_start (reverse (trim_start s))).

(** The [line] handler of the readline interface: the text it passes to
    [ws.send], if any.  [parsed] is [JSON.parse] of the trimmed line and
    [fresh] what [id()] would return.  The file is a module, hence strict:
    assigning [obj.id] on a primitive throws, like reading it on [null], and
    the [catch] only logs.  A property set on an array is not serialised. *)
Definition on_line (line : jsstring) (parsed : Parse) (fresh : jsstring)
  : option JSON_text :=
  if bool_decide (trim line = []) then None
  else
    match parsed with
    | SyntaxError => None
    | Parsed obj =>
        match obj with
        | JObj fs =>
            if truthy (get "id" obj) then Some (JSON_stringify obj)
            else Some (JSON_stringify (JObj (set_field (str "id") (JStr fresh) fs)))
        | JArr _ => Some (JSON_stringify obj)
        | _ => None
        end
    end.

End Server.

(** ** Reasoning about computations *)

Section Effects.
Context {S : Type}.

Lemma bind_Done {A B} (m : Eff S A) (f : A -> Eff S B) s a s' :
  m s = (Done a, s') -> (m ≫= f) s = f a s'.
Proof. intros H. unfold mbind, eff_bind. now rewrite H. Qed.

Lemma bind_Thrown {A B} (m : Eff S A) (f : A -> Eff S B) s e s' :
  m s = (Thrown e, s') -> (m ≫= f) s = (Thrown e, s').
Proof. intros H. unfold mbind, eff_bind. now rewrite H. Qed.

Lemma bind_Unmodelled {A B} (m : Eff S A) (f : A -> Eff S B) s s' :
  m s = (Unmodelled, s') -> (m ≫= f) s = (Unmodelled, s').
Proof. intros H. unfold mbind, eff_bind. now rewrite H. Qed.

Lemma total_ret {A} (a : A) : total (mret a : Eff S A).
Proof. intros s. discriminate. Qed.

Lemma total_throw {A} e : total (throw e : Eff S A).
Proof. intros s. discriminate. Qed.

Lemma total_read : total (read : Eff S S).
Proof. intros s. discriminate. Qed.

Lemma total_bind {A B} (m : Eff S A) (f : A -> Eff S B) :
  total m -> (forall a, total (f a)) -> total (m ≫= f).
Proof.
  intros Hm Hf s. specialize (Hm s). unfold mbind, eff_bind.
  destruct (m s) as [[a | e |] s']; simpl in *; [apply Hf | discriminate | congruence].
Qed.

Lemma total_expect {A} (o : option A) : is_Some o -> total (expect o : Eff S A).
Proof. intros [a ->]. apply total_ret. Qed.

Lemma total_try_catch {A} (m : Eff S A) h :
  total m -> (forall e, total (h e)) -> total (try_catch m h).
Proof.
  intros Hm Hh s. specialize (Hm s). unfold try_catch.
  destruct (m s) as [[a | e |] s']; simpl in *; [discriminate | apply Hh | congruence].
Qed.

Lemma returns_ret {A} (a : A) (P : A -> Prop) : P a -> returns (mret a : Eff S A) P.
Proof. intros H s a' s' [= <- _]. exact H. Qed.

Lemma returns_throw {A} e (P : A -> Prop) : returns (throw e : Eff S A) P.
Proof. intros s a s' [=]. Qed.

Lemma returns_unmodelled {A} (P : A -> Prop) : returns (unmodelled : Eff S A) P.
Proof. intros s a s' [=]. Qed.

Lemma returns_bind {A B} (m : Eff S A) (f : A -> Eff S B) (P : B -> Prop) :
  (forall a, returns (f a) P) -> returns (m ≫= f) P.
Proof.
  intros Hf s b s'. unfold mbind, eff_bind.
  destruct (m s) as [[a | e |] s1]; [apply Hf | discriminate | discriminate].
Qed.

Lemma keeps_ret {A T} (proj : S -> T) (a : A) : keeps proj (mret a : Eff S A).
Proof. intros s. reflexivity. Qed.

Lemma keeps_throw {A T} (proj : S -> T) e : keeps proj (throw e : Eff S A).
Proof. intros s. reflexivity. Qed.

Lemma keeps_unmodelled {A T} (proj : S -> T) : keeps proj (unmodelled : Eff S A).
Proof. intros s. reflexivity. Qed.

Lemma keeps_read {T} (proj : S -> T) : keeps proj (read : Eff S S).
Proof. intros s. reflexivity. Qed.

Lemma keeps_expect {A T} (proj : S -> T) (o : option A) : keeps proj (expect o : Eff S A).
Proof. destruct o; intros s; reflexivity. Qed.

Lemma keeps_bind {A B T} (proj : S -> T) (m : Eff S A) (f : A -> Eff S B) :
  keeps proj m -> (forall a, keeps proj (f a)) -> keeps proj (m ≫= f).
Proof.
  intros Hm Hf s. specialize (Hm s). unfold mbind, eff_bind.
  destruct (m s) as [[a | e |] s']; simpl in *; [rewrite Hf | ..]; exact Hm.
Qed.

Lemma keeps_try_catch {A T} (proj : S -> T) (m : Eff S A) h :
  keeps proj m -> (forall e, keeps proj (h e)) -> keeps proj (try_catch m h).
Proof.
  intros Hm Hh s. specialize (Hm s). unfold try_catch.
  destruct (m s) as [[a | e |] s']; simpl in *; [| rewrite Hh |]; exact Hm.
Qed.

End Effects.

Create HintDb total.
Create HintDb returns.
Create HintDb keeps.

#[global] Hint Resolve total_ret total_throw total_read : total.
#[global] Hint Resolve returns_throw returns_unmodelled : returns.
#[global] Hint Resolve keeps_ret keeps_throw keeps_unmodelled keeps_read keeps_expect : keeps.

(** One layer of a computation: a bind, a conditional or a match. *)
Ltac total_step :=
  match goal with
  | |- total (mbind _ _) => apply total_bind; [| intros ?]
  | |- total (try_catch _ _) => apply total_try_catch; [| intros ?]
  | |- total (if ?b then _ else _) => destruct b eqn:?
  | |- total (match ?x with _ => _ end) => destruct x eqn:?
  | |- total _ => solve [eauto with total]
  end.

Ltac returns_step :=
  match goal with
  | |- returns (mbind _ _) _ => apply returns_bind; intros ?
  | |- returns (if ?b then _ else _) _ => destruct b
  | |- returns (match ?x with _ => _ end) _ => destruct x
  | |- returns (mret _) _ => apply returns_ret
  | |- returns _ _ => solve [eauto with returns]
  end.

Ltac keeps_step :=
  match goal with
  | |- keeps _ (mbind _ _) => apply keeps_bind; [| intros ?]
  | |- keeps _ (try_catch _ _) => apply keeps_try_catch; [| intros ?]
  | |- keeps _ (if ?b then _ else _) => destruct b
  | |- keeps _ (match ?x with _ => _ end) => destruct x
  | |- keeps _ _ => solve [eauto with keeps]
  end.

(** ** The primitives stay in the model and touch only what they name *)

Ltac primitive :=
  let s := fresh "s" in
  intros s; cbv beta delta
    [performance_now sleep log_event get_node put_node activate setAttribute
     set_textContent getBoundingClientRect document_querySelectorAll
     Injected.evalSnapshot chrome_tabs_get chrome_tabs_query_active
     chrome_tabs_create chrome_tabs_update getStoredTabId setStoredTabId
     set_load_remaining ws_send crypto_randomUUID];
  repeat case_match; simpl; solve [reflexivity | discriminate].

Lemma total_performance_now : total performance_now.
Proof. primitive. Qed.
Lemma total_sleep ms : total (sleep ms).
Proof. primitive. Qed.
Lemma total_log_event n e : total (log_event n e).
Proof. primitive. Qed.
Lemma total_get_node n : total (get_node n).
Proof. primitive. Qed.
Lemma total_put_node n x : total (put_node n x).
Proof. primitive. Qed.
Lemma total_querySelectorAll sel : total (document_querySelectorAll sel).
Proof. primitive. Qed.
Lemma total_evalSnapshot xp : total (Injected.evalSnapshot xp).
Proof. primitive. Qed.
Lemma total_tabs_get id : total (chrome_tabs_get id).
Proof. primitive. Qed.
Lemma total_tabs_query : total chrome_tabs_query_active.
Proof. primitive. Qed.
Lemma total_tabs_create u : total (chrome_tabs_create u).
Proof. primitive. Qed.
Lemma total_tabs_update id u : total (chrome_tabs_update id u).
Proof. primitive. Qed.
Lemma total_getStoredTabId : total getStoredTabId.
Proof. primitive. Qed.
Lemma total_setStoredTabId id : total (setStoredTabId id).
Proof. primitive. Qed.
Lemma total_set_load_remaining id r : total (set_load_remaining id r).
Proof. primitive. Qed.

#[global] Hint Resolve total_performance_now total_sleep total_log_event total_get_node
  total_put_node total_querySelectorAll total_evalSnapshot total_tabs_get
  total_tabs_query total_tabs_create total_tabs_update total_getStoredTabId
  total_setStoredTabId total_set_load_remaining : total.

(** Nothing but [ws.send] writes to the socket. *)
Lemma sent_tabs_get id : keeps sent (chrome_tabs_get id).
Proof. primitive. Qed.
Lemma sent_tabs_query : keeps sent chrome_tabs_query_active.
Proof. primitive. Qed.
Lemma sent_tabs_create u : keeps sent (chrome_tabs_create u).
Proof. primitive. Qed.
Lemma sent_tabs_update id u : keeps sent (chrome_tabs_update id u).
Proof. primitive. Qed.
Lemma sent_getStoredTabId : keeps sent getStoredTabId.
Proof. primitive. Qed.
Lemma sent_setStoredTabId id : keeps sent (setStoredTabId id).
Proof. primitive. Qed.
Lemma sent_set_load_remaining id r : keeps sent (set_load_remaining id r).
Proof. primitive. Qed.
Lemma sent_randomUUID : keeps sent crypto_randomUUID.
Proof. primitive. Qed.

#[global] Hint Resolve sent_tabs_get sent_tabs_query sent_tabs_create sent_tabs_update
  sent_getStoredTabId sent_setStoredTabId sent_set_load_remaining sent_randomUUID : keeps.

(** Only [evalSnapshot] adds to the log of XPath evaluations, only [sleep]
    moves the clock, and nothing replaces the document's answers. *)
Lemma evaluations_performance_now : keeps evaluations performance_now.
Proof. primitive. Qed.
Lemma evaluations_sleep ms : keeps evaluations (sleep ms).
Proof. primitive. Qed.
Lemma evaluations_log_event n e : keeps evaluations (log_event n e).
Proof. primitive. Qed.
Lemma evaluations_get_node n : keeps evaluations (get_node n).
Proof. primitive. Qed.
Lemma evaluations_put_node n x : keeps evaluations (put_node n x).
Proof. primitive. Qed.

Lemma now_log_event n e : keeps now (log_event n e).
Proof. primitive. Qed.
Lemma now_get_node n : keeps now (get_node n).
Proof. primitive. Qed.
Lemma now_put_node n x : keeps now (put_node n x).
Proof. primitive. Qed.

Lemma evaluations_activate el : keeps evaluations (activate el).
Proof. primitive. Qed.
Lemma evaluations_setAttribute el name v : keeps evaluations (setAttribute el name v).
Proof. primitive. Qed.
Lemma evaluations_set_textContent n v : keeps evaluations (set_textContent n v).
Proof. primitive. Qed.
Lemma evaluations_getBoundingClientRect el : keeps evaluations (getBoundingClientRect el).
Proof. primitive. Qed.
Lemma now_activate el : keeps now (activate el).
Proof. primitive. Qed.
Lemma now_set_textContent n v : keeps now (set_textContent n v).
Proof. primitive. Qed.
Lemma now_getBoundingClientRect el : keeps now (getBoundingClientRect el).
Proof. primitive. Qed.

#[global] Hint Resolve evaluations_performance_now evaluations_sleep evaluations_log_event
  evaluations_get_node evaluations_put_node evaluations_activate evaluations_setAttribute
  evaluations_set_textContent evaluations_getBoundingClientRect
  now_log_event now_get_node now_put_node now_activate now_set_textContent
  now_getBoundingClientRect : keeps.

Lemma evaluations_dispatch_mouse_event el type :
  keeps evaluations (dispatch_mouse_event el type).
Proof. unfold dispatch_mouse_event. repeat keeps_step. Qed.

Lemma now_dispatch_mouse_event el type : keeps now (dispatch_mouse_event el type).
Proof. unfold dispatch_mouse_event. repeat keeps_step. Qed.

#[global] Hint Resolve evaluations_dispatch_mouse_event now_dispatch_mouse_event : keeps.

(** ** Fields at their documented types decode *)

Lemma int_field_typed k d p :
  integer_or_absent k p = true -> is_Some (int_field k d p).
Proof.
  unfold integer_or_absent, int_field.
  destruct (get k p) as [[| | [| |] | | |] |]; intros; try discriminate; eauto.
Qed.

Lemma string_field_typed k p : is_string k p = true -> is_Some (string_field k p).
Proof.
  unfold is_string, string_field.
  destruct (get k p) as [[| | | | |] |]; intros; try discriminate; eauto.
Qed.

Lemma string_field_default_typed k d p :
  string_or_absent k p = true -> is_Some (string_field_default k d p).
Proof.
  unfold string_or_absent, string_field_default.
  destruct (get k p) as [[| | | | |] |]; intros; try discriminate; eauto.
Qed.

Lemma string_field_truthy k p :
  string_or_falsy k p = true -> truthy (get k p) = true -> is_Some (string_field k p).
Proof.
  unfold string_or_falsy, string_field.
  destruct (get k p) as [[| | | | |] |]; intros H1 H2; eauto;
    rewrite H2 in H1; discriminate.
Qed.


(** ** The service worker: the listener always answers *)

(** Whatever the injected function does with its payload, [executeScript]
    settles: on a payload it has to coerce the outcome is the host's. *)
Lemma total_runInPage tabId func payload : total (runInPage tabId func payload).
Proof.
  intros w. unfold runInPage, coerced. repeat case_match; simplify_eq; simpl; discriminate.
Qed.

Lemma sent_runInPage tabId func payload : keeps sent (runInPage tabId func payload).
Proof. intros w. unfold runInPage. repeat case_match; reflexivity. Qed.

Lemma total_resolveTargetTabId preferredId : total (resolveTargetTabId preferredId).
Proof. unfold resolveTargetTabId. repeat total_step. Qed.

Lemma sent_resolveTargetTabId preferredId : keeps sent (resolveTargetTabId preferredId).
Proof. unfold resolveTargetTabId. repeat keeps_step. Qed.

(** Resolution cannot fail: creating a tab is the fallback. *)
Lemma resolveTargetTabId_returns preferredId w :
  exists tabId w', resolveTargetTabId preferredId w = (Done tabId, w').
Proof.
  unfold resolveTargetTabId, getStoredTabId, chrome_tabs_query_active, try_catch,
    chrome_tabs_get, chrome_tabs_create, setStoredTabId, mbind, eff_bind, mret, eff_ret.
  repeat case_match; simplify_eq; eauto.
Qed.

Lemma total_waitForTabLoad_loop fuel tabId timeoutMs k :
  total (waitForTabLoad_loop fuel tabId timeoutMs k).
Proof. revert k. induction fuel; intros; simpl; repeat total_step. Qed.

Lemma sent_waitForTabLoad_loop fuel tabId timeoutMs k :
  keeps sent (waitForTabLoad_loop fuel tabId timeoutMs k).
Proof. revert k. induction fuel; intros; simpl; repeat keeps_step. Qed.

#[global] Hint Resolve total_resolveTargetTabId total_waitForTabLoad_loop : total.
#[global] Hint Resolve sent_runInPage sent_resolveTargetTabId
  sent_waitForTabLoad_loop : keeps.

Lemma total_nav_url api url : total (handlers.nav_url api url).
Proof. unfold handlers.nav_url. repeat total_step. Qed.

Lemma sent_nav_url api url : keeps sent (handlers.nav_url api url).
Proof. unfold handlers.nav_url. repeat keeps_step. Qed.

#[global] Hint Resolve total_nav_url : total.
#[global] Hint Resolve sent_nav_url : keeps.

Lemma total_nav p : total (handlers.nav p).
Proof. unfold handlers.nav, handlers.nav_open, waitForTabLoad. repeat total_step. Qed.

Lemma sent_nav p : keeps sent (handlers.nav p).
Proof. unfold handlers.nav, handlers.nav_open, waitForTabLoad. repeat keeps_step. Qed.

Lemma total_call m payload tabId : total (call m payload tabId).
Proof.
  destruct m as [h | name]; simpl.
  - apply total_bind; [| intros; apply total_ret].
    destruct h; first [apply total_nav | apply total_runInPage].
  - unfold call_inherited. repeat total_step.
Qed.

Lemma sent_call m payload tabId : keeps sent (call m payload tabId).
Proof.
  destruct m as [h | name]; simpl.
  - apply keeps_bind; [| intros; apply keeps_ret].
    destruct h; first [apply sent_nav | apply sent_runInPage].
  - unfold call_inherited. repeat keeps_step.
Qed.

(** [cmd === 'nav'] selects the handler [nav]. *)
Lemma registered_nav cmd :
  is_literal cmd "nav" = true -> handlers_get cmd = Some (Own nav_handler).
Proof.
  destruct cmd as [[| | | s | |] |]; simpl; try discriminate.
  intros H. apply bool_decide_eq_true in H. subst s. reflexivity.
Qed.

(** The listener passes exactly one response to [sendResponse]; it carries
    the [id] of the message and the listener never touches the socket. *)
Lemma onMessage_responds id cmd payload w :
  exists response w',
    onMessage id cmd payload w = (Done response, w')
    /\ get "id" response = Some id
    /\ (exists ok, get "ok" response = Some (JBool ok))
    /\ sent w' = sent w.
Proof.
  unfold onMessage, try_catch.
  destruct (handlers_get cmd) as [m |] eqn:Hget.
  - destruct (resolveTargetTabId_returns (get "tabId" payload) w) as (tabId & w1 & Hres).
    pose proof (sent_resolveTargetTabId (get "tabId" payload) w) as Hs1.
    rewrite Hres in Hs1. simpl in Hs1.
    rewrite (bind_Done _ _ _ _ _ Hres).
    destruct (is_literal cmd "nav") eqn:Hnav.
    + pose proof (total_nav payload w1) as Ht.
      pose proof (sent_nav payload w1) as Hs2.
      unfold mbind, eff_bind.
      destruct (handlers.nav payload w1) as [[res | e |] w2]; simpl in *;
        [| | congruence];
        (eexists _, _; split; [reflexivity |]; split; [reflexivity |];
         split; [eexists; reflexivity | congruence]).
    + pose proof (total_call m payload tabId w1) as Ht.
      pose proof (sent_call m payload tabId w1) as Hs2.
      unfold mbind, eff_bind.
      destruct (call m payload tabId w1) as [[res | e |] w2]; simpl in *;
        [| | congruence];
        (eexists _, _; split; [reflexivity |]; split; [reflexivity |];
         split; [eexists; reflexivity | congruence]).
  - eexists _, _. split; [reflexivity |]. split; [reflexivity |].
    split; [eexists; reflexivity | reflexivity].
Qed.
(** ** What [JSON.stringify] keeps *)

Lemma json_nested_ind (P : json -> Prop) :
  P JNull -> (forall b, P (JBool b)) -> (forall n, P (JNum n)) -> (forall s, P (JStr s)) ->
  (forall items, Forall P items -> P (JArr items)) ->
  (forall fields, Forall (fun kv => P kv.2) fields -> P (JObj fields)) ->
  forall v, P v.
Proof.
  intros Hnull Hbool Hnum Hstr Harr Hobj.
  fix IH 1. intros [| b | n | s | items | fields].
  - exact Hnull.
  - apply Hbool.
  - apply Hnum.
  - apply Hstr.
  - apply Harr. induction items as [| x items IHitems]; constructor;
      [apply IH | exact IHitems].
  - apply Hobj. induction fields as [| [k x] fields IHfields]; constructor;
      [apply IH | exact IHfields].
Qed.

Lemma JSON_stringify_idempotent v : JSON_stringify (JSON_stringify v) = JSON_stringify v.
Proof.
  induction v as [| b | n | s | items IH | fields IH] using json_nested_ind; try reflexivity.
  - destruct n as [z | repr | negative]; reflexivity.
  - simpl. f_equal. induction IH as [| x items Hx _ IHitems]; [reflexivity |].
    simpl. now rewrite Hx, IHitems.
  - simpl. f_equal. induction IH as [| [k x] fields Hx _ IHfields]; [reflexivity |].
    simpl in *. now rewrite Hx, IHfields.
Qed.

Lemma lookup_field_stringify k fields :
  lookup_field k (map (fun '(k, x) => (k, JSON_stringify x)) fields)
  = JSON_stringify <$> lookup_field k fields.
Proof.
  induction fields as [| [k' x] fields IH]; [reflexivity |].
  simpl. case_bool_decide; [reflexivity | exact IH].
Qed.

Lemma get_stringify k v : get k (JSON_stringify v) = JSON_stringify <$> get k v.
Proof.
  destruct v as [| b | [z | repr | negative] | s | items | fields]; try reflexivity.
  apply lookup_field_stringify.
Qed.

(** The values [JSON.stringify] writes as [null]. *)
Lemma JSON_stringify_null v :
  JSON_stringify v = JNull <-> v = JNull \/ exists negative, v = JNum (Infinity negative).
Proof.
  destruct v as [| b | [z | repr | negative] | s | items | fields]; simpl;
    split; intros H; try discriminate; eauto;
    destruct H as [H | [negative' H]]; discriminate.
Qed.

Lemma truthy_stringify v :
  truthy (JSON_stringify <$> v) = false ->
  truthy v = false \/ exists negative, v = Some (JNum (Infinity negative)).
Proof.
  destruct v as [[| b | [z | repr | negative] | s | items | fields] |]; simpl; eauto.
Qed.

Lemma is_literal_stringify v literal :
  is_literal (JSON_stringify <$> v) literal = is_literal v literal.
Proof. destruct v as [[| b | [z | repr | negative] | s | items | fields] |]; reflexivity. Qed.


(** ** The endpoint: one frame per message *)

Lemma error_text_nonempty c s : error_text (c :: s) = c :: s.
Proof. reflexivity. Qed.

(** An unknown command is refused by name, before any tab is resolved. *)
Lemma onMessage_unknown id cmd payload w :
  handlers_get cmd = None ->
  onMessage id cmd payload w =
    (Done (obj [("id", id); ("ok", JBool false);
                ("error", JStr (str "Unknown cmd: " ++ value_to_string cmd)%list)]%string), w).
Proof. intros H. unfold onMessage, try_catch. rewrite H. reflexivity. Qed.

Lemma sent_onMessage id cmd payload : keeps sent (onMessage id cmd payload).
Proof.
  unfold onMessage. apply keeps_try_catch; [| intros; apply keeps_ret].
  destruct (handlers_get cmd); [| apply keeps_throw].
  apply keeps_bind; [apply sent_resolveTargetTabId | intros tabId].
  destruct (is_literal cmd "nav").
  - apply keeps_bind; [apply sent_nav | intros; apply keeps_ret].
  - apply keeps_bind; [apply sent_call | intros; apply keeps_ret].
Qed.

Lemma onMessage_id id cmd payload :
  returns (onMessage id cmd payload) (fun response => get "id" response = Some id).
Proof.
  intros w response w'. unfold onMessage, try_catch.
  destruct (handlers_get cmd) as [m |].
  - unfold mbind, eff_bind.
    destruct (resolveTargetTabId _ w) as [[tabId | e |] w1];
      [| intros [= <- _]; reflexivity | discriminate].
    destruct (is_literal cmd "nav").
    + destruct (handlers.nav payload w1) as [[res | e |] w2];
        [intros [= <- _] | intros [= <- _] | discriminate]; reflexivity.
    + destruct (call m payload tabId w1) as [[res | e |] w2];
        [intros [= <- _] | intros [= <- _] | discriminate]; reflexivity.
  - intros [= <- _]. reflexivity.
Qed.

Lemma choose_id_spec msg w :
  exists w1,
    choose_id msg w = (Done (correlation_id msg w), w1)
    /\ sent w1 = sent w /\ lastError w1 = lastError w.
Proof.
  unfold choose_id, correlation_id.
  destruct (truthy (get "id" msg)); eexists; (split; [reflexivity |]); auto.
Qed.

Lemma correlation_id_not_null msg w : correlation_id msg w <> JNull.
Proof.
  unfold correlation_id. destruct (truthy (get "id" msg)) eqn:E; [| discriminate].
  destruct (get "id" msg) as [[| | | | |] |]; simpl in *; discriminate.
Qed.

(** The body of [ws.onmessage] after the parse, for a message that is not
    [null]. *)
Lemma ws_onmessage_parsed msg :
  msg <> JNull ->
  ws_onmessage (Parsed msg) =
    (id ← choose_id msg;
     if is_literal (get "cmd" msg) "ping" then
       ws_send (obj [("id", id); ("ok", JBool true);
                     ("result", JStr (str "pong"))]%string)
     else chrome_runtime_sendMessage id (get "cmd" msg) msg).
Proof. destruct msg; [congruence | reflexivity ..]. Qed.

(** A message that is not [null] is answered by exactly one frame, under
    what [JSON.stringify] makes of the correlation id. *)
Lemma ws_onmessage_replies msg w :
  answerable msg ->
  exists frame w',
    ws_onmessage (Parsed msg) w = (Done tt, w')
    /\ sent w' = sent w ++ [frame]
    /\ get "id" frame = Some (JSON_stringify (correlation_id msg w))
    /\ (exists ok, get "ok" frame = Some (JBool ok)).
Proof.
  intros Hnull. rewrite (ws_onmessage_parsed _ Hnull).
  destruct (choose_id_spec msg w) as (w1 & Hid & Hsent & Herr).
  rewrite (bind_Done _ _ _ _ _ Hid).
  destruct (is_literal (get "cmd" msg) "ping") eqn:Hping.
  - eexists _, _. split; [reflexivity |]. simpl. rewrite Hsent.
    split; [reflexivity |]. split; [reflexivity |]. eexists; reflexivity.
  - unfold chrome_runtime_sendMessage, read, mbind, eff_bind.
    destruct (lastError w1) as [message |] eqn:Hlast.
    + eexists _, _. split; [reflexivity |]. simpl. rewrite Hsent.
      split; [reflexivity |]. split; [reflexivity |]. eexists; reflexivity.
    + destruct (onMessage_responds (JSON_stringify (correlation_id msg w))
                  (JSON_stringify <$> get "cmd" msg) (JSON_stringify msg) w1)
        as (response & w2 & Hrun & Hrid & [ok Hok] & Hs2).
      rewrite Hrun. eexists _, _. split; [reflexivity |]. simpl. rewrite Hs2, Hsent.
      split; [reflexivity |]. rewrite !get_stringify, Hrid, Hok. simpl.
      rewrite JSON_stringify_idempotent. split; [reflexivity |]. eexists; reflexivity.
Qed.

(** The endpoint writes the listener's response to the socket. *)
Lemma response_forwarded msg w response w' :
  msg <> JNull ->
  is_literal (get "cmd" msg) "ping" = false ->
  lastError w = None ->
  onMessage (JSON_stringify (correlation_id msg w)) (JSON_stringify <$> get "cmd" msg)
    (JSON_stringify msg) (choose_id msg w).2
    = (Done response, w') ->
  ws_onmessage (Parsed msg) w = ws_send response w'.
Proof.
  intros Hnull Hping Hlast Hrun. rewrite (ws_onmessage_parsed _ Hnull).
  destruct (choose_id_spec msg w) as (w1 & Hid & Hsent & Herr).
  rewrite Hid in Hrun. simpl in Hrun.
  rewrite (bind_Done _ _ _ _ _ Hid), Hping.
  unfold chrome_runtime_sendMessage, read, mbind, eff_bind.
  rewrite Herr, Hlast, Hrun. reflexivity.
Qed.

(** The inbound ids that [||] replaces. *)
Lemma falsy_ids :
  truthy None = false /\ truthy (Some JNull) = false
  /\ truthy (Some (JStr [])) = false /\ truthy (Some (JInt 0)) = false.
Proof. repeat split. Qed.

Lemma outbound_one data w frame w' r :
  ws_onmessage data w = (r, w') -> sent w' = sent w ++ [frame] ->
  outbound data w = [frame].
Proof.
  intros Hrun Hsent. unfold outbound. rewrite Hrun. simpl. rewrite Hsent.
  now rewrite drop_app_length.
Qed.

Lemma valid_cmd_answerable msg : valid_cmd msg -> answerable msg.
Proof.
  intros [Hping | (h & Hreg)] ->; [discriminate |].
  vm_compute in Hreg. discriminate.
Qed.

Lemma truthy_get_default k msg :
  truthy (get k msg) = true -> Some (default JNull (get k msg)) = get k msg.
Proof. destruct (get k msg); [reflexivity | discriminate]. Qed.

(** ** Correlation of requests and replies *)

(** C1 (as amended): a parsed envelope whose [cmd] is [ping] or a registered
    handler name produces exactly one outbound envelope, whatever its payload
    and whether the handler returns or throws.  Its [id] is what
    [JSON.stringify] writes for the inbound [id] when that is truthy: the
    inbound [id] itself unless a number in it is not finite, and [null] for
    an [id] such as [1e999].  When the inbound [id] is falsy the reply
    carries the UUID drawn for this message. *)
Theorem correlation_one_reply msg w :
  valid_cmd msg ->
  exists frame,
    outbound (Parsed msg) w = [frame]
    /\ (forall id, get "id" msg = Some id -> truthy (Some id) = true ->
          get "id" frame = Some (JSON_stringify id)
          /\ (JSON_safe id -> get "id" frame = get "id" msg))
    /\ (forall negative, get "id" msg = Some (JNum (Infinity negative)) ->
          get "id" frame = Some JNull)
    /\ (truthy (get "id" msg) = false -> get "id" frame = Some (JStr (fresh_uuid w))).
Proof.
  intros Hvalid.
  destruct (ws_onmessage_replies msg w (valid_cmd_answerable _ Hvalid))
    as (frame & w' & Hrun & Hsent & Hid & _).
  exists frame. split; [eapply outbound_one; eassumption |].
  unfold correlation_id in Hid. split; [| split].
  - intros id Hmsg Ht. rewrite Hmsg, Ht in Hid. simpl in Hid.
    split; [exact Hid |]. intros Hsafe. rewrite Hid, Hmsg. now rewrite Hsafe.
  - intros negative Hmsg. rewrite Hmsg in Hid. exact Hid.
  - intros Ht. rewrite Ht in Hid. exact Hid.
Qed.

Lemma correlation_one_reply_witness :
  exists frame,
    outbound (Parsed Demo.exists_div) Demo.session = [frame]
    /\ get "id" frame = Some (Demo.text "1").
Proof.
  destruct (correlation_one_reply Demo.exists_div Demo.session)
    as (frame & Hout & Hid & _).
  - right. exists exists_handler. reflexivity.
  - exists frame. split; [exact Hout |].
    destruct (Hid (Demo.text "1") eq_refl eq_refl) as [_ Hsame].
    apply Hsame. reflexivity.
Defined.

(** C1 (as stated) fails: an envelope that supplies the id [""] with a valid
    [cmd] is answered under another id. *)
Lemma correlation_id_replaced :
  valid_cmd Demo.ping_with_empty_id
  /\ exists frame,
       outbound (Parsed Demo.ping_with_empty_id) Demo.session = [frame]
       /\ get "id" Demo.ping_with_empty_id = Some (JStr [])
       /\ get "id" frame = Some (Demo.text "00000000-0000-4000-8000-000000000000")
       /\ get "id" frame <> get "id" Demo.ping_with_empty_id.
Proof.
  split; [left; reflexivity |].
  eexists. split; [vm_compute; reflexivity |].
  split; [reflexivity |]. split; [reflexivity |]. discriminate.
Qed.

(** It fails for a truthy id as well: [{"id":1e999,"cmd":"ping"}] carries
    the id [Infinity], and the reply goes out with [id: null]. *)
Lemma infinite_id_answered_null :
  valid_cmd Demo.ping_with_infinite_id
  /\ truthy (get "id" Demo.ping_with_infinite_id) = true
  /\ outbound (Parsed Demo.ping_with_infinite_id) Demo.session
     = [obj [("id", JNull); ("ok", JBool true); ("result", Demo.text "pong")]%string].
Proof. split; [left; reflexivity |]. split; reflexivity. Qed.

Lemma format_uuid_length bits : length (format_uuid bits) = 36%nat.
Proof. reflexivity. Qed.

(** C10: when the inbound [id] is falsy (absent, [null], [""], [0]) the
    reply carries the UUID generated for this message, a 36-character
    string; so for the inbound id [""] the outbound id differs from it. *)
Theorem falsy_id_replaced_by_uuid msg w :
  answerable msg ->
  truthy (get "id" msg) = false ->
  exists frame,
    outbound (Parsed msg) w = [frame]
    /\ get "id" frame = Some (JStr (fresh_uuid w))
    /\ length (fresh_uuid w) = 36%nat
    /\ get "id" frame <> get "id" msg.
Proof.
  intros Hans Hfalsy.
  destruct (ws_onmessage_replies msg w Hans) as (frame & w' & Hrun & Hsent & Hid & _).
  exists frame. split; [eapply outbound_one; eassumption |].
  unfold correlation_id in Hid. rewrite Hfalsy in Hid. simpl in Hid.
  split; [exact Hid |]. split; [apply format_uuid_length |].
  rewrite Hid. intros Heq. rewrite <- Heq in Hfalsy. discriminate.
Qed.

Lemma falsy_id_replaced_by_uuid_witness :
  exists frame,
    outbound (Parsed Demo.get_html_with_empty_id) Demo.session = [frame]
    /\ get "id" frame = Some (JStr (fresh_uuid Demo.session))
    /\ length (fresh_uuid Demo.session) = 36%nat
    /\ get "id" frame <> Some (JStr []).
Proof.
  apply (falsy_id_replaced_by_uuid Demo.get_html_with_empty_id Demo.session).
  - discriminate.
  - reflexivity.
Defined.

Lemma outbound_nothing data w :
  sent (ws_onmessage data w).2 = sent w -> outbound data w = [].
Proof. intros H. unfold outbound. rewrite H. apply drop_all. Qed.

Lemma outbound_null w : outbound (Parsed JNull) w = [].
Proof. apply outbound_nothing. reflexivity. Qed.

(** ** Malformed input and unknown commands *)

(** C8 (as amended): a message that is not valid JSON is answered by exactly
    one frame, [{ id: null, ok: false, error }], and nothing else happens: no
    tab is resolved or touched, no id is drawn.  A message that did parse
    (and is not [null], which is not answered at all) is answered by one
    frame, whether its handler returns or throws; the id of that frame is
    [null] exactly when the inbound id is an infinity, which
    [JSON.stringify] writes as [null]. *)
Theorem invalid_json_reply w :
  outbound SyntaxError w =
    [obj [("id", JNull); ("ok", JBool false);
          ("error", JStr (str "Invalid JSON received"))]%string]
  /\ (let w' := (ws_onmessage SyntaxError w).2 in
      tabs w' = tabs w /\ lastTabId w' = lastTabId w /\ active_tab w' = active_tab w
      /\ next_tab_id w' = next_tab_id w /\ uuids_drawn w' = uuids_drawn w)
  /\ outbound (Parsed JNull) w = []
  /\ forall msg, msg <> JNull ->
       exists frame,
         outbound (Parsed msg) w = [frame]
         /\ (get "id" frame = Some JNull
             <-> exists negative, get "id" msg = Some (JNum (Infinity negative))).
Proof.
  split; [| split; [| split]].
  - unfold outbound. simpl. now rewrite drop_app_length.
  - simpl. auto.
  - apply outbound_null.
  - intros msg Hnull.
    destruct (ws_onmessage_replies msg w Hnull) as (frame & w' & Hrun & Hsent & Hid & _).
    exists frame. split; [eapply outbound_one; eassumption |].
    rewrite Hid. split.
    + intros [= Hwritten]. apply JSON_stringify_null in Hwritten.
      destruct Hwritten as [Hcid | [negative Hcid]].
      * now apply correlation_id_not_null in Hcid.
      * exists negative. unfold correlation_id in Hcid.
        destruct (truthy (get "id" msg)); [| discriminate].
        destruct (get "id" msg); simpl in Hcid; congruence.
    + intros [negative Hmsg]. unfold correlation_id. rewrite Hmsg. reflexivity.
Qed.

(** C8 (as stated) fails in its last part: [{"id":1e999,"cmd":"ping"}] is
    valid JSON, and its reply has [id: null]. *)
Lemma parsed_message_answered_null :
  outbound (Parsed Demo.ping_with_infinite_id) Demo.session
  = [obj [("id", JNull); ("ok", JBool true); ("result", Demo.text "pong")]%string].
Proof. reflexivity. Qed.

(** A command that is neither a handler nor a member of [Object.prototype]
    is refused by name, whatever else the envelope holds. *)
Lemma unknown_cmd_refused msg w :
  msg <> JNull ->
  lastError w = None ->
  is_literal (get "cmd" msg) "ping" = false ->
  handlers_get (JSON_stringify <$> get "cmd" msg) = None ->
  outbound (Parsed msg) w =
    [obj [("id", JSON_stringify (correlation_id msg w)); ("ok", JBool false);
          ("error", JStr (str "Unknown cmd: "
                          ++ value_to_string (JSON_stringify <$> get "cmd" msg))%list)]%string].
Proof.
  intros Hnull Hlast Hping Hget.
  destruct (ws_onmessage (Parsed msg) w) as [r w'] eqn:Hrun.
  pose proof Hrun as Hbody. rewrite (ws_onmessage_parsed _ Hnull) in Hbody.
  destruct (choose_id_spec msg w) as (w1 & Hid & Hsent & Herr).
  rewrite (bind_Done _ _ _ _ _ Hid), Hping in Hbody.
  unfold chrome_runtime_sendMessage, read, mbind, eff_bind in Hbody.
  rewrite Herr, Hlast, onMessage_unknown in Hbody by exact Hget.
  eapply outbound_one; [exact Hrun |]. injection Hbody as _ <-. simpl.
  rewrite Hsent, JSON_stringify_idempotent. reflexivity.
Qed.

(** C7, at the input [{"id":"1","cmd":"toString"}]: [toString] is not a
    registered handler, yet [handlers["toString"]] is truthy (it is
    [Object.prototype.toString]), so the command is dispatched and the reply
    says [ok: true]. *)
Theorem inherited_name_dispatched w :
  lastError w = None ->
  registered (value_to_string (get "cmd" Demo.cmd_toString)) = None
  /\ exists frame,
       outbound (Parsed Demo.cmd_toString) w = [frame]
       /\ get "id" frame = Some (Demo.text "1")
       /\ get "ok" frame = Some (JBool true)
       /\ get "error" frame = None.
Proof.
  intros Hlast. set (msg := Demo.cmd_toString). split; [reflexivity |].
  destruct (ws_onmessage (Parsed msg) w) as [r w'] eqn:Hrun.
  pose proof Hrun as Hbody. rewrite ws_onmessage_parsed in Hbody by discriminate.
  destruct (choose_id_spec msg w) as (w1 & Hid & Hsent & Herr).
  rewrite (bind_Done _ _ _ _ _ Hid) in Hbody.
  change (is_literal (get "cmd" msg) "ping") with false in Hbody.
  unfold chrome_runtime_sendMessage, read, mbind, eff_bind in Hbody.
  rewrite Herr, Hlast in Hbody.
  change (JSON_stringify msg) with msg in Hbody.
  change (JSON_stringify <$> get "cmd" msg) with (get "cmd" msg) in Hbody.
  change (JSON_stringify (correlation_id msg w)) with (Demo.text "1") in Hbody.
  unfold onMessage, try_catch in Hbody.
  change (handlers_get (get "cmd" msg)) with (Some (Inherited (str "toString"))) in Hbody.
  cbv iota beta in Hbody.
  destruct (resolveTargetTabId_returns (get "tabId" msg) w1) as (tabId & w2 & Hres).
  pose proof (sent_resolveTargetTabId (get "tabId" msg) w1) as Hkeep.
  rewrite Hres in Hkeep. simpl in Hkeep.
  rewrite (bind_Done _ _ _ _ _ Hres) in Hbody.
  change (is_literal (get "cmd" msg) "nav") with false in Hbody.
  simpl in Hbody. injection Hbody as _ <-.
  eexists. split.
  - eapply outbound_one; [exact Hrun |]. simpl. rewrite Hkeep, Hsent. reflexivity.
  - repeat split; reflexivity.
Qed.

Lemma inherited_name_dispatched_witness :
  exists frame,
    outbound (Parsed Demo.cmd_toString) Demo.session = [frame]
    /\ get "ok" frame = Some (JBool true).
Proof.
  destruct (inherited_name_dispatched Demo.session) as (_ & frame & Hout & _ & Hok & _).
  - reflexivity.
  - exists frame. split; [exact Hout | exact Hok].
Defined.

(** ** The tab resolver *)

Lemma resolve_preferred preferredId id w :
  as_integer preferredId = Some id -> resolveTargetTabId preferredId w = (Done id, w).
Proof. intros H. unfold resolveTargetTabId. now rewrite H. Qed.

Lemma resolve_remembered preferredId id w :
  as_integer preferredId = None -> usable_remembered w = Some id ->
  resolveTargetTabId preferredId w = (Done id, w).
Proof.
  intros Hpref Hrem. unfold resolveTargetTabId. rewrite Hpref.
  unfold usable_remembered in Hrem.
  destruct (lastTabId w) as [stored |] eqn:Hstored; [| discriminate]. simpl in Hrem.
  destruct (tabs w !! stored) as [tab |] eqn:Htab; [| discriminate]. simpl in Hrem.
  destruct (discarded tab) eqn:Hdisc; [discriminate |]. injection Hrem as ->.
  unfold getStoredTabId, try_catch, chrome_tabs_get, mbind, eff_bind.
  rewrite Hstored, Htab. simpl. now rewrite Hdisc.
Qed.

(** With no usable remembered tab the resolver goes on to the focused tab. *)
Lemma resolve_forgotten preferredId w :
  as_integer preferredId = None -> usable_remembered w = None ->
  resolveTargetTabId preferredId w =
    match active_tab w with
    | Some active =>
        if negb (active =? 0) then (Done active, (setStoredTabId active w).2)
        else (Done (next_tab_id w),
              (setStoredTabId (next_tab_id w)
                 (chrome_tabs_create (str "about:blank") w).2).2)
    | None =>
        (Done (next_tab_id w),
         (setStoredTabId (next_tab_id w) (chrome_tabs_create (str "about:blank") w).2).2)
    end.
Proof.
  intros Hpref Hrem. unfold resolveTargetTabId. rewrite Hpref.
  unfold usable_remembered in Hrem.
  unfold getStoredTabId, try_catch, chrome_tabs_get, chrome_tabs_query_active,
    mbind, eff_bind.
  destruct (lastTabId w) as [stored |] eqn:Hstored; simpl in *.
  - destruct (tabs w !! stored) as [tab |] eqn:Htab; simpl in *.
    + destruct (discarded tab); [| discriminate]. simpl.
      destruct (active_tab w) as [a |] eqn:Ha; simpl; [destruct (a =? 0) |];
        simpl; rewrite ?Ha; reflexivity.
    + destruct (active_tab w) as [a |] eqn:Ha; simpl; [destruct (a =? 0) |];
        simpl; rewrite ?Ha; reflexivity.
  - destruct (active_tab w) as [a |] eqn:Ha; simpl; [destruct (a =? 0) |];
        simpl; rewrite ?Ha; reflexivity.
Qed.

(** C3: the order of tab resolution.  (1) An integer [preferredId] is
    returned as it is; the session is left untouched, so nothing is checked
    and nothing is remembered.  Otherwise (2) the remembered tab is returned
    if it still exists and is not discarded; otherwise (3) the active tab of
    the last focused window is remembered and returned; otherwise (4) a blank
    tab is created, remembered and returned, and the next resolution without
    arguments returns that same tab.  Tab ids are positive in Chrome, which is
    what [active <> 0] stands for. *)
Theorem tab_resolution_order preferredId w :
  (forall id, as_integer preferredId = Some id ->
     resolveTargetTabId preferredId w = (Done id, w))
  /\ (as_integer preferredId = None ->
      (forall id, usable_remembered w = Some id ->
         resolveTargetTabId preferredId w = (Done id, w))
      /\ (usable_remembered w = None ->
          (forall active, active_tab w = Some active -> active <> 0 ->
             exists w',
               resolveTargetTabId preferredId w = (Done active, w')
               /\ lastTabId w' = Some active /\ tabs w' = tabs w)
          /\ (active_tab w = None ->
              exists w',
                resolveTargetTabId preferredId w = (Done (next_tab_id w), w')
                /\ lastTabId w' = Some (next_tab_id w)
                /\ tabs w' = <[next_tab_id w := blank_tab w]> (tabs w)
                /\ resolveTargetTabId None w' = (Done (next_tab_id w), w')))).
Proof.
  split; [intros id; apply resolve_preferred |].
  intros Hpref. split; [intros id; now apply resolve_remembered |].
  intros Hrem. rewrite (resolve_forgotten _ _ Hpref Hrem). split.
  - intros active -> Hpos. apply Z.eqb_neq in Hpos. rewrite Hpos. simpl.
    eexists. split; [reflexivity |]. split; reflexivity.
  - intros ->. eexists. split; [reflexivity |]. split; [reflexivity |].
    split; [reflexivity |].
    apply resolve_remembered; [reflexivity |].
    unfold usable_remembered. simpl. rewrite lookup_insert_eq. reflexivity.
Qed.

Lemma tab_resolution_order_witness :
  resolveTargetTabId (Some (JInt 42)) Demo.session = (Done 42, Demo.session)
  /\ resolveTargetTabId None Demo.session = (Done 7, Demo.session)
  /\ (exists w', resolveTargetTabId None Demo.forgetful_session = (Done 7, w')
                 /\ lastTabId w' = Some 7)
  /\ (exists w', resolveTargetTabId None Demo.empty_session = (Done 1, w')
                 /\ lastTabId w' = Some 1
                 /\ resolveTargetTabId None w' = (Done 1, w')).
Proof.
  split; [| split; [| split]].
  - destruct (tab_resolution_order (Some (JInt 42)) Demo.session) as (H & _).
    exact (H 42 eq_refl).
  - destruct (tab_resolution_order None Demo.session) as (_ & H).
    destruct (H eq_refl) as (H2 & _). exact (H2 7 eq_refl).
  - destruct (tab_resolution_order None Demo.forgetful_session) as (_ & H).
    destruct (H eq_refl) as (_ & H3). destruct (H3 eq_refl) as (Hactive & _).
    destruct (Hactive 7 eq_refl) as (w' & Hrun & Hlast & _); [discriminate |].
    exists w'. split; [exact Hrun | exact Hlast].
  - destruct (tab_resolution_order None Demo.empty_session) as (_ & H).
    destruct (H eq_refl) as (_ & H3). destruct (H3 eq_refl) as (_ & Hcreate).
    destruct (Hcreate eq_refl) as (w' & Hrun & Hlast & _ & Hnext).
    exists w'. split; [exact Hrun |]. split; [exact Hlast | exact Hnext].
Defined.

(** ** Navigation and the remembered tab *)

Lemma lastTabId_tabs_get id : keeps lastTabId (chrome_tabs_get id).
Proof. primitive. Qed.
Lemma lastTabId_set_load_remaining id r : keeps lastTabId (set_load_remaining id r).
Proof. primitive. Qed.

#[global] Hint Resolve lastTabId_tabs_get lastTabId_set_load_remaining : keeps.

Lemma lastTabId_waitForTabLoad_loop fuel tabId timeoutMs k :
  keeps lastTabId (waitForTabLoad_loop fuel tabId timeoutMs k).
Proof. revert k. induction fuel; intros; simpl; repeat keeps_step. Qed.

Lemma nav_finish_remembers url tabId w :
  lastTabId (nav_finish url tabId w).2 = Some tabId
  /\ (forall res, (nav_finish url tabId w).1 = Done res ->
        get "tabId" res = Some (JInt tabId))
  /\ (forall e, (waitForTabLoad tabId 30000 (setStoredTabId tabId w).2).1 = Thrown e ->
        (nav_finish url tabId w).1 = Thrown e).
Proof.
  set (w1 := (setStoredTabId tabId w).2).
  assert (setStoredTabId tabId w = (Done tt, w1)) as Hset by reflexivity.
  pose proof (lastTabId_waitForTabLoad_loop (load_ticks 30000) tabId 30000 0 w1) as Hwait.
  fold (waitForTabLoad tabId 30000) in Hwait.
  unfold nav_finish. rewrite (bind_Done _ _ _ _ _ Hset).
  destruct (waitForTabLoad tabId 30000 w1) as [[[] | e |] w2] eqn:Hrun; simpl in Hwait.
  - rewrite (bind_Done _ _ _ _ _ Hrun). unfold chrome_tabs_get, mbind, eff_bind.
    destruct (tabs w2 !! tabId) as [tab |]; simpl;
      (split; [exact Hwait |]); (split; [| discriminate]).
    + intros res [= <-]. reflexivity.
    + discriminate.
  - rewrite (bind_Thrown _ _ _ _ _ Hrun). simpl.
    split; [exact Hwait |]. split; [discriminate |]. intros e' [= ->]. reflexivity.
  - rewrite (bind_Unmodelled _ _ _ _ Hrun). simpl.
    split; [exact Hwait |]. split; discriminate.
Qed.

Lemma nav_unfold payload :
  handlers.nav payload =
    (tabId ← handlers.nav_open payload; nav_finish (get "url" payload) tabId).
Proof. reflexivity. Qed.

(** C2 (as amended): [nav] remembers its target before it waits.  Once the
    navigation has been issued on a tab, that tab is the remembered tab when
    [nav] ends, whether the load wait succeeds (the result then names the same
    tab) or times out (and [nav] fails with the error of the wait). *)
Theorem nav_remembers_target payload w tabId w1 :
  handlers.nav_open payload w = (Done tabId, w1) ->
  lastTabId (handlers.nav payload w).2 = Some tabId
  /\ (forall res, (handlers.nav payload w).1 = Done res ->
        get "tabId" res = Some (JInt tabId))
  /\ (forall e, (waitForTabLoad tabId 30000 (setStoredTabId tabId w1).2).1 = Thrown e ->
        (handlers.nav payload w).1 = Thrown e).
Proof.
  intros Hopen. rewrite nav_unfold, (bind_Done _ _ _ _ _ Hopen).
  apply nav_finish_remembers.
Qed.

Lemma nav_remembers_target_witness :
  lastTabId Demo.session = Some 7
  /\ lastTabId (handlers.nav Demo.nav_slow_fresh_tab Demo.session).2 = Some 8
  /\ (handlers.nav Demo.nav_slow_fresh_tab Demo.session).1
     = Thrown (str "Timeout waiting for tab to load").
Proof.
  split; [reflexivity |].
  destruct (nav_remembers_target Demo.nav_slow_fresh_tab Demo.session 8
              (handlers.nav_open Demo.nav_slow_fresh_tab Demo.session).2)
    as (Hlast & _ & Htimeout).
  - reflexivity.
  - split; [exact Hlast |]. apply Htimeout. vm_compute. reflexivity.
Defined.

(** C2 (as stated) fails: a [nav] whose load wait times out leaves another
    remembered tab than the one before the command. *)
Lemma nav_timeout_overwrites_remembered_tab :
  (handlers.nav Demo.nav_slow_fresh_tab Demo.session).1
  = Thrown (str "Timeout waiting for tab to load")
  /\ lastTabId Demo.session = Some 7
  /\ lastTabId (handlers.nav Demo.nav_slow_fresh_tab Demo.session).2 = Some 8.
Proof. vm_compute. repeat split; reflexivity. Qed.

(** ** The result object of a page command *)

Lemma lookup_set_field_eq k v fs : lookup_field k (set_field k v fs) = Some v.
Proof.
  induction fs as [| [k' v'] fs IH]; simpl.
  - now rewrite bool_decide_eq_true_2.
  - case_bool_decide as Hk; simpl.
    + now rewrite bool_decide_eq_true_2.
    + rewrite bool_decide_eq_false_2 by exact Hk. exact IH.
Qed.

Lemma lookup_set_field_ne k k' v fs :
  k <> k' -> lookup_field k (set_field k' v fs) = lookup_field k fs.
Proof.
  intros Hne. induction fs as [| [k'' v''] fs IH]; simpl.
  - now rewrite bool_decide_eq_false_2.
  - case_bool_decide as Hk; simpl.
    + subst k''. now rewrite !bool_decide_eq_false_2 by exact Hne.
    + case_bool_decide; [reflexivity | exact IH].
Qed.

Lemma lookup_field_None k fs : lookup_field k fs = None <-> k ∉ fs.*1.
Proof.
  induction fs as [| [k' v'] fs IH]; simpl.
  - split; [intros _; apply not_elem_of_nil | reflexivity].
  - case_bool_decide as Hk.
    + split; [discriminate |]. intros Hnot. exfalso. apply Hnot. subst. left.
    + rewrite IH, not_elem_of_cons. tauto.
Qed.

(** A spread leaves alone the fields it does not name ... *)
Lemma lookup_spread_absent k base fs :
  lookup_field k fs = None ->
  lookup_field k (spread base (Some (JObj fs))) = lookup_field k base.
Proof.
  unfold spread. simpl. revert base.
  induction fs as [| [k' v'] fs IH]; intros base Hnone; simpl in *; [reflexivity |].
  case_bool_decide as Hk; [discriminate |].
  rewrite IH by exact Hnone. now apply lookup_set_field_ne.
Qed.

(** ... and overwrites the ones it does. *)
Lemma lookup_spread_present k v base fs :
  NoDup fs.*1 -> lookup_field k fs = Some v ->
  lookup_field k (spread base (Some (JObj fs))) = Some v.
Proof.
  unfold spread. simpl. revert base.
  induction fs as [| [k' v'] fs IH]; intros base Hnodup Hsome; simpl in *;
    [discriminate |].
  apply NoDup_cons in Hnodup as [Hfresh Hnodup].
  case_bool_decide as Hk.
  - injection Hsome as ->. subst k'.
    apply lookup_field_None in Hfresh.
    pose proof (lookup_spread_absent k (set_field k v base) fs Hfresh) as Habs.
    unfold spread in Habs. simpl in Habs. rewrite Habs. apply lookup_set_field_eq.
  - now apply IH.
Qed.

Lemma returns_runInPage tabId func payload :
  returns (func payload) lacks_tabId ->
  returns (runInPage tabId func payload) lacks_tabId.
Proof.
  intros H w res w'. unfold runInPage, coerced.
  destruct (tabs w !! tabId) as [t |]; [| discriminate].
  destruct (injection_error t); [discriminate |].
  destruct (func payload (page t)) as [[r | e |] p'] eqn:Hrun.
  - intros [= -> _]. eapply H. exact Hrun.
  - discriminate.
  - destruct (ill_typed (host w) func payload (page t)) as [[result | e] p1];
      [| discriminate].
    intros [= <- _]. eexists. split; [reflexivity | apply result_lacks_tabId].
Qed.

Ltac lacks := eexists; split; reflexivity.

Lemma type_into_lacks_tabId el text clear enter :
  returns (Injected.type_into el text clear enter) lacks_tabId.
Proof. unfold Injected.type_into. repeat returns_step. lacks. Qed.

Lemma html_result_lacks_tabId html max_len : lacks_tabId (Injected.html_result html max_len).
Proof. lacks. Qed.

(** No handler injected into the page returns a field named [tabId]. *)
Lemma page_result_lacks_tabId h payload tabId :
  h <> nav_handler ->
  returns (call (Own h) payload tabId)
    (fun res => exists obj, res = Some obj /\ lacks_tabId obj).
Proof.
  intros Hnav. simpl.
  assert (forall m : Eff World json,
            returns m lacks_tabId ->
            returns (res ← m; mret (Some res))
              (fun res => exists obj, res = Some obj /\ lacks_tabId obj)) as Hwrap.
  { intros m Hm w res w'. unfold mbind, eff_bind.
    destruct (m w) as [[r | e |] w1] eqn:Hrun; [| discriminate ..].
    intros [= <- _]. eexists. split; [reflexivity |]. eapply Hm. exact Hrun. }
  apply Hwrap.
  destruct h; [congruence | ..]; apply returns_runInPage.
  - unfold Injected.click. repeat returns_step. lacks.
  - unfold Injected.type. repeat returns_step; apply type_into_lacks_tabId.
  - unfold Injected.set. repeat returns_step; lacks.
  - unfold Injected.exists_. repeat returns_step. lacks.
  - unfold Injected.get_html. repeat returns_step; apply html_result_lacks_tabId.
  - unfold Injected.exec_js. repeat returns_step; lacks.
  - unfold Injected.xpath.
    repeat returns_step;
      first [lacks | apply type_into_lacks_tabId | apply html_result_lacks_tabId].
Qed.

(** C9: when a command other than [nav] (and [ping], which is not relayed)
    succeeds, the success envelope's [result] is [{ tabId, ...res }]: the tab
    the resolver chose, then the handler's own fields.  No page handler
    returns a [tabId], so [result.tabId] is the resolved tab; a handler field
    of that name would replace it.  The endpoint sends this response as it is
    ([response_forwarded]). *)
Theorem result_carries_resolved_tab id cmd payload h w tabId w1 res w2 :
  registered (value_to_string cmd) = Some h ->
  h <> nav_handler ->
  resolveTargetTabId (get "tabId" payload) w = (Done tabId, w1) ->
  call (Own h) payload tabId w1 = (Done (Some res), w2) ->
  let result := spread [(str "tabId", JInt tabId)] (Some res) in
  onMessage id cmd payload w =
    (Done (obj [("id", id); ("ok", JBool true); ("result", JObj result)]%string), w2)
  /\ lookup_field (str "tabId") result = Some (JInt tabId)
  /\ (forall fs v, NoDup fs.*1 -> lookup_field (str "tabId") fs = Some v ->
        lookup_field (str "tabId") (spread [(str "tabId", JInt tabId)] (Some (JObj fs)))
        = Some v).
Proof.
  intros Hreg Hnav Hres Hcall result.
  assert (handlers_get cmd = Some (Own h)) as Hget
    by (unfold handlers_get; now rewrite Hreg).
  assert (is_literal cmd "nav" = false) as Hlit.
  { destruct (is_literal cmd "nav") eqn:E; [| reflexivity].
    apply registered_nav in E. congruence. }
  split; [| split].
  - unfold onMessage, try_catch. rewrite Hget, (bind_Done _ _ _ _ _ Hres), Hlit.
    rewrite (bind_Done _ _ _ _ _ Hcall). reflexivity.
  - destruct (page_result_lacks_tabId h payload tabId Hnav _ _ _ Hcall)
      as (o & [= <-] & fs & -> & Hnone).
    subst result. rewrite lookup_spread_absent by exact Hnone. reflexivity.
  - intros fs v. apply lookup_spread_present.
Qed.

Lemma result_carries_resolved_tab_witness :
  exists result,
    onMessage (Demo.text "1") (get "cmd" Demo.exists_div) Demo.exists_div Demo.session
    = (Done (obj [("id", Demo.text "1"); ("ok", JBool true);
                  ("result", JObj result)]%string),
       (call (Own exists_handler) Demo.exists_div 7 Demo.session).2)
    /\ lookup_field (str "tabId") result = Some (JInt 7)
    /\ lookup_field (str "exists") result = Some (JBool true).
Proof.
  destruct (result_carries_resolved_tab (Demo.text "1") (get "cmd" Demo.exists_div)
              Demo.exists_div exists_handler Demo.session 7 Demo.session
              (obj [("exists", JBool true)]%string)
              (call (Own exists_handler) Demo.exists_div 7 Demo.session).2)
    as (Hrun & Htab & _).
  - reflexivity.
  - discriminate.
  - reflexivity.
  - reflexivity.
  - eexists. split; [exact Hrun |]. split; [exact Htab | reflexivity].
Defined.

(** ** [get_html] *)

Lemma slice0_take s n : 0 <= n -> slice0 s n = take (Z.to_nat n) s.
Proof.
  intros Hn. unfold slice0. rewrite (proj2 (Z.ltb_ge n 0)) by exact Hn.
  destruct (Z_le_gt_dec n (Z.of_nat (length s))).
  - now rewrite Z.min_l.
  - rewrite Z.min_r by lia. rewrite Nat2Z.id, !take_ge by lia. reflexivity.
Qed.

(** C5: with [max_len = N] (a length, so [0 <= N]) markup longer than [N]
    comes back cut to its first [N] code units with [truncated: true], and
    shorter markup comes back whole with [truncated: false]; [length] is the
    length of the whole markup in both cases. *)
Theorem get_html_truncates payload p N markup :
  get "max_len" payload = Some (JInt N) ->
  0 <= N ->
  selected_markup payload p = Some markup ->
  exists out truncated,
    Injected.get_html payload p =
      (Done (obj [("html", JStr out); ("truncated", JBool truncated);
                  ("length", JInt (Z.of_nat (length markup)))]%string), p)
    /\ (N < Z.of_nat (length markup) ->
        Z.of_nat (length out) = N /\ truncated = true
        /\ out = take (Z.to_nat N) markup)
    /\ (Z.of_nat (length markup) <= N -> out = markup /\ truncated = false).
Proof.
  intros Hmax HN Hsel.
  assert (Injected.get_html payload p = (Done (Injected.html_result markup N), p)) as Hrun.
  { unfold Injected.get_html, selected_markup in *.
    unfold int_field. rewrite Hmax. simpl expect.
    destruct (truthy (get "selector" payload)).
    - unfold document_querySelectorAll, get_node, mbind, eff_bind.
      destruct (querySelectorAll p (now p) _) as [[| el rest] | message];
        simplify_eq; reflexivity.
    - simplify_eq. reflexivity. }
  rewrite Hrun. unfold Injected.html_result.
  destruct (Z.of_nat (length markup) >? N) eqn:Hlong.
  - apply Z.gtb_lt in Hlong.
    eexists _, _. split; [reflexivity |]. split; [| lia].
    intros _. rewrite slice0_take by exact HN.
    split; [rewrite length_take; lia | split; reflexivity].
  - rewrite Z.gtb_ltb in Hlong. apply Z.ltb_ge in Hlong.
    eexists _, _. split; [reflexivity |]. split; [lia |]. intros _. split; reflexivity.
Qed.

Lemma get_html_truncates_witness :
  exists out,
    Injected.get_html Demo.get_html_5 Demo.document =
      (Done (obj [("html", JStr out); ("truncated", JBool true);
                  ("length", JInt 29)]%string), Demo.document)
    /\ out = str "<html".
Proof.
  destruct (get_html_truncates Demo.get_html_5 Demo.document 5
              (str "<html><div>hello</div></html>"))
    as (out & truncated & Hrun & Hlong & _).
  - reflexivity.
  - lia.
  - reflexivity.
  - destruct Hlong as (_ & -> & ->); [simpl; lia |].
    exists (str "<html"). split; [exact Hrun | reflexivity].
Defined.

(** ** [type] *)

Lemma concat_code_points s : concat (code_points s) = s.
Proof.
  assert (forall n s, (length s <= n)%nat -> concat (code_points s) = s) as H.
  { induction n as [| n IH]; intros [| c [| d rest]] Hlen; simpl in *;
      try reflexivity; try lia.
    destruct (is_high_surrogate c && is_low_surrogate d); simpl.
    - rewrite IH by lia. reflexivity.
    - f_equal. apply (IH (d :: rest)). simpl. lia. }
  apply (H (length s)). lia.
Qed.

Lemma type_char_spec el ch p :
  exists p',
    Injected.type_char el ch p = (Done tt, p')
    /\ value (node p' el) = (fun v => sanitize (node p el) (v ++ ch)) <$> value (node p el)
    /\ sanitize (node p' el) = sanitize (node p el).
Proof.
  unfold Injected.type_char, log_event, get_node, put_node, sleep, mbind, eff_bind.
  simpl. destruct (value (node p el)) as [v |] eqn:Hv; simpl.
  - eexists. split; [reflexivity |]. simpl. rewrite fn_lookup_insert. split; reflexivity.
  - eexists. split; [reflexivity |]. simpl. rewrite Hv. split; reflexivity.
Qed.

Lemma type_chars_spec el chs p :
  exists p',
    Injected.type_chars el chs p = (Done tt, p')
    /\ value (node p' el)
       = (fun v => typed_value (sanitize (node p el)) v chs) <$> value (node p el)
    /\ sanitize (node p' el) = sanitize (node p el).
Proof.
  revert p. induction chs as [| ch chs IH]; intros p; simpl.
  - eexists. split; [reflexivity |]. destruct (value (node p el)); split; reflexivity.
  - destruct (type_char_spec el ch p) as (p1 & Hrun1 & Hv1 & Hs1).
    destruct (IH p1) as (p2 & Hrun2 & Hv2 & Hs2).
    exists p2. rewrite (bind_Done _ _ _ _ _ Hrun1). split; [exact Hrun2 |].
    rewrite Hv2, Hv1, Hs2, Hs1. destruct (value (node p el)); split; reflexivity.
Qed.

Lemma type_into_spec el text clear enter p :
  exists p',
    Injected.type_into el (Some text) clear enter p =
      (Done (obj [("typed", JBool true);
                  ("length", JInt (Z.of_nat (length text)))]%string), p')
    /\ value (node p' el) =
       (fun old =>
          let setter := sanitize (node p el) in
          typed_value setter (if clear then setter [] else old) (code_points text))
       <$> value (node p el).
Proof.
  unfold Injected.type_into.
  set (p1 := (log_event el Focus p).2).
  rewrite (bind_Done _ _ p tt p1) by reflexivity.
  rewrite (bind_Done _ _ p1 (node p el) p1) by reflexivity.
  set (clearing := if clear then _ else _).
  assert (exists p2, clearing p1 = (Done tt, p2)
                     /\ value (node p2 el) =
                        (fun old => if clear then sanitize (node p el) [] else old)
                        <$> value (node p el)
                     /\ sanitize (node p2 el) = sanitize (node p el))
    as (p2 & Hclear & Hv2 & Hs2).
  { subst clearing. destruct clear.
    - destruct (value (node p el)) eqn:Hv.
      + eexists. split; [reflexivity |]. simpl. rewrite fn_lookup_insert.
        split; reflexivity.
      + eexists. split; [reflexivity |]. simpl. rewrite Hv. split; reflexivity.
    - eexists. split; [reflexivity |]. simpl.
      destruct (value (node p el)); split; reflexivity. }
  rewrite (bind_Done _ _ _ _ _ Hclear). simpl expect.
  rewrite (bind_Done _ _ p2 text p2) by reflexivity.
  destruct (type_chars_spec el (code_points text) p2) as (p3 & Htype & Hv3 & _).
  rewrite (bind_Done _ _ _ _ _ Htype).
  destruct enter; (eexists; split; [reflexivity |]); simpl; rewrite Hv3, Hv2, Hs2;
    destruct (value (node p el)); reflexivity.
Qed.

(** A setter that stores what the loop writes leaves the text typed. *)
Lemma typed_value_stored setter chs : forall v,
  (forall k, setter (v ++ concat (take k chs)) = v ++ concat (take k chs)) ->
  typed_value setter v chs = v ++ concat chs.
Proof.
  induction chs as [| ch chs IH]; intros v Hstores; simpl.
  - now rewrite app_nil_r.
  - pose proof (Hstores 1%nat) as Hfirst. cbn [take concat] in Hfirst.
    rewrite take_0 in Hfirst. cbn [concat] in Hfirst. rewrite app_nil_r in Hfirst.
    rewrite Hfirst, IH, <- app_assoc; [reflexivity |].
    intros k. specialize (Hstores (S k)). cbn [take concat] in Hstores.
    now rewrite !app_assoc in *.
Qed.

(** C6 (as amended): [type] on an element found within the timeout returns
    [{ typed: true, length: n }] with [n] the number of UTF-16 code units of
    the text, [text.length].  If the element has a [value], that value
    afterwards is what its setter makes of the old value (of the empty
    string when [clear] is set) with the code points of the text added one at
    a time; it is the old or empty value followed by the text, and so ends in
    the text, when the setter stores these strings as they are. *)
Theorem type_returns_length payload p index timeout_ms el p1 text :
  int_field "index" 0 payload = Some index ->
  int_field "timeout_ms" 2000 payload = Some timeout_ms ->
  Injected.find (value_to_string (get "selector" payload)) index timeout_ms p
    = (Done (Some el), p1) ->
  string_field "text" payload = Some text ->
  exists p',
    Injected.type payload p =
      (Done (obj [("typed", JBool true);
                  ("length", JInt (Z.of_nat (length text)))]%string), p')
    /\ forall old, value (node p1 el) = Some old ->
         let setter := sanitize (node p1 el) in
         let clear := flag_field "clear" true payload in
         value (node p' el)
         = Some (typed_value setter (if clear then setter [] else old) (code_points text))
         /\ (stores_typing setter (if clear then [] else old) text ->
             value (node p' el) = Some ((if clear then [] else old) ++ text)).
Proof.
  intros Hindex Htimeout Hfind Htext. unfold Injected.type.
  rewrite Hindex, Htimeout, Htext. simpl expect.
  rewrite (bind_Done _ _ p index p) by reflexivity.
  rewrite (bind_Done _ _ p timeout_ms p) by reflexivity.
  rewrite (bind_Done _ _ _ _ _ Hfind).
  destruct (type_into_spec el text (flag_field "clear" true payload)
              (flag_field "enter" false payload) p1) as (p' & Hrun & Hvalue).
  exists p'. split; [exact Hrun |]. intros old Hold. cbv zeta.
  rewrite Hvalue, Hold. cbn [fmap option_fmap option_map].
  set (setter := sanitize (node p1 el)). set (clear := flag_field "clear" true payload).
  split; [reflexivity |].
  intros Hstores. f_equal.
  assert ((if clear then setter [] else old) = (if clear then [] else old)) as ->.
  { destruct clear; [| reflexivity]. specialize (Hstores 0%nat). now rewrite take_0 in Hstores. }
  rewrite (typed_value_stored setter (code_points text) _ Hstores).
  now rewrite concat_code_points.
Qed.

Lemma type_returns_length_witness :
  exists p',
    Injected.type Demo.type_abc Demo.document =
      (Done (obj [("typed", JBool true); ("length", JInt 3)]%string), p')
    /\ value (node p' 0%nat) = Some (str "abc").
Proof.
  destruct (type_returns_length Demo.type_abc Demo.document 0 2000 0%nat
              (Injected.find (str "#q") 0 2000 Demo.document).2 (str "abc"))
    as (p' & Hrun & Hvalue).
  - reflexivity.
  - reflexivity.
  - vm_compute. reflexivity.
  - reflexivity.
  - exists p'. split; [exact Hrun |].
    destruct (Hvalue (str "old") eq_refl) as [_ Hkept]. apply Hkept.
    intros k. do 4 (destruct k as [| k]; [reflexivity |]). reflexivity.
Defined.

(** C6 (as stated) fails in its second part: an [<input>] drops line breaks
    from what is written to its value, so after typing [a], a line feed and
    [b] with [clear] its value is [ab], which does not end in the text. *)
Lemma typed_line_break_is_dropped :
  exists p',
    Injected.type Demo.type_line_break Demo.document =
      (Done (obj [("typed", JBool true); ("length", JInt 3)]%string), p')
    /\ flag_field "clear" true Demo.type_line_break = true
    /\ value (node p' 0%nat) = Some (str "ab")
    /\ ~ exists before, str "ab" = before ++ [97; 10; 98]%N.
Proof.
  eexists. split; [vm_compute; reflexivity |]. split; [reflexivity |].
  split; [reflexivity |]. intros [before Hends].
  apply (f_equal length) in Hends. rewrite length_app in Hends. simpl in Hends. lia.
Qed.

(** [for (const ch of text)] walks code points while [text.length] counts
    code units: a character outside the Basic Multilingual Plane is one
    keystroke of two units. *)
Example type_surrogate_pair :
  let payload := obj [("selector", Demo.text "div");
                      ("text", JStr [55357; 56832]%N)]%string in
  Injected.type payload Demo.document
  = (Done (obj [("typed", JBool true); ("length", JInt 2)]%string),
     (Injected.type payload Demo.document).2)
  /\ events (Injected.type payload Demo.document).2
     = [(1%nat, Focus);
        (1%nat, KeyboardEvent (str "keydown") [55357; 56832]%N);
        (1%nat, InputEvent [55357; 56832]%N);
        (1%nat, KeyboardEvent (str "keypress") [55357; 56832]%N);
        (1%nat, KeyboardEvent (str "keyup") [55357; 56832]%N);
        (1%nat, ChangeEvent)].
Proof. vm_compute. split; reflexivity. Qed.

(** ** [xpath]: who polls and who does not *)

Lemma bind_keeps {S A B T} (proj : S -> T) (m : Eff S A) (f : A -> Eff S B) s :
  (forall a, keeps proj (f a)) -> proj ((m ≫= f) s).2 = proj (m s).2.
Proof.
  intros Hf. unfold mbind, eff_bind.
  destruct (m s) as [[a | e |] s']; simpl; [apply Hf | reflexivity ..].
Qed.

Lemma evaluations_dispatch_mouse el types :
  keeps evaluations (Injected.dispatch_mouse el types).
Proof. induction types; simpl; repeat keeps_step. Qed.

Lemma evaluations_type_chars el chs : keeps evaluations (Injected.type_chars el chs).
Proof. induction chs; simpl; unfold Injected.type_char; repeat keeps_step. Qed.

#[global] Hint Resolve evaluations_dispatch_mouse evaluations_type_chars : keeps.

Lemma evaluations_type_into el text clear enter :
  keeps evaluations (Injected.type_into el text clear enter).
Proof. unfold Injected.type_into. repeat keeps_step. Qed.

Lemma evaluations_ensureElement n : keeps evaluations (Injected.ensureElement n).
Proof. unfold Injected.ensureElement. repeat keeps_step. Qed.

Lemma evaluations_summarize_all payload ns :
  keeps evaluations (Injected.summarize_all payload ns).
Proof.
  induction ns; simpl; unfold Injected.summarizeNode; repeat keeps_step.
Qed.

Lemma now_summarize_all payload ns : keeps now (Injected.summarize_all payload ns).
Proof.
  induction ns; simpl; unfold Injected.summarizeNode; repeat keeps_step.
Qed.

#[global] Hint Resolve evaluations_type_into evaluations_ensureElement
  evaluations_summarize_all now_summarize_all : keeps.

Lemma sample_times_S start n :
  sample_times start (S n) = start :: sample_times (start + 100) n.
Proof.
  unfold sample_times. simpl. f_equal; [lia |].
  rewrite <- seq_shift, map_map. apply map_ext. intros k. lia.
Qed.

Lemma waitForIndex_loop_spec expr idx timeout start fuel : forall p,
  valid_xpath p expr ->
  timeout <= now p - start + 100 * Z.of_nat fuel ->
  exists n snap p',
    Injected.waitForIndex_loop fuel expr idx timeout start p = (Done snap, p')
    /\ evaluate p (now p + 100 * Z.of_nat n) expr = inl snap
    /\ evaluations p' = evaluations p ++ sample_times (now p) (S n)
    /\ now p' = now p + 100 * Z.of_nat n
    /\ (forall k, (k < n)%nat ->
          now p + 100 * Z.of_nat k - start < timeout
          /\ short p expr idx (now p + 100 * Z.of_nat k))
    /\ (idx < Z.of_nat (length snap) \/ timeout <= now p + 100 * Z.of_nat n - start).
Proof.
  assert (forall p, valid_xpath p expr ->
            exists snap, Injected.evalSnapshot expr p =
              (Done snap,
               {| now := now p; node := node p;
                  querySelectorAll := querySelectorAll p; evaluate := evaluate p;
                  documentElement := documentElement p;
                  run_script := run_script p; dom := dom p; events := events p;
                  evaluations := evaluations p ++ [now p] |})
              /\ evaluate p (now p) expr = inl snap) as Heval.
  { intros p Hvalid. destruct (Hvalid (now p)) as (snap & Hsnap).
    exists snap. unfold Injected.evalSnapshot. rewrite Hsnap. split; reflexivity. }
  assert (forall p snap,
            evaluate p (now p) expr = inl snap ->
            Injected.evalSnapshot expr p = (Done snap, (Injected.evalSnapshot expr p).2) ->
            (idx < Z.of_nat (length snap) \/ timeout <= now p - start) ->
            exists n snap' p',
              Injected.evalSnapshot expr p = (Done snap', p')
              /\ evaluate p (now p + 100 * Z.of_nat n) expr = inl snap'
              /\ evaluations p' = evaluations p ++ sample_times (now p) (S n)
              /\ now p' = now p + 100 * Z.of_nat n
              /\ (forall k, (k < n)%nat ->
                    now p + 100 * Z.of_nat k - start < timeout
                    /\ short p expr idx (now p + 100 * Z.of_nat k))
              /\ (idx < Z.of_nat (length snap')
                  \/ timeout <= now p + 100 * Z.of_nat n - start)) as Hstop.
  { intros p snap Hsnap Hrun Hend. exists 0%nat, snap, (Injected.evalSnapshot expr p).2.
    split; [exact Hrun |]. rewrite Z.mul_0_r, Z.add_0_r.
    split; [exact Hsnap |]. unfold Injected.evalSnapshot. rewrite Hsnap.
    rewrite sample_times_S. split; [reflexivity |]. split; [reflexivity |].
    split; [intros k Hk; lia | exact Hend]. }
  induction fuel as [| fuel IH]; intros p Hvalid Hfuel.
  - destruct (Heval p Hvalid) as (snap & Hrun & Hsnap). simpl.
    apply (Hstop p snap Hsnap); [now rewrite Hrun | right; lia].
  - destruct (Heval p Hvalid) as (snap & Hrun & Hsnap). simpl.
    rewrite (bind_Done _ _ p (now p) p) by reflexivity.
    destruct (now p - start <? timeout) eqn:Hin.
    + apply Z.ltb_lt in Hin. rewrite (bind_Done _ _ _ _ _ Hrun).
      destruct (Z.of_nat (length snap) >? idx) eqn:Hlong.
      * apply Z.gtb_lt in Hlong. exists 0%nat, snap. eexists.
        split; [reflexivity |]. rewrite Z.mul_0_r, Z.add_0_r.
        split; [exact Hsnap |]. rewrite sample_times_S.
        split; [reflexivity |]. split; [reflexivity |].
        split; [intros k Hk; lia | now left].
      * rewrite Z.gtb_ltb in Hlong. apply Z.ltb_ge in Hlong.
        match goal with
        | |- context [(sleep 100 ≫= _) ?q] =>
            rewrite (bind_Done _ _ q tt (sleep 100 q).2) by reflexivity;
            destruct (IH (sleep 100 q).2) as (n & snap' & p' & Hloop & Hat & Hlog & Hnow & Hbefore & Hend)
        end.
        { exact Hvalid. }
        { simpl. lia. }
        simpl in Hat, Hlog, Hnow, Hbefore, Hend.
        exists (Datatypes.S n), snap', p'. split; [exact Hloop |].
        replace (now p + 100 * Z.of_nat (Datatypes.S n))
          with (now p + 100 + 100 * Z.of_nat n) by lia.
        split; [exact Hat |].
        split; [rewrite Hlog, <- app_assoc, (sample_times_S (now p) (Datatypes.S n));
                reflexivity |].
        split; [exact Hnow |]. split; [| exact Hend].
        intros [| k] Hk.
        -- rewrite Z.mul_0_r, Z.add_0_r. split; [exact Hin |].
           exists snap. split; [exact Hsnap | exact Hlong].
        -- replace (now p + 100 * Z.of_nat (Datatypes.S k))
             with (now p + 100 + 100 * Z.of_nat k) by lia.
           apply Hbefore. lia.
    + apply Z.ltb_ge in Hin.
      apply (Hstop p snap Hsnap); [now rewrite Hrun | right; lia].
Qed.

Lemma waitForIndex_spec expr idx timeout p :
  valid_xpath p expr ->
  exists n snap p',
    Injected.waitForIndex expr idx timeout p = (Done snap, p')
    /\ evaluate p (now p + 100 * Z.of_nat n) expr = inl snap
    /\ evaluations p' = evaluations p ++ sample_times (now p) (S n)
    /\ (forall k, (k < n)%nat ->
          100 * Z.of_nat k < timeout /\ short p expr idx (now p + 100 * Z.of_nat k))
    /\ (idx < Z.of_nat (length snap) \/ timeout <= 100 * Z.of_nat n).
Proof.
  intros Hvalid. unfold Injected.waitForIndex.
  rewrite (bind_Done _ _ p (now p) p) by reflexivity.
  destruct (waitForIndex_loop_spec expr idx timeout (now p) (Injected.poll_rounds timeout)
              p Hvalid) as (n & snap & p' & Hrun & Hat & Hlog & _ & Hbefore & Hend).
  { unfold Injected.poll_rounds. destruct (Z_le_gt_dec timeout 0); [lia |].
    rewrite Z2Nat.id by (apply Z.div_pos; lia).
    pose proof (Z.div_mod (timeout + 99) 100 ltac:(lia)).
    pose proof (Z.mod_pos_bound (timeout + 99) 100 ltac:(lia)). lia. }
  exists n, snap, p'. split; [exact Hrun |]. split; [exact Hat |]. split; [exact Hlog |].
  split.
  - intros k Hk. destruct (Hbefore k Hk) as [Hlt Hshort]. split; [lia | exact Hshort].
  - destruct Hend; [now left | right; lia].
Qed.

Lemma needsIndex_indexed a : indexed_action a -> Injected.needsIndex a = true.
Proof. intros [-> | [-> | [-> | [-> | [-> | ->]]]]]; reflexivity. Qed.

Lemma needsIndex_immediate a : immediate_action a -> Injected.needsIndex a = false.
Proof. intros [-> | [-> | ->]]; reflexivity. Qed.

Lemma has_int_field k dflt payload z :
  has_int k dflt payload z -> int_field k dflt payload = Some z.
Proof. unfold int_field. intros [-> | [-> ->]]; reflexivity. Qed.

Lemma action_of_immediate payload name :
  names_action payload name -> name ∈ immediate_names ->
  immediate_action (Injected.action_of payload).
Proof.
  unfold Injected.action_of, immediate_action, immediate_names.
  intros [-> | [-> ->]] Hname; [| now left].
  repeat (apply elem_of_cons in Hname as [-> | Hname]; [vm_compute; tauto |]).
  now apply elem_of_nil in Hname.
Qed.

Lemma action_of_indexed payload name :
  names_action payload name -> name ∈ indexed_names ->
  indexed_action (Injected.action_of payload).
Proof.
  unfold Injected.action_of, indexed_action, indexed_names.
  intros [-> | [_ ->]] Hname.
  - repeat (apply elem_of_cons in Hname as [-> | Hname]; [vm_compute; tauto |]).
    now apply elem_of_nil in Hname.
  - repeat (apply elem_of_cons in Hname as [Hname | Hname]; [discriminate |]).
    now apply elem_of_nil in Hname.
Qed.

(** C4: for [xpath] with an expression, the actions [list] (also by
    default), [exists] and [count] evaluate the snapshot exactly once, at
    once, and never sleep, so [count] on an expression matching nothing
    returns [{ count: 0 }] immediately; the actions [click], [getAttribute],
    [getHTML], [getText], [setValue] and [type] evaluate it every 100ms, from
    the start, until a snapshot holds more than [index] nodes or [timeout_ms]
    has elapsed, and do not evaluate it again afterwards. *)
Theorem xpath_polling payload p expr name :
  get "expr" payload = Some (JStr expr) ->
  expr <> [] ->
  names_action payload name ->
  (name ∈ immediate_names ->
     evaluations (Injected.xpath payload p).2 = evaluations p ++ [now p]
     /\ now (Injected.xpath payload p).2 = now p)
  /\ (name = "count"%string ->
      evaluate p (now p) expr = inl [] ->
      Injected.xpath payload p = (Done (obj [("count", JInt 0)]%string), evaluated_once p))
  /\ (name ∈ indexed_names ->
      forall index timeout_ms,
        has_int "index" 0 payload index ->
        has_int "timeout_ms" 2000 payload timeout_ms ->
        valid_xpath p expr ->
        exists n snap,
          evaluations (Injected.xpath payload p).2
            = evaluations p ++ sample_times (now p) (S n)
          /\ (forall k, (k < n)%nat ->
                100 * Z.of_nat k < timeout_ms
                /\ short p expr index (now p + 100 * Z.of_nat k))
          /\ evaluate p (now p + 100 * Z.of_nat n) expr = inl snap
          /\ (index < Z.of_nat (length snap) \/ timeout_ms <= 100 * Z.of_nat n)).
Proof.
  intros Hexpr Hne Hname.
  assert (bool_decide (expr = []) = false) as Hdec by now apply bool_decide_eq_false_2.
  split; [| split].
  - intros Hin. pose proof (action_of_immediate _ _ Hname Hin) as Himm.
    unfold Injected.xpath. rewrite Hexpr, Hdec.
    rewrite (needsIndex_immediate _ Himm).
    assert (evaluations (Injected.evalSnapshot expr p).2 = evaluations p ++ [now p]
            /\ now (Injected.evalSnapshot expr p).2 = now p) as [Hlog Hnow].
    { unfold Injected.evalSnapshot. destruct (evaluate p (now p) expr); split; reflexivity. }
    split.
    + rewrite bind_keeps; [exact Hlog |].
      intros snap. destruct Himm as [-> | [-> | ->]]; repeat keeps_step.
    + rewrite bind_keeps; [exact Hnow |].
      intros snap. destruct Himm as [-> | [-> | ->]]; repeat keeps_step.
  - intros -> Hnone.
    assert (Injected.action_of payload = Injected.count) as Hcount.
    { unfold Injected.action_of. destruct Hname as [-> | [_ [=]]]. reflexivity. }
    unfold Injected.xpath. rewrite Hexpr, Hdec, Hcount. simpl.
    unfold Injected.evalSnapshot, mbind, eff_bind. rewrite Hnone. reflexivity.
  - intros Hin index timeout_ms Hindex Htimeout Hvalid.
    pose proof (action_of_indexed _ _ Hname Hin) as Hidx.
    apply has_int_field in Hindex, Htimeout.
    destruct (waitForIndex_spec expr index timeout_ms p Hvalid)
      as (n & snap & p' & Hrun & Hat & Hlog & Hbefore & Hend).
    exists n, snap. split; [| split; [exact Hbefore | split; [exact Hat | exact Hend]]].
    unfold Injected.xpath. rewrite Hexpr, Hdec, (needsIndex_indexed _ Hidx).
    rewrite Hindex, Htimeout. simpl expect.
    rewrite bind_keeps.
    + rewrite (bind_Done _ _ p index p) by reflexivity.
      rewrite (bind_Done _ _ p timeout_ms p) by reflexivity.
      rewrite Hrun. exact Hlog.
    + intros snap'.
      destruct Hidx as [-> | [-> | [-> | [-> | [-> | ->]]]]]; repeat keeps_step.
Qed.

Lemma xpath_polling_witness :
  Injected.xpath Demo.count_none Demo.document
  = (Done (obj [("count", JInt 0)]%string), evaluated_once Demo.document)
  /\ evaluations (Injected.xpath Demo.getText_input Demo.document).2 = [0; 100; 200; 300].
Proof.
  destruct (xpath_polling Demo.count_none Demo.document (str "//none") "count")
    as (_ & Hzero & _); [reflexivity | discriminate | left; reflexivity |].
  destruct (xpath_polling Demo.getText_input Demo.document (str "//input") "getText")
    as (_ & _ & Hpoll); [reflexivity | discriminate | left; reflexivity |].
  split; [apply Hzero; reflexivity |].
  destruct (Hpoll ltac:(unfold indexed_names; set_solver) 0 2000)
    as (n & snap & Hlog & Hbefore & Hat & Hend).
  - right. split; reflexivity.
  - right. split; reflexivity.
  - intros t. simpl. repeat case_bool_decide; try discriminate.
    destruct (250 <=? t); eauto.
  - assert (n = 3%nat) as ->; [| exact Hlog].
    assert (n <= 3)%nat as Hle.
    { destruct (le_lt_dec n 3) as [H | H]; [exact H |].
      destruct (Hbefore 3%nat H) as (_ & snap' & Hsnap' & Hshort).
      vm_compute in Hsnap'. injection Hsnap' as <-. simpl in Hshort. lia. }
    simpl in Hat.
    destruct (Z.leb_spec 250 (0 + 100 * Z.of_nat n)) as [Hlate | Hearly]; [lia |].
    injection Hat as <-. simpl in Hend. lia.
Defined.

(** ** The loops are given enough rounds

    Each wait loop is written with a bound on its rounds.  With the bound the
    callers pass, the loop always ends by its own test: more rounds change
    nothing. *)

Lemma find_loop_enough sel idx timeout start fuel extra : forall p,
  timeout <= now p - start + 100 * Z.of_nat fuel ->
  Injected.find_loop (fuel + extra) sel idx timeout start p
  = Injected.find_loop fuel sel idx timeout start p.
Proof.
  induction fuel as [| fuel IH]; intros p Hfuel.
  - destruct extra as [| extra]; [reflexivity |]. simpl.
    rewrite (bind_Done _ _ p (now p) p) by reflexivity.
    rewrite (proj2 (Z.ltb_ge _ _)) by lia. reflexivity.
  - simpl. rewrite !(bind_Done _ _ p (now p) p) by reflexivity.
    destruct (now p - start <? timeout); [| reflexivity].
    unfold mbind at 1 3, eff_bind at 1 3.
    destruct (document_querySelectorAll sel p) as [[list | e |] p1] eqn:Hq;
      [| reflexivity ..].
    assert (p1 = p) as ->.
    { unfold document_querySelectorAll in Hq.
      destruct (querySelectorAll p (now p) sel); congruence. }
    destruct (Z.of_nat (length list) >? idx); [reflexivity |].
    rewrite !(bind_Done _ _ p tt (sleep 100 p).2) by reflexivity.
    apply IH. simpl. lia.
Qed.

Lemma poll_rounds_enough timeout : timeout <= 100 * Z.of_nat (Injected.poll_rounds timeout).
Proof.
  unfold Injected.poll_rounds. destruct (Z_le_gt_dec timeout 0); [lia |].
  rewrite Z2Nat.id by (apply Z.div_pos; lia).
  pose proof (Z.div_mod (timeout + 99) 100 ltac:(lia)).
  pose proof (Z.mod_pos_bound (timeout + 99) 100 ltac:(lia)). lia.
Qed.

(** [find] does not depend on the bound of its loop. *)
Lemma find_enough sel idx timeout extra p :
  Injected.find_loop (Injected.poll_rounds timeout + extra) sel idx timeout (now p) p
  = (Injected.find sel idx timeout p).
Proof.
  unfold Injected.find. rewrite (bind_Done _ _ p (now p) p) by reflexivity.
  apply find_loop_enough. pose proof (poll_rounds_enough timeout). lia.
Qed.

Lemma tick_time_least w k : 250 * Z.of_nat k <= tick_time w k.
Proof. unfold tick_time. lia. Qed.

Lemma waitForTabLoad_loop_enough tabId timeoutMs fuel extra : forall k w,
  timeoutMs < 250 * Z.of_nat (k + fuel) ->
  (0 < fuel)%nat ->
  waitForTabLoad_loop (fuel + extra) tabId timeoutMs k w
  = waitForTabLoad_loop fuel tabId timeoutMs k w.
Proof.
  induction fuel as [| fuel IH]; intros k w Hfuel Hpos; [lia |].
  pose proof (tick_time_least w (S k)) as Hleast.
  cbn [waitForTabLoad_loop Nat.add]. rewrite !(bind_Done _ _ w w w) by reflexivity.
  destruct (tabs w !! tabId ≫= load_remaining) as [r |].
  - destruct ((0 <? r) && (r <=? tick_time w (S k))); [reflexivity |].
    destruct (tick_time w (S k) >? timeoutMs) eqn:Hlate; [reflexivity |].
    destruct (r <=? tick_time w (S k)); [reflexivity |].
    rewrite Z.gtb_ltb in Hlate. apply Z.ltb_ge in Hlate. apply IH; lia.
  - destruct (tick_time w (S k) >? timeoutMs) eqn:Hlate; [reflexivity |].
    rewrite Z.gtb_ltb in Hlate. apply Z.ltb_ge in Hlate. apply IH; lia.
Qed.

(** [waitForTabLoad] does not depend on the bound of its loop: it ends by a
    completed load or by the timeout test of a tick, and no tick is early. *)
Lemma waitForTabLoad_enough tabId timeoutMs extra w :
  waitForTabLoad_loop (load_ticks timeoutMs + extra) tabId timeoutMs 0 w
  = waitForTabLoad tabId timeoutMs w.
Proof.
  unfold waitForTabLoad. apply waitForTabLoad_loop_enough.
  - unfold load_ticks. rewrite Nat.add_0_l.
    rewrite Z2Nat.id by (pose proof (Z.div_pos (Z.max 0 timeoutMs) 250); lia).
    pose proof (Z.div_mod (Z.max 0 timeoutMs) 250 ltac:(lia)).
    pose proof (Z.mod_pos_bound (Z.max 0 timeoutMs) 250 ltac:(lia)). lia.
  - unfold load_ticks.
    pose proof (Z.div_pos (Z.max 0 timeoutMs) 250 ltac:(lia) ltac:(lia)). lia.
Qed.

(** The bound of [waitForIndex] is never what ends it either: see
    [waitForIndex_loop_spec], whose last sample either reaches the index or
    comes after the timeout. *)
Lemma waitForIndex_loop_enough expr idx timeout start fuel extra : forall p,
  timeout <= now p - start + 100 * Z.of_nat fuel ->
  Injected.waitForIndex_loop (fuel + extra) expr idx timeout start p
  = Injected.waitForIndex_loop fuel expr idx timeout start p.
Proof.
  induction fuel as [| fuel IH]; intros p Hfuel.
  - destruct extra as [| extra]; [reflexivity |]. simpl.
    rewrite (bind_Done _ _ p (now p) p) by reflexivity.
    rewrite (proj2 (Z.ltb_ge _ _)) by lia. reflexivity.
  - simpl. rewrite !(bind_Done _ _ p (now p) p) by reflexivity.
    destruct (now p - start <? timeout); [| reflexivity].
    unfold mbind at 1 3, eff_bind at 1 3.
    destruct (Injected.evalSnapshot expr p) as [[snap | e |] p1] eqn:Hq;
      [| reflexivity ..].
    assert (now p1 = now p) as Hnow.
    { unfold Injected.evalSnapshot in Hq.
      destruct (evaluate p (now p) expr); simplify_eq; reflexivity. }
    destruct (Z.of_nat (length snap) >? idx); [reflexivity |].
    rewrite !(bind_Done _ _ p1 tt (sleep 100 p1).2) by reflexivity.
    apply IH. simpl. lia.
Qed.

(** ** The scenarios of the specification, run on the demo session *)

Example scenario_nav :
  outbound (Parsed (obj [("id", Demo.text "1"); ("cmd", Demo.text "nav");
                         ("url", Demo.text "https://example.org")]%string))
    Demo.session
  = [obj [("id", Demo.text "1"); ("ok", JBool true);
          ("result", obj [("tabId", JInt 7); ("url", Demo.text "https://example.org");
                          ("ok", JBool true)])]%string].
Proof. vm_compute. reflexivity. Qed.

Example scenario_click_missing :
  outbound (Parsed (obj [("id", Demo.text "2"); ("cmd", Demo.text "click");
                         ("selector", Demo.text "#missing");
                         ("timeout_ms", JInt 100)]%string))
    Demo.session
  = [obj [("id", Demo.text "2"); ("ok", JBool false);
          ("error", Demo.text "Element not found: #missing[0]")]%string].
Proof. vm_compute. reflexivity. Qed.

Example scenario_exists_nothing :
  outbound (Parsed (obj [("id", Demo.text "3"); ("cmd", Demo.text "exists");
                         ("selector", Demo.text "footer")]%string))
    Demo.session
  = [obj [("id", Demo.text "3"); ("ok", JBool true);
          ("result", obj [("tabId", JInt 7); ("exists", JBool false)])]%string].
Proof. vm_compute. reflexivity. Qed.

Example scenario_ping :
  outbound (Parsed (obj [("id", Demo.text "4"); ("cmd", Demo.text "ping")]%string))
    Demo.session
  = [obj [("id", Demo.text "4"); ("ok", JBool true);
          ("result", Demo.text "pong")]%string].
Proof. vm_compute. reflexivity. Qed.

Example scenario_unknown_cmd :
  outbound (Parsed (obj [("id", Demo.text "5"); ("cmd", Demo.text "reload")]%string))
    Demo.session
  = [obj [("id", Demo.text "5"); ("ok", JBool false);
          ("error", Demo.text "Unknown cmd: reload")]%string].
Proof. vm_compute. reflexivity. Qed.

(** [JSON.parse("null")] succeeds, but reading [msg.id] throws: no reply. *)
Example scenario_null :
  outbound (Parsed JNull) Demo.session = [].
Proof. vm_compute. reflexivity. Qed.

(** A field the handler has to coerce: the command is answered all the same,
    here by a runtime that refuses. *)
Example scenario_ill_typed :
  outbound (Parsed (obj [("id", Demo.text "6"); ("cmd", Demo.text "click");
                         ("selector", Demo.text "div");
                         ("index", Demo.text "0")]%string))
    Demo.session
  = [obj [("id", Demo.text "6"); ("ok", JBool false);
          ("error", Demo.text "TypeError")]%string].
Proof. vm_compute. reflexivity. Qed.

(** [handlers.constructor] is [Object]: the payload comes back as the result. *)
Example scenario_constructor :
  outbound (Parsed (obj [("id", Demo.text "7"); ("cmd", Demo.text "constructor")]%string))
    Demo.session
  = [obj [("id", Demo.text "7"); ("ok", JBool true);
          ("result", obj [("tabId", JInt 7); ("id", Demo.text "7");
                          ("cmd", Demo.text "constructor")])]%string].
Proof. vm_compute. reflexivity. Qed.

(** [handlers.__proto__] is an object, not a function. *)
Example scenario_proto :
  outbound (Parsed (obj [("id", Demo.text "8"); ("cmd", Demo.text "__proto__")]%string))
    Demo.session
  = [obj [("id", Demo.text "8"); ("ok", JBool false);
          ("error", Demo.text "TypeError")]%string].
Proof. vm_compute. reflexivity. Qed.

(** Numbers are printed as [String(..)] prints them. *)
Example large_integers :
  integer_to_string (2 ^ 53) = str "9007199254740992"
  /\ integer_to_string (2 ^ 64) = str "18446744073709552000"
  /\ integer_to_string (10 ^ 21) = str "1e+21"
  /\ integer_to_string (2 ^ 70) = str "1.1805916207174113e+21"
  /\ integer_to_string (- 10 ^ 23) = str "-1e+23"
  /\ Injected.not_found (Some (Demo.text "div")) (10 ^ 21)
     = str "Element not found: div[1e+21]".
Proof. vm_compute. repeat split; reflexivity. Qed.

(** ** Waiting for an element ([find]) *)

Lemma advance_0 p : advance 0 p = p.
Proof. destruct p. unfold advance. simpl. f_equal. lia. Qed.

Lemma advance_advance a b p : advance a (advance b p) = advance (b + a) p.
Proof. unfold advance. simpl. f_equal. lia. Qed.

Lemma find_loop_spec sel idx timeout start fuel : forall p,
  valid_selector p sel ->
  timeout <= now p - start + 100 * Z.of_nat fuel ->
  exists n r,
    Injected.find_loop fuel sel idx timeout start p
    = (Done r, advance (100 * Z.of_nat n) p)
    /\ (forall k, (k < n)%nat ->
          now p + 100 * Z.of_nat k - start < timeout
          /\ few p sel idx (now p + 100 * Z.of_nat k))
    /\ ((exists list,
           querySelectorAll p (now p + 100 * Z.of_nat n) sel = inl list
           /\ idx < Z.of_nat (length list)
           /\ now p + 100 * Z.of_nat n - start < timeout
           /\ r = item list idx)
        \/ (r = None /\ timeout <= now p + 100 * Z.of_nat n - start)).
Proof.
  induction fuel as [| fuel IH]; intros p Hvalid Hfuel.
  - exists 0%nat, None. simpl. rewrite advance_0.
    split; [reflexivity |]. split; [intros k Hk; lia |]. right. split; [reflexivity | lia].
  - simpl. rewrite (bind_Done _ _ p (now p) p) by reflexivity.
    destruct (now p - start <? timeout) eqn:Hin.
    + apply Z.ltb_lt in Hin. destruct (Hvalid (now p)) as (list & Hlist).
      assert (document_querySelectorAll sel p = (Done list, p)) as Hq
        by (unfold document_querySelectorAll; now rewrite Hlist).
      rewrite (bind_Done _ _ _ _ _ Hq).
      destruct (Z.of_nat (length list) >? idx) eqn:Hlong.
      * apply Z.gtb_lt in Hlong. exists 0%nat, (item list idx).
        simpl. rewrite advance_0, Z.add_0_r.
        split; [reflexivity |]. split; [intros k Hk; lia |].
        left. exists list. auto.
      * rewrite Z.gtb_ltb in Hlong. apply Z.ltb_ge in Hlong.
        rewrite (bind_Done _ _ p tt (advance 100 p)) by reflexivity.
        destruct (IH (advance 100 p)) as (n & r & Hrun & Hbefore & Hend);
          [exact Hvalid | simpl; lia |].
        simpl in Hbefore, Hend.
        exists (Datatypes.S n), r. rewrite Hrun, advance_advance.
        replace (100 + 100 * Z.of_nat n) with (100 * Z.of_nat (Datatypes.S n)) by lia.
        split; [reflexivity |].
        replace (now p + 100 * Z.of_nat (Datatypes.S n))
          with (now p + 100 + 100 * Z.of_nat n) by lia.
        split; [| exact Hend].
        intros [| k] Hk.
        -- rewrite Z.mul_0_r, Z.add_0_r. split; [exact Hin |]. exists list. auto.
        -- replace (now p + 100 * Z.of_nat (Datatypes.S k))
             with (now p + 100 + 100 * Z.of_nat k) by lia.
           apply Hbefore. lia.
    + apply Z.ltb_ge in Hin. exists 0%nat, None. rewrite advance_0.
      split; [reflexivity |]. split; [intros k Hk; lia |]. right. split; [reflexivity | lia].
Qed.

Lemma find_spec sel idx timeout p :
  valid_selector p sel ->
  exists n r,
    Injected.find sel idx timeout p = (Done r, advance (100 * Z.of_nat n) p)
    /\ (forall k, (k < n)%nat ->
          100 * Z.of_nat k < timeout /\ few p sel idx (now p + 100 * Z.of_nat k))
    /\ ((exists list,
           querySelectorAll p (now p + 100 * Z.of_nat n) sel = inl list
           /\ idx < Z.of_nat (length list)
           /\ 100 * Z.of_nat n < timeout
           /\ r = item list idx)
        \/ (r = None /\ timeout <= 100 * Z.of_nat n)).
Proof.
  intros Hvalid. unfold Injected.find.
  rewrite (bind_Done _ _ p (now p) p) by reflexivity.
  destruct (find_loop_spec sel idx timeout (now p) (Injected.poll_rounds timeout) p Hvalid)
    as (n & r & Hrun & Hbefore & Hend).
  { pose proof (poll_rounds_enough timeout). lia. }
  exists n, r. split; [exact Hrun |]. split.
  - intros k Hk. destruct (Hbefore k Hk) as [Hlt Hfew]. split; [lia | exact Hfew].
  - destruct Hend as [(list & Hq & Hlong & Hlt & Hr) | [Hr Hlate]].
    + left. exists list. repeat split; auto. lia.
    + right. split; [exact Hr | lia].
Qed.

(** [find] samples the selector every 100ms from the moment it is called.
    It stops at the first sample that has an element at [idx], which it
    returns without further delay, or gives up with [null] at the first
    100ms mark at or past the timeout; it changes nothing but the clock. *)
Theorem find_polls sel idx timeout p :
  valid_selector p sel ->
  exists n r,
    Injected.find sel idx timeout p = (Done r, advance (100 * Z.of_nat n) p)
    /\ (forall k, (k < n)%nat ->
          100 * Z.of_nat k < timeout /\ few p sel idx (now p + 100 * Z.of_nat k))
    /\ ((exists list,
           querySelectorAll p (now p + 100 * Z.of_nat n) sel = inl list
           /\ idx < Z.of_nat (length list)
           /\ 100 * Z.of_nat n < timeout
           /\ r = item list idx)
        \/ (r = None /\ timeout <= 100 * Z.of_nat n)).
Proof. apply find_spec. Qed.

Lemma demo_selectors_valid sel : valid_selector Demo.document sel \/ sel = str "a[".
Proof.
  destruct (decide (sel = str "a[")) as [-> | Hne]; [now right | left].
  intros t. simpl. repeat case_bool_decide; try congruence; eauto.
Qed.

Lemma find_polls_witness :
  exists n r,
    Injected.find (str "#q") 0 2000 Demo.document
    = (Done r, advance (100 * Z.of_nat n) Demo.document).
Proof.
  destruct (find_polls (str "#q") 0 2000 Demo.document) as (n & r & Hrun & _).
  - destruct (demo_selectors_valid (str "#q")) as [H | H]; [exact H | discriminate].
  - exists n, r. exact Hrun.
Defined.

(** ** [click], [type], [set], [exists] on the page *)

Lemma dispatch_mouse_event_other el type p :
  type <> str "click" ->
  dispatch_mouse_event el type p = (Done tt, (log_event el (MouseEvent type) p).2).
Proof.
  intros Hne. unfold dispatch_mouse_event.
  rewrite (bind_Done _ _ p tt (log_event el (MouseEvent type) p).2) by reflexivity.
  now rewrite bool_decide_eq_false_2.
Qed.

Lemma dispatch_mouse_event_click el p :
  dispatch_mouse_event el (str "click") p
  = (Done tt, (activate el (log_event el (MouseEvent (str "click")) p).2).2).
Proof.
  unfold dispatch_mouse_event.
  rewrite (bind_Done _ _ p tt (log_event el (MouseEvent (str "click")) p).2) by reflexivity.
  now rewrite bool_decide_eq_true_2.
Qed.

(** The pointer sequence is dispatched in order; its last event, the
    [click], runs the activation behaviour of the element. *)
Lemma dispatch_mouse_sequence el p :
  Injected.dispatch_mouse el Injected.mouse_sequence p
  = (Done tt,
     {| now := now p; node := activated (dom p) el (node p);
        querySelectorAll := querySelectorAll p; evaluate := evaluate p;
        documentElement := documentElement p;
        run_script := run_script p; dom := dom p;
        events := events p
                  ++ map (fun t => (el, MouseEvent (str t))) Injected.mouse_sequence;
        evaluations := evaluations p |}).
Proof.
  unfold Injected.mouse_sequence. cbn [Injected.dispatch_mouse].
  do 4 (erewrite bind_Done by (apply dispatch_mouse_event_other; discriminate)).
  erewrite bind_Done by apply dispatch_mouse_event_click.
  simpl. rewrite <- !app_assoc. reflexivity.
Qed.

Lemma poll_rounds_least timeout m :
  timeout <= 100 * Z.of_nat m -> (Injected.poll_rounds timeout <= m)%nat.
Proof. unfold Injected.poll_rounds. intros H. Z.div_mod_to_equations. lia. Qed.

(** [click] on an element found in time scrolls it into view and dispatches
    [mouseover], [mousemove], [mousedown], [mouseup], [click] on it, in this
    order and nothing else.  The nodes change by the activation behaviour
    that the [click] event runs on the element, once, and in no other way;
    no further time passes. *)
Theorem click_dispatches_pointer_sequence payload p index timeout_ms el p1 :
  int_field "index" 0 payload = Some index ->
  int_field "timeout_ms" 2000 payload = Some timeout_ms ->
  Injected.find (value_to_string (get "selector" payload)) index timeout_ms p
    = (Done (Some el), p1) ->
  exists p',
    Injected.click payload p = (Done (obj [("clicked", JBool true)]%string), p')
    /\ events p' = events p1 ++ click_events el
    /\ node p' = activated (dom p1) el (node p1)
    /\ now p' = now p1.
Proof.
  intros Hindex Htimeout Hfind. unfold Injected.click.
  rewrite Hindex, Htimeout. simpl expect.
  rewrite (bind_Done _ _ p index p) by reflexivity.
  rewrite (bind_Done _ _ p timeout_ms p) by reflexivity.
  rewrite (bind_Done _ _ _ _ _ Hfind).
  rewrite (bind_Done _ _ p1 tt (log_event el ScrollIntoView p1).2) by reflexivity.
  erewrite bind_Done by apply dispatch_mouse_sequence.
  eexists. split; [reflexivity |]. simpl. rewrite <- app_assoc. auto.
Qed.

Lemma click_dispatches_pointer_sequence_witness :
  exists p',
    Injected.click (obj [("selector", Demo.text "div")]%string) Demo.document
    = (Done (obj [("clicked", JBool true)]%string), p')
    /\ events p' = click_events 1%nat.
Proof.
  destruct (click_dispatches_pointer_sequence
              (obj [("selector", Demo.text "div")]%string) Demo.document 0 2000 1%nat
              Demo.document) as (p' & Hrun & Hevents & _).
  - reflexivity.
  - reflexivity.
  - vm_compute. reflexivity.
  - exists p'. split; [exact Hrun | exact Hevents].
Defined.

(** A click on the summary of a closed [<details>] opens it. *)
Example click_opens_details :
  let p' := (Injected.click (obj [("selector", Demo.text "summary")]%string)
               Demo.disclosure).2 in
  attribute (node Demo.disclosure 1%nat) (str "open") = None
  /\ attribute (node p' 1%nat) (str "open") = Some []
  /\ outerHTML (node p' 1%nat)
     = str "<details open=" ++ quote ++ quote ++ str "><summary>More</summary></details>"
  /\ node p' 0%nat = node Demo.disclosure 0%nat.
Proof. vm_compute. repeat split; reflexivity. Qed.

(** A negative index is never found, and not waited for: the first sample
    ends the search. *)
Lemma find_negative sel idx timeout p :
  valid_selector p sel -> idx < 0 -> Injected.find sel idx timeout p = (Done None, p).
Proof.
  intros Hvalid Hneg. unfold Injected.find.
  rewrite (bind_Done _ _ p (now p) p) by reflexivity.
  destruct (Injected.poll_rounds timeout) as [| fuel]; [reflexivity |].
  cbn [Injected.find_loop]. rewrite (bind_Done _ _ p (now p) p) by reflexivity.
  destruct (now p - now p <? timeout); [| reflexivity].
  destruct (Hvalid (now p)) as [list Hlist].
  assert (document_querySelectorAll sel p = (Done list, p)) as Hq
    by (unfold document_querySelectorAll; now rewrite Hlist).
  rewrite (bind_Done _ _ _ _ _ Hq).
  rewrite (proj2 (Z.gtb_lt _ _)) by lia.
  unfold item. rewrite (proj2 (Z.ltb_lt _ _)) by exact Hneg. reflexivity.
Qed.

(** When a well-formed selector has no element at [index], [click] and
    [type] fail with [Element not found: <selector>[<index>]] and dispatch no
    event.  For an index that is not negative and a selector that matches
    too few elements at every sample before the timeout, they fail when at
    least [timeout_ms] and less than [timeout_ms + 100] milliseconds have
    passed (none for a timeout of zero or less); for a negative index they
    fail at once. *)
Theorem element_not_found_after_timeout payload p index timeout_ms :
  int_field "index" 0 payload = Some index ->
  int_field "timeout_ms" 2000 payload = Some timeout_ms ->
  valid_selector p (value_to_string (get "selector" payload)) ->
  let failure : run json := Thrown (Injected.not_found (get "selector" payload) index) in
  (0 <= index ->
   (forall k, 100 * Z.of_nat k < timeout_ms ->
      few p (value_to_string (get "selector" payload)) index (now p + 100 * Z.of_nat k)) ->
   let waited := 100 * Z.of_nat (Injected.poll_rounds timeout_ms) in
   Injected.click payload p = (failure, advance waited p)
   /\ Injected.type payload p = (failure, advance waited p)
   /\ timeout_ms <= waited
   /\ (0 < timeout_ms -> waited < timeout_ms + 100)
   /\ (timeout_ms <= 0 -> waited = 0))
  /\ (index < 0 ->
      Injected.click payload p = (failure, p) /\ Injected.type payload p = (failure, p)).
Proof.
  intros Hindex Htimeout Hvalid failure.
  assert (forall p1,
            Injected.find (value_to_string (get "selector" payload)) index timeout_ms p
              = (Done None, p1) ->
            Injected.click payload p = (failure, p1)
            /\ Injected.type payload p = (failure, p1)) as Hfails.
  { intros p1 Hrun. split.
    - unfold Injected.click. rewrite Hindex, Htimeout. simpl expect.
      rewrite (bind_Done _ _ p index p) by reflexivity.
      rewrite (bind_Done _ _ p timeout_ms p) by reflexivity.
      rewrite (bind_Done _ _ _ _ _ Hrun). reflexivity.
    - unfold Injected.type. rewrite Hindex, Htimeout. simpl expect.
      rewrite (bind_Done _ _ p index p) by reflexivity.
      rewrite (bind_Done _ _ p timeout_ms p) by reflexivity.
      rewrite (bind_Done _ _ _ _ _ Hrun). reflexivity. }
  split.
  - intros _ Hfew waited.
    destruct (find_spec _ index timeout_ms p Hvalid) as (n & r & Hrun & Hbefore & Hend).
    assert (r = None /\ timeout_ms <= 100 * Z.of_nat n) as [-> Hlate].
    { destruct Hend as [(list & Hq & Hlong & Hlt & _) | H]; [| exact H].
      destruct (Hfew n Hlt) as (list' & Hq' & Hshort). rewrite Hq in Hq'.
      injection Hq' as <-. lia. }
    assert (n = Injected.poll_rounds timeout_ms) as Hn.
    { pose proof (poll_rounds_enough timeout_ms) as Henough.
      pose proof (poll_rounds_least timeout_ms n Hlate) as Hleast.
      destruct (decide (Injected.poll_rounds timeout_ms < n)%nat) as [Hlt | Hge]; [| lia].
      destruct (Hbefore _ Hlt) as [Hcontra _]. lia. }
    subst waited. rewrite <- Hn.
    destruct (Hfails _ Hrun) as [Hclick Htype].
    split; [exact Hclick |]. split; [exact Htype |]. split; [exact Hlate |].
    split.
    + intros Hpos. destruct n as [| n]; [lia |].
      destruct (Hbefore n ltac:(lia)) as [Hlt _]. lia.
    + intros Hneg. destruct n as [| n]; [lia |].
      destruct (Hbefore 0%nat ltac:(lia)) as [Hlt _]. lia.
  - intros Hneg. apply Hfails. now apply find_negative.
Qed.

Lemma element_not_found_after_timeout_witness :
  Injected.click (obj [("selector", Demo.text "#missing");
                       ("timeout_ms", JInt 250)]%string) Demo.document
  = (Thrown (str "Element not found: #missing[0]"), advance 300 Demo.document)
  /\ Injected.click (obj [("selector", Demo.text "div"); ("index", JInt (-1))]%string)
       Demo.document
     = (Thrown (str "Element not found: div[-1]"), Demo.document).
Proof.
  split.
  - destruct (element_not_found_after_timeout
                (obj [("selector", Demo.text "#missing"); ("timeout_ms", JInt 250)]%string)
                Demo.document 0 250) as ((Hclick & _) & _).
    + reflexivity.
    + reflexivity.
    + destruct (demo_selectors_valid (str "#missing")) as [H | H]; [exact H | discriminate].
    + lia.
    + intros k _. eexists. split; [reflexivity | simpl; lia].
    + exact Hclick.
  - destruct (element_not_found_after_timeout
                (obj [("selector", Demo.text "div"); ("index", JInt (-1))]%string)
                Demo.document (-1) 2000) as (_ & Hneg).
    + reflexivity.
    + reflexivity.
    + destruct (demo_selectors_valid (str "div")) as [H | H]; [exact H | discriminate].
    + destruct Hneg as [Hclick _]; [lia | exact Hclick].
Defined.

Lemma type_char_trace el ch p :
  exists p',
    Injected.type_char el ch p = (Done tt, p')
    /\ events p' = events p ++ keystroke el ch
    /\ now p' = now p + 5
    /\ (forall n, n <> el -> node p' n = node p n).
Proof.
  unfold Injected.type_char, log_event, get_node, put_node, sleep, mbind, eff_bind.
  simpl. destruct (value (node p el)); simpl;
    (eexists; split; [reflexivity |]); simpl; rewrite <- !app_assoc;
    (split; [reflexivity |]); (split; [reflexivity |]); intros n Hn;
    [now rewrite fn_lookup_insert_ne | reflexivity].
Qed.

Lemma type_chars_trace el chs : forall p,
  exists p',
    Injected.type_chars el chs p = (Done tt, p')
    /\ events p' = events p ++ concat (map (keystroke el) chs)
    /\ now p' = now p + 5 * Z.of_nat (length chs)
    /\ (forall n, n <> el -> node p' n = node p n).
Proof.
  induction chs as [| ch chs IH]; intros p.
  - exists p. simpl. rewrite app_nil_r, Z.add_0_r. auto.
  - destruct (type_char_trace el ch p) as (p1 & Hrun1 & Hev1 & Hnow1 & Hnode1).
    destruct (IH p1) as (p2 & Hrun2 & Hev2 & Hnow2 & Hnode2).
    exists p2. cbn [Injected.type_chars]. rewrite (bind_Done _ _ _ _ _ Hrun1).
    split; [exact Hrun2 |]. split; [| split].
    + rewrite Hev2, Hev1. cbn [map concat]. now rewrite <- app_assoc.
    + rewrite Hnow2, Hnow1. cbn [length]. lia.
    + intros n Hn. rewrite Hnode2, Hnode1 by exact Hn. reflexivity.
Qed.

(** What [type] does to the page once the element is found: it focuses the
    element, dispatches [keydown], [input], [keypress], [keyup] for each code
    point of the text in order, then [change], then [keydown]/[keyup] of
    [Enter] if [enter] is set; it takes 5ms per code point, and no other node
    is modified. *)
Theorem type_event_trace el text clear enter p :
  let p' := (Injected.type_into el (Some text) clear enter p).2 in
  events p'
  = events p ++ [(el, Focus)]
      ++ concat (map (keystroke el) (code_points text))
      ++ [(el, ChangeEvent)]
      ++ (if enter
          then [(el, KeyboardEvent (str "keydown") (str "Enter"));
                (el, KeyboardEvent (str "keyup") (str "Enter"))]
          else [])
  /\ now p' = now p + 5 * Z.of_nat (length (code_points text))
  /\ (forall n, n <> el -> node p' n = node p n).
Proof.
  intros p'. subst p'. unfold Injected.type_into.
  set (p1 := (log_event el Focus p).2).
  rewrite (bind_Done _ _ p tt p1) by reflexivity.
  rewrite (bind_Done _ _ p1 (node p el) p1) by reflexivity.
  set (clearing := if clear then _ else _).
  assert (exists p2, clearing p1 = (Done tt, p2)
                     /\ events p2 = events p ++ [(el, Focus)] /\ now p2 = now p
                     /\ (forall n, n <> el -> node p2 n = node p n))
    as (p2 & Hclear & Hev2 & Hnow2 & Hnode2).
  { subst clearing. destruct clear; [destruct (value (node p el)) |];
      (eexists; split; [reflexivity |]); simpl;
      (split; [reflexivity |]); (split; [reflexivity |]); intros n Hn;
      [now rewrite fn_lookup_insert_ne | reflexivity ..]. }
  rewrite (bind_Done _ _ _ _ _ Hclear). simpl expect.
  rewrite (bind_Done _ _ p2 text p2) by reflexivity.
  destruct (type_chars_trace el (code_points text) p2)
    as (p3 & Htype & Hev3 & Hnow3 & Hnode3).
  rewrite (bind_Done _ _ _ _ _ Htype).
  destruct enter; simpl;
    rewrite Hev3, Hev2, Hnow3, Hnow2, <- ?app_assoc;
    (split; [reflexivity |]); (split; [reflexivity |]); intros n Hn;
    rewrite Hnode3, Hnode2 by exact Hn; reflexivity.
Qed.
Lemma item_is_Some {A} (l : list A) idx :
  is_Some (item l idx) <-> 0 <= idx < Z.of_nat (length l).
Proof.
  unfold item. destruct (Z.ltb_spec idx 0) as [Hneg | Hpos].
  - split; [intros [x [=]] | lia].
  - rewrite lookup_lt_is_Some. lia.
Qed.

(** [exists] looks once and never waits: for a well-formed selector it
    returns whether the selector matches more than [index] elements right
    now, and leaves the page as it is; a malformed selector is the only
    failure.  For an index that is not negative the answer says whether an
    element stands at [index]; for a negative index it is [true] whatever
    matches, also when nothing does. *)
Theorem exists_looks_once payload p index :
  int_field "index" 0 payload = Some index ->
  match querySelectorAll p (now p) (value_to_string (get "selector" payload)) with
  | inl list =>
      let found := (index <? Z.of_nat (length list))%Z in
      Injected.exists_ payload p = (Done (obj [("exists", JBool found)]%string), p)
      /\ (0 <= index -> found = true <-> is_Some (item list index))
      /\ (index < 0 -> found = true /\ item list index = None)
  | inr message => Injected.exists_ payload p = (Thrown message, p)
  end.
Proof.
  intros Hindex. unfold Injected.exists_. rewrite Hindex. simpl expect.
  rewrite (bind_Done _ _ p index p) by reflexivity.
  unfold document_querySelectorAll, mbind, eff_bind.
  destruct (querySelectorAll p (now p) _) as [list | message]; [| reflexivity].
  cbv zeta. rewrite Z.gtb_ltb. split; [reflexivity |]. split.
  - intros Hpos. rewrite item_is_Some, Z.ltb_lt. lia.
  - intros Hneg. split; [apply Z.ltb_lt; lia |].
    unfold item. now rewrite (proj2 (Z.ltb_lt _ _)).
Qed.

Lemma exists_looks_once_witness :
  Injected.exists_ (obj [("selector", Demo.text "#q")]%string) Demo.document
  = (Done (obj [("exists", JBool false)]%string), Demo.document)
  /\ Injected.exists_ (obj [("selector", Demo.text "#q"); ("index", JInt (-1))]%string)
       Demo.document
     = (Done (obj [("exists", JBool true)]%string), Demo.document).
Proof.
  split.
  - exact (proj1 (exists_looks_once (obj [("selector", Demo.text "#q")]%string)
                    Demo.document 0 eq_refl)).
  - exact (proj1 (exists_looks_once
                    (obj [("selector", Demo.text "#q"); ("index", JInt (-1))]%string)
                    Demo.document (-1) eq_refl)).
Defined.

(** [set] does not wait either.  With no element at [index] now it fails
    with [Element not found] and touches nothing.  Otherwise it makes one
    write.  If [attr] is given it calls [setAttribute(attr, value)]: the
    nodes are then what the document makes of it, and if the document
    refuses the name [set] fails with its error and nothing has changed.
    Else, if the element has a [value], it assigns to it (the element then
    holds what its setter stores and shows it as its kind of control does;
    no other node changes) and dispatches an [input] and a [change] event.
    Else it assigns to [textContent].  No time passes. *)
Theorem set_writes_once payload p index list v :
  int_field "index" 0 payload = Some index ->
  querySelectorAll p (now p) (value_to_string (get "selector" payload)) = inl list ->
  string_field "value" payload = Some v ->
  string_or_falsy "attr" payload = true ->
  let done := Done (obj [("set", JBool true)]%string) in
  match item list index with
  | None =>
      Injected.set payload p
      = (Thrown (Injected.not_found (get "selector" payload) index), p)
  | Some el =>
      (forall attr, truthy (get "attr" payload) = true ->
         string_field "attr" payload = Some attr ->
         Injected.set payload p
         = match attribute_set (dom p) el attr v (node p) with
           | inl nodes => (done, with_nodes nodes p)
           | inr message => (Thrown message, p)
           end)
      /\ (truthy (get "attr" payload) = false -> is_Some (value (node p el)) ->
            exists p',
              Injected.set payload p = (done, p')
              /\ node p' = <[el := assign_value v (node p el)]> (node p)
              /\ events p' = events p ++ [(el, InputEvent v); (el, ChangeEvent)]
              /\ now p' = now p)
      /\ (truthy (get "attr" payload) = false -> value (node p el) = None ->
            Injected.set payload p
            = (done, with_nodes (text_set (dom p) el v (node p)) p))
  end.
Proof.
  intros Hindex Hlist Hvalue Hattr done. unfold Injected.set. rewrite Hindex. simpl expect.
  rewrite (bind_Done _ _ p index p) by reflexivity.
  assert (document_querySelectorAll (value_to_string (get "selector" payload)) p
          = (Done list, p)) as Hq
    by (unfold document_querySelectorAll; now rewrite Hlist).
  rewrite (bind_Done _ _ _ _ _ Hq).
  destruct (item list index) as [el |]; [| reflexivity].
  rewrite (bind_Done _ _ p (node p el) p) by reflexivity.
  rewrite Hvalue.
  destruct (truthy (get "attr" payload)) eqn:Htruthy.
  - split; [| split; discriminate].
    intros attr _ Ha. rewrite Ha. simpl expect.
    unfold setAttribute, mbind, eff_bind, mret, eff_ret.
    destruct (attribute_set (dom p) el attr v (node p)); reflexivity.
  - split; [discriminate |]. destruct (value (node p el)) as [old |] eqn:Hv.
    + split; [| discriminate]. intros _ _.
      eexists. split; [reflexivity |]. simpl. rewrite <- app_assoc. auto.
    + split; [intros _ [? [=]] |]. intros _ _. reflexivity.
Qed.

Lemma set_writes_once_witness :
  Injected.set (obj [("selector", Demo.text "div"); ("value", Demo.text "bye")]%string)
    Demo.document
  = (Done (obj [("set", JBool true)]%string),
     with_nodes (text_set (dom Demo.document) 1%nat (str "bye") (node Demo.document))
       Demo.document)
  /\ Injected.set (obj [("selector", Demo.text "div"); ("value", Demo.text "bye");
                        ("attr", Demo.text "a b")]%string) Demo.document
     = (Thrown (str "String contains an invalid character"), Demo.document)
  /\ exists p',
       Injected.set (obj [("selector", Demo.text "[type=hidden]");
                          ("value", Demo.text "t1")]%string) Demo.document
       = (Done (obj [("set", JBool true)]%string), p')
       /\ value (node p' 3%nat) = Some (str "t1")
       /\ attribute (node p' 3%nat) (str "value") = Some (str "t1")
       /\ outerHTML (node p' 3%nat) = str "<input type=hidden value=t1>"
       /\ events p' = [(3%nat, InputEvent (str "t1")); (3%nat, ChangeEvent)].
Proof.
  split; [| split].
  - pose proof (set_writes_once
                  (obj [("selector", Demo.text "div"); ("value", Demo.text "bye")]%string)
                  Demo.document 0 [1%nat] (str "bye") eq_refl eq_refl eq_refl eq_refl) as H.
    simpl in H. destruct H as (_ & _ & Htext). exact (Htext eq_refl eq_refl).
  - pose proof (set_writes_once
                  (obj [("selector", Demo.text "div"); ("value", Demo.text "bye");
                        ("attr", Demo.text "a b")]%string)
                  Demo.document 0 [1%nat] (str "bye") eq_refl eq_refl eq_refl eq_refl) as H.
    simpl in H. destruct H as (Hattr & _). exact (Hattr (str "a b") eq_refl eq_refl).
  - pose proof (set_writes_once
                  (obj [("selector", Demo.text "[type=hidden]");
                        ("value", Demo.text "t1")]%string)
                  Demo.document 0 [3%nat] (str "t1") eq_refl eq_refl eq_refl eq_refl) as H.
    simpl in H. destruct H as (_ & Hvalue & _).
    destruct (Hvalue eq_refl (ex_intro _ (str "t0") eq_refl)) as (p' & Hrun & Hnode & Hev & _).
    exists p'. split; [exact Hrun |]. rewrite Hnode, Hev. repeat split; reflexivity.
Defined.

(** ** [xpath]: refusals *)

(** [xpath] checks [expr] before anything else: when it is missing, empty or
    not a string the command fails with [xpath: missing "expr"] whatever the
    action, and the document is not consulted. *)
Theorem xpath_requires_expr payload p :
  expr_missing payload ->
  Injected.xpath payload p = (Thrown missing_expr, p).
Proof.
  unfold expr_missing, Injected.xpath.
  destruct (get "expr" payload) as [[| | | [| c s] | |] |]; intros H;
    try reflexivity; contradiction.
Qed.

Lemma xpath_requires_expr_witness :
  Injected.xpath (obj [("action", Demo.text "count")]%string) Demo.document
  = (Thrown missing_expr, Demo.document).
Proof.
  apply (xpath_requires_expr (obj [("action", Demo.text "count")]%string)). exact I.
Defined.

Lemma evalSnapshot_invalid expr p message :
  evaluate p (now p) expr = inr message ->
  Injected.evalSnapshot expr p
  = (Thrown (str "Invalid XPath: " ++ message), evaluated_once p).
Proof. intros H. unfold Injected.evalSnapshot. rewrite H. reflexivity. Qed.

Lemma evalSnapshot_valid expr p snap :
  evaluate p (now p) expr = inl snap ->
  Injected.evalSnapshot expr p = (Done snap, evaluated_once p).
Proof. intros H. unfold Injected.evalSnapshot. rewrite H. reflexivity. Qed.

Lemma waitForIndex_invalid expr idx timeout p message :
  evaluate p (now p) expr = inr message ->
  Injected.waitForIndex expr idx timeout p
  = (Thrown (str "Invalid XPath: " ++ message), evaluated_once p).
Proof.
  intros H. unfold Injected.waitForIndex.
  rewrite (bind_Done _ _ p (now p) p) by reflexivity.
  destruct (Injected.poll_rounds timeout) as [| fuel]; cbn [Injected.waitForIndex_loop].
  - now apply evalSnapshot_invalid.
  - rewrite (bind_Done _ _ p (now p) p) by reflexivity.
    destruct (now p - now p <? timeout).
    + rewrite (bind_Thrown _ _ _ _ _ (evalSnapshot_invalid _ _ _ H)). reflexivity.
    + now apply evalSnapshot_invalid.
Qed.

(** An expression the document rejects fails every action alike, with
    [Invalid XPath: ] followed by the document's message, at the first
    evaluation: also the actions that would wait do not wait. *)
Theorem xpath_invalid_expression payload p expr message :
  get "expr" payload = Some (JStr expr) ->
  expr <> [] ->
  integer_or_absent "index" payload = true ->
  integer_or_absent "timeout_ms" payload = true ->
  evaluate p (now p) expr = inr message ->
  Injected.xpath payload p
  = (Thrown (str "Invalid XPath: " ++ message), evaluated_once p).
Proof.
  intros Hexpr Hne Hindex Htimeout Hbad.
  destruct (int_field_typed "index" 0 payload Hindex) as [index Hi].
  destruct (int_field_typed "timeout_ms" 2000 payload Htimeout) as [timeout_ms Ht].
  unfold Injected.xpath. rewrite Hexpr, bool_decide_eq_false_2 by exact Hne.
  rewrite Hi, Ht. simpl expect.
  destruct (Injected.needsIndex (Injected.action_of payload)).
  - pose proof (waitForIndex_invalid _ index timeout_ms _ _ Hbad) as Hwait.
    match goal with
    | |- (?m ≫= _) p = _ =>
        assert (m p = (Thrown (str "Invalid XPath: " ++ message), evaluated_once p))
          as Hm by exact Hwait
    end.
    rewrite (bind_Thrown _ _ _ _ _ Hm). reflexivity.
  - rewrite (bind_Thrown _ _ _ _ _ (evalSnapshot_invalid _ _ _ Hbad)). reflexivity.
Qed.

Lemma xpath_invalid_expression_witness :
  Injected.xpath (obj [("expr", Demo.text "//["); ("action", Demo.text "click")]%string)
    Demo.document
  = (Thrown (str "Invalid XPath: not a valid XPath expression"),
     evaluated_once Demo.document).
Proof.
  apply (xpath_invalid_expression
           (obj [("expr", Demo.text "//["); ("action", Demo.text "click")]%string)
           Demo.document (str "//[") (str "not a valid XPath expression"));
    solve [reflexivity | discriminate].
Defined.



(** ** [xpath]: the node at [index] and the listing *)




Lemma summarizeNode_spec payload n p :
  integer_or_absent "max_len" payload = true ->
  exists s, Injected.summarizeNode payload n p = (Done s, p) /\ describes p payload n s.
Proof.
  intros Hmax. destruct (int_field_typed "max_len" 500000 payload Hmax) as [max_len Hm].
  unfold Injected.summarizeNode, describes.
  rewrite (bind_Done _ _ p (node p n) p) by reflexivity.
  destruct (nodeType (node p n)); [| eexists; split; reflexivity ..].
  rewrite (bind_Done _ _ p (layout (dom p) (events p) n) p) by reflexivity.
  rewrite Hm. unfold flag_field.
  assert (forall s : jsstring,
            Injected.or_null s = if bool_decide (s = []) then JNull else JStr s) as Hnull
    by reflexivity.
  assert (from_option Injected.or_null JNull (attribute (node p n) (str "name"))
          = match attribute (node p n) (str "name") with
            | Some (c :: name) => JStr (c :: name)
            | _ => JNull
            end) as Hname
    by (destruct (attribute (node p n) (str "name")) as [[| c name] |]; reflexivity).
  assert (from_option JStr JNull (value (node p n))
          = match value (node p n) with Some v => JStr v | None => JNull end) as Hvalue
    by (destruct (value (node p n)); reflexivity).
  destruct (get "includeHTML" payload) as [flag |];
    [destruct (truthy (Some flag)) |];
    (eexists; split; [reflexivity |]);
    rewrite <- Hname, <- Hvalue;
    repeat (split; [reflexivity |]); try (split; reflexivity).
  intros max_len' Hhas. apply has_int_field in Hhas. rewrite Hm in Hhas.
  injection Hhas as <-. cbv zeta. rewrite <- Z.gtb_ltb. split; reflexivity.
Qed.

Lemma summarize_all_spec payload ns p :
  integer_or_absent "max_len" payload = true ->
  exists out,
    Injected.summarize_all payload ns p = (Done out, p)
    /\ Forall2 (describes p payload) ns out.
Proof.
  intros Hmax. induction ns as [| n ns (out & Hrun & Hout)].
  - exists []. split; [reflexivity | constructor].
  - destruct (summarizeNode_spec payload n p Hmax) as (s & Hs & Hdescribes).
    exists (s :: out). cbn [Injected.summarize_all].
    rewrite (bind_Done _ _ _ _ _ Hs), (bind_Done _ _ _ _ _ Hrun).
    split; [reflexivity | now constructor].
Qed.

(** [list] (the default action) reports the size of the whole snapshot as
    [count] and returns, in order, a summary of each of its first [max]
    nodes (none for a negative [max], all of them when [max] exceeds the
    count); it evaluates once and changes nothing else. *)
Theorem xpath_list_counts payload p expr snap max :
  get "expr" payload = Some (JStr expr) ->
  expr <> [] ->
  names_action payload "list" ->
  has_int "max" 10 payload max ->
  integer_or_absent "max_len" payload = true ->
  evaluate p (now p) expr = inl snap ->
  exists nodes,
    Injected.xpath payload p
    = (Done (obj [("count", JInt (Z.of_nat (length snap))); ("nodes", JArr nodes)]%string),
       evaluated_once p)
    /\ Z.of_nat (length nodes) = Z.min (Z.of_nat (length snap)) (Z.max 0 max)
    /\ forall i s, nodes !! i = Some s ->
         exists n, snap !! i = Some n /\ describes (evaluated_once p) payload n s.
Proof.
  intros Hexpr Hne Hname Hmax Hlen Hsnap.
  assert (Injected.action_of payload = Injected.list_) as Haction
    by (unfold Injected.action_of; destruct Hname as [-> | [-> _]]; reflexivity).
  apply has_int_field in Hmax.
  unfold Injected.xpath.
  rewrite Hexpr, bool_decide_eq_false_2 by exact Hne. rewrite Haction, Hmax.
  cbn [Injected.needsIndex]. simpl expect.
  rewrite (bind_Done _ _ _ _ _ (evalSnapshot_valid _ _ _ Hsnap)).
  rewrite (bind_Done _ _ (evaluated_once p) max (evaluated_once p)) by reflexivity.
  destruct (summarize_all_spec payload
              (take (Z.to_nat (Z.min (Z.of_nat (length snap)) (Z.max 0 max))) snap)
              (evaluated_once p) Hlen) as (out & Hrun & Hout).
  rewrite (bind_Done _ _ _ _ _ Hrun). exists out. split; [reflexivity |]. split.
  - rewrite <- (Forall2_length _ _ _ Hout), length_take. lia.
  - intros i s Hs. destruct (Forall2_lookup_r _ _ _ _ _ Hout Hs) as (n & Hn & Hd).
    exists n. split; [| exact Hd]. apply lookup_take_Some in Hn. tauto.
Qed.

Lemma xpath_list_counts_witness :
  exists nodes,
    Injected.xpath (obj [("expr", Demo.text "//div"); ("max", JInt 5)]%string)
      Demo.document
    = (Done (obj [("count", JInt 1); ("nodes", JArr nodes)]%string),
       evaluated_once Demo.document)
    /\ Z.of_nat (length nodes) = 1
    /\ forall s, nodes !! 0%nat = Some s ->
         get "nodeType" s = Some (Demo.text "element")
         /\ get "tag" s = Some (Demo.text "DIV").
Proof.
  destruct (xpath_list_counts
              (obj [("expr", Demo.text "//div"); ("max", JInt 5)]%string)
              Demo.document (str "//div") [1%nat] 5) as (nodes & Hrun & Hlen & Hnodes);
    try solve [reflexivity | discriminate | right; split; reflexivity | left; reflexivity].
  exists nodes. split; [exact Hrun |]. split; [exact Hlen |].
  intros s Hs. destruct (Hnodes 0%nat s Hs) as (n & [= <-] & Hkind & Htag & _).
  split; [exact Hkind | exact Htag].
Defined.

(** ** The resolver settles on a tab *)

Lemma tab_resolution_order_cases preferredId w :
  as_integer preferredId = None ->
  (exists id, usable_remembered w = Some id
              /\ resolveTargetTabId preferredId w = (Done id, w))
  \/ (usable_remembered w = None
      /\ resolveTargetTabId preferredId w =
         match active_tab w with
         | Some active =>
             if negb (active =? 0) then (Done active, (setStoredTabId active w).2)
             else (Done (next_tab_id w),
                   (setStoredTabId (next_tab_id w)
                      (chrome_tabs_create (str "about:blank") w).2).2)
         | None =>
             (Done (next_tab_id w),
              (setStoredTabId (next_tab_id w)
                 (chrome_tabs_create (str "about:blank") w).2).2)
         end).
Proof.
  intros Hpref. destruct (usable_remembered w) as [id |] eqn:Hrem.
  - left. exists id. split; [reflexivity |]. now apply resolve_remembered.
  - right. split; [reflexivity |]. now apply resolve_forgotten.
Qed.

(** Unless the caller names a tab, resolution ends with the returned tab
    remembered, and in a well-formed session it is stable: the tabs that were
    open are still there unchanged, and resolving again without arguments
    returns the same tab and changes nothing. *)
Theorem resolution_settles preferredId w :
  as_integer preferredId = None ->
  well_formed w ->
  exists tabId w',
    resolveTargetTabId preferredId w = (Done tabId, w')
    /\ lastTabId w' = Some tabId
    /\ (forall k t, tabs w !! k = Some t -> tabs w' !! k = Some t)
    /\ resolveTargetTabId None w' = (Done tabId, w').
Proof.
  intros Hpref [Hfresh Hactive].
  destruct (tab_resolution_order_cases preferredId w Hpref) as [Hcase | Hcase].
  - destruct Hcase as (id & Hrem & Hrun). exists id, w.
    split; [exact Hrun |].
    assert (lastTabId w = Some id) as Hlast.
    { unfold usable_remembered in Hrem.
      destruct (lastTabId w) as [s |]; [| discriminate]. simpl in Hrem.
      destruct (tabs w !! s); [| discriminate]. simpl in Hrem.
      destruct (discarded t); congruence. }
    split; [exact Hlast |]. split; [auto |].
    now apply resolve_remembered.
  - destruct Hcase as (Hrem & Hrun). rewrite Hrun.
    destruct (active_tab w) as [a |] eqn:Ha.
    + destruct (Hactive a eq_refl) as (t & Ht & Hdisc).
      destruct (Z.eqb_spec a 0) as [-> | Hnz]; simpl.
      * eexists _, _. split; [reflexivity |]. split; [reflexivity |]. split.
        -- intros k t' Hk. simpl. rewrite lookup_insert_ne; [exact Hk |]. congruence.
        -- apply resolve_remembered; [reflexivity |].
           unfold usable_remembered. simpl. now rewrite lookup_insert_eq.
      * eexists _, _. split; [reflexivity |]. split; [reflexivity |]. split; [auto |].
        apply resolve_remembered; [reflexivity |].
        unfold usable_remembered. simpl. rewrite Ht. simpl. now rewrite Hdisc.
    + eexists _, _. split; [reflexivity |]. split; [reflexivity |]. split.
      * intros k t' Hk. simpl. rewrite lookup_insert_ne; [exact Hk |]. congruence.
      * apply resolve_remembered; [reflexivity |].
        unfold usable_remembered. simpl. now rewrite lookup_insert_eq.
Qed.

Lemma demo_session_well_formed : well_formed Demo.forgetful_session.
Proof.
  split; [reflexivity |]. intros a [= <-]. exists Demo.tab7. split; reflexivity.
Qed.

Lemma resolution_settles_witness :
  exists w',
    resolveTargetTabId None Demo.forgetful_session = (Done 7, w')
    /\ lastTabId w' = Some 7
    /\ resolveTargetTabId None w' = (Done 7, w').
Proof.
  destruct (resolution_settles None Demo.forgetful_session eq_refl
              demo_session_well_formed) as (tabId & w' & Hrun & Hlast & _ & Hagain).
  assert (tabId = 7) as -> by (vm_compute in Hrun; congruence).
  exists w'. auto.
Defined.
(** ** The load wait and [nav] *)

Lemma tick_time_set_load_remaining tabId r w k :
  tick_time (set_load_remaining tabId r w).2 k = tick_time w k.
Proof. reflexivity. Qed.












(** A load of 30100ms is past the 30000ms of the wait.  With punctual ticks
    the tick at 30000ms does not see the timeout exceeded, and the load is
    reported before the next one; with ticks 50ms late that tick runs at
    30050ms and ends the wait. *)
Example nav_on_the_edge :
  let payload := obj [("url", Demo.text "https://heavy.example")]%string in
  (handlers.nav payload (Demo.heavy_session 0)).1
  = Done (obj [("tabId", JInt 7); ("url", Demo.text "https://heavy.example");
               ("ok", JBool true)]%string)
  /\ (handlers.nav payload (Demo.heavy_session 50)).1
     = Thrown (str "Timeout waiting for tab to load").
Proof. vm_compute. split; reflexivity. Qed.

(** ** The dispatcher: explicit tabs, [nav], and the replies of the endpoint *)

Lemma get_set_field_other k k' v fs :
  str k <> k' -> get k (JObj (set_field k' v fs)) = get k (JObj fs).
Proof. intros H. simpl. now apply lookup_set_field_ne. Qed.

(** [nav] never reads [tabId]: a message [{cmd: "nav", tabId: t, ...}] is
    answered exactly as [nav] answers the same payload without the field;
    the tab named by the caller plays no part in choosing the tab that
    navigates. *)
Theorem nav_ignores_explicit_tab id fs t w :
  let payload := JObj (set_field (str "tabId") (JInt t) fs) in
  onMessage id (Some (JStr (str "nav"))) payload w
  = (nav_response id (handlers.nav (JObj fs) w).1, (handlers.nav (JObj fs) w).2).
Proof.
  intros payload.
  assert (handlers.nav payload = handlers.nav (JObj fs)) as Hsame.
  { unfold handlers.nav, handlers.nav_open, flag_field, string_field. subst payload.
    rewrite !(get_set_field_other "url") by discriminate.
    rewrite !(get_set_field_other "reuse") by discriminate. reflexivity. }
  unfold onMessage, try_catch.
  change (handlers_get (Some (JStr (str "nav")))) with (Some (Own nav_handler)).
  assert (resolveTargetTabId (get "tabId" payload) w = (Done t, w)) as Hres.
  { apply resolve_preferred. subst payload. simpl. now rewrite lookup_set_field_eq. }
  cbv iota beta. rewrite (bind_Done _ _ _ _ _ Hres).
  change (is_literal (Some (JStr (str "nav"))) "nav") with true. cbv iota.
  rewrite Hsame. unfold mbind, eff_bind.
  destruct (handlers.nav (JObj fs) w) as [[res | e |] w']; reflexivity.
Qed.

Lemma runInPage_local tabId func payload w :
  let w' := (runInPage tabId func payload w).2 in
  lastTabId w' = lastTabId w /\ active_tab w' = active_tab w
  /\ next_tab_id w' = next_tab_id w
  /\ (forall k, k <> tabId -> tabs w' !! k = tabs w !! k).
Proof.
  unfold runInPage. destruct (tabs w !! tabId) as [t |]; [| simpl; auto].
  destruct (injection_error t); [simpl; auto |].
  destruct (match func payload (page t) with
            | (Unmodelled, _) => coerced w func payload (page t)
            | settled => settled
            end) as [r p']. simpl.
  repeat split. intros k Hk. now rewrite lookup_insert_ne by congruence.
Qed.

Lemma call_page_handler h payload tabId :
  h <> nav_handler ->
  exists func, call (Own h) payload tabId
               = (res ← runInPage tabId func payload; mret (Some res)).
Proof.
  intros Hnav. destruct h; [congruence | ..]; eexists; reflexivity.
Qed.

(** A page command that names its tab ([tabId] an integer) is local to that
    tab: whatever the handler does, the remembered tab, the active tab and
    every other tab are as before. *)
Theorem explicit_tab_command_is_local id cmd payload h t w :
  registered (value_to_string cmd) = Some h ->
  h <> nav_handler ->
  as_integer (get "tabId" payload) = Some t ->
  let w' := (onMessage id cmd payload w).2 in
  lastTabId w' = lastTabId w /\ active_tab w' = active_tab w
  /\ next_tab_id w' = next_tab_id w
  /\ (forall k, k <> t -> tabs w' !! k = tabs w !! k).
Proof.
  intros Hreg Hnav Ht.
  assert (handlers_get cmd = Some (Own h)) as Hget
    by (unfold handlers_get; now rewrite Hreg).
  assert (is_literal cmd "nav" = false) as Hlit.
  { destruct (is_literal cmd "nav") eqn:E; [| reflexivity].
    apply registered_nav in E. congruence. }
  destruct (call_page_handler h payload t Hnav) as (func & Hcall).
  pose proof (runInPage_local t func payload w) as Hlocal.
  unfold onMessage, try_catch. rewrite Hget.
  rewrite (bind_Done _ _ _ _ _ (resolve_preferred _ _ w Ht)), Hlit, Hcall.
  unfold mbind, eff_bind.
  destruct (runInPage t func payload w) as [[res | e |] w1]; exact Hlocal.
Qed.

(** The named tab is not checked beforehand: if it does not exist, the
    injection fails and the reply is an error envelope with the host's
    message, the session being left as it was. *)
Theorem missing_tab_is_reported id cmd payload h t w :
  registered (value_to_string cmd) = Some h ->
  h <> nav_handler ->
  as_integer (get "tabId" payload) = Some t ->
  tabs w !! t = None ->
  onMessage id cmd payload w
  = (Done (obj [("id", id); ("ok", JBool false); ("error", JStr (no_tab t))]%string), w).
Proof.
  intros Hreg Hnav Ht Hnone.
  assert (handlers_get cmd = Some (Own h)) as Hget
    by (unfold handlers_get; now rewrite Hreg).
  assert (is_literal cmd "nav" = false) as Hlit.
  { destruct (is_literal cmd "nav") eqn:E; [| reflexivity].
    apply registered_nav in E. congruence. }
  destruct (call_page_handler h payload t Hnav) as (func & Hcall).
  unfold onMessage, try_catch. rewrite Hget.
  rewrite (bind_Done _ _ _ _ _ (resolve_preferred _ _ w Ht)), Hlit, Hcall.
  unfold mbind, eff_bind, runInPage. rewrite Hnone. reflexivity.
Qed.

Lemma missing_tab_is_reported_witness :
  onMessage (Demo.text "9") (Some (Demo.text "exists"))
    (obj [("selector", Demo.text "div"); ("tabId", JInt 99)]%string) Demo.session
  = (Done (obj [("id", Demo.text "9"); ("ok", JBool false);
                ("error", Demo.text "No tab with id: 99.")]%string), Demo.session).
Proof.
  exact (missing_tab_is_reported (Demo.text "9") (Some (Demo.text "exists"))
           (obj [("selector", Demo.text "div"); ("tabId", JInt 99)]%string)
           exists_handler 99 Demo.session eq_refl ltac:(discriminate) eq_refl eq_refl).
Defined.

Lemma explicit_tab_command_is_local_witness :
  lastTabId (onMessage (Demo.text "9") (Some (Demo.text "click"))
               (obj [("selector", Demo.text "div"); ("tabId", JInt 7)]%string)
               Demo.forgetful_session).2 = None.
Proof.
  destruct (explicit_tab_command_is_local (Demo.text "9") (Some (Demo.text "click"))
              (obj [("selector", Demo.text "div"); ("tabId", JInt 7)]%string)
              click_handler 7 Demo.forgetful_session eq_refl ltac:(discriminate) eq_refl)
    as (Hlast & _).
  exact Hlast.
Defined.

(** [ping] is answered by the endpoint alone: one [pong] frame, under what
    [JSON.stringify] writes for the correlation id (the id itself unless a
    number in it is not finite), also while the relay to the service worker
    is failing, and no tab is resolved, opened or touched. *)
Theorem ping_needs_no_relay msg w :
  is_literal (get "cmd" msg) "ping" = true ->
  outbound (Parsed msg) w
  = [obj [("id", JSON_stringify (correlation_id msg w)); ("ok", JBool true);
          ("result", JStr (str "pong"))]%string]
  /\ (JSON_safe (correlation_id msg w) ->
      outbound (Parsed msg) w
      = [obj [("id", correlation_id msg w); ("ok", JBool true);
              ("result", JStr (str "pong"))]%string])
  /\ (let w' := (ws_onmessage (Parsed msg) w).2 in
      tabs w' = tabs w /\ lastTabId w' = lastTabId w /\ active_tab w' = active_tab w
      /\ next_tab_id w' = next_tab_id w).
Proof.
  intros Hping.
  assert (msg <> JNull) as Hnull by (intros ->; discriminate).
  destruct (ws_onmessage (Parsed msg) w) as [r w'] eqn:Hrun.
  pose proof Hrun as Hbody. rewrite (ws_onmessage_parsed _ Hnull) in Hbody.
  assert (outbound (Parsed msg) w
          = [obj [("id", JSON_stringify (correlation_id msg w)); ("ok", JBool true);
                  ("result", JStr (str "pong"))]%string]
          /\ tabs w' = tabs w /\ lastTabId w' = lastTabId w
          /\ active_tab w' = active_tab w /\ next_tab_id w' = next_tab_id w)
    as (Hout & Hstate).
  { unfold choose_id, correlation_id in *.
    destruct (truthy (get "id" msg)); rewrite Hping in Hbody;
      injection Hbody as _ <-; (split; [| simpl; auto]);
      (eapply outbound_one; [exact Hrun | reflexivity]). }
  split; [exact Hout |]. split; [| exact Hstate].
  intros Hsafe. rewrite Hout, Hsafe. reflexivity.
Qed.

Lemma ping_needs_no_relay_witness :
  outbound (Parsed Demo.ping_with_empty_id) Demo.empty_session
  = [obj [("id", Demo.text "00000000-0000-4000-8000-000000000000"); ("ok", JBool true);
          ("result", Demo.text "pong")]%string].
Proof.
  destruct (ping_needs_no_relay Demo.ping_with_empty_id Demo.empty_session eq_refl)
    as (Hout & _).
  exact Hout.
Defined.

(** When the relay fails ([chrome.runtime.lastError] is set) the endpoint
    answers with that error, under what [JSON.stringify] writes for the
    correlation id, for any command but [ping]. *)
Theorem relay_failure_is_reported msg w message :
  msg <> JNull ->
  is_literal (get "cmd" msg) "ping" = false ->
  lastError w = Some message ->
  outbound (Parsed msg) w
  = [obj [("id", JSON_stringify (correlation_id msg w)); ("ok", JBool false);
          ("error", JStr message)]%string]
  /\ (JSON_safe (correlation_id msg w) ->
      outbound (Parsed msg) w
      = [obj [("id", correlation_id msg w); ("ok", JBool false);
              ("error", JStr message)]%string]).
Proof.
  intros Hnull Hping Hlast.
  destruct (ws_onmessage (Parsed msg) w) as [r w'] eqn:Hrun.
  pose proof Hrun as Hbody. rewrite (ws_onmessage_parsed _ Hnull) in Hbody.
  destruct (choose_id_spec msg w) as (w1 & Hid & Hsent & Herr).
  rewrite (bind_Done _ _ _ _ _ Hid), Hping in Hbody.
  unfold chrome_runtime_sendMessage, read, mbind, eff_bind in Hbody.
  rewrite Herr, Hlast in Hbody. injection Hbody as _ <-.
  assert (outbound (Parsed msg) w
          = [obj [("id", JSON_stringify (correlation_id msg w)); ("ok", JBool false);
                  ("error", JStr message)]%string]) as Hout
    by (eapply outbound_one; [exact Hrun |]; simpl; now rewrite Hsent).
  split; [exact Hout |]. intros Hsafe. rewrite Hout, Hsafe. reflexivity.
Qed.

Lemma relay_failure_is_reported_witness :
  outbound (Parsed Demo.exists_div) relay_down
  = [obj [("id", Demo.text "1"); ("ok", JBool false);
          ("error",
           Demo.text "Could not establish connection. Receiving end does not exist.")]%string].
Proof.
  destruct (relay_failure_is_reported Demo.exists_div relay_down _
              ltac:(discriminate) eq_refl eq_refl) as (Hout & _).
  exact Hout.
Defined.

(** ** The endpoint reconnects: never idle, never twice *)

Lemma connect_alive_or_scheduled constructor_throws ep :
  Offscreen.timeouts ep = [] ->
  (Offscreen.ws ep = None \/ Offscreen.ws ep = Some Offscreen.CLOSED) ->
  Offscreen.alive_or_scheduled (Offscreen.connect constructor_throws ep).
Proof.
  intros Hnone Hws. unfold Offscreen.connect, Offscreen.alive_or_scheduled.
  destruct constructor_throws; simpl.
  - rewrite Hnone. destruct Hws as [-> | ->]; eexists; split; reflexivity.
  - exact Hnone.
Qed.

Lemma step_alive_or_scheduled ep ep' :
  Offscreen.alive_or_scheduled ep -> Offscreen.step ep ep' ->
  Offscreen.alive_or_scheduled ep'.
Proof.
  unfold Offscreen.alive_or_scheduled. intros Hinv Hstep.
  destruct Hstep as [ep Hws | ep s Hws Hs | ep s Hws Hs | ep id delay throws Hin
                    | ep data Hws].
  - rewrite Hws in Hinv. unfold Offscreen.onopen. simpl.
    destruct (Offscreen.reconnectTimer ep); simpl; rewrite Hinv; reflexivity.
  - rewrite Hws in Hinv. unfold Offscreen.onerror. rewrite Hws.
    destruct s; simpl; rewrite ?Hws; first [exact Hinv | congruence].
  - rewrite Hws in Hinv. unfold Offscreen.onclose. simpl.
    destruct s; try congruence; rewrite Hinv; eexists; split; reflexivity.
  - apply connect_alive_or_scheduled.
    + simpl. destruct (Offscreen.ws ep) as [[| | |] |];
        try (rewrite Hinv in Hin; now apply elem_of_nil in Hin);
        destruct Hinv as (id' & Htimeouts & _); rewrite Htimeouts in *;
        apply list_elem_of_singleton in Hin; injection Hin as -> ->;
        cbn [Offscreen.fire Offscreen.timeouts];
        rewrite filter_cons_False by (intros H; now apply H); reflexivity.
    + simpl. destruct (Offscreen.ws ep) as [[| | |] |]; auto;
        rewrite Hinv in Hin; now apply elem_of_nil in Hin.
  - simpl. rewrite Hws in *. exact Hinv.
Qed.

Lemma reachable_alive_or_scheduled w ep :
  Offscreen.reachable w ep -> Offscreen.alive_or_scheduled ep.
Proof.
  induction 1 as [constructor_throws | ep ep' _ IH Hstep].
  - apply connect_alive_or_scheduled; [reflexivity | now left].
  - exact (step_alive_or_scheduled ep ep' IH Hstep).
Qed.

(** However sockets open, fail and close and whenever timeouts fire, the
    endpoint is in one of two situations: its socket is connecting, open or
    closing and no reconnect is pending; or it has no live socket and exactly
    one [connect] is scheduled, with a delay of 2000ms, under the id held in
    [reconnectTimer].  It never stops trying and never schedules two
    reconnects. *)
Theorem endpoint_alive_or_scheduled w ep :
  Offscreen.reachable w ep ->
  match Offscreen.ws ep with
  | Some Offscreen.CONNECTING | Some Offscreen.OPEN | Some Offscreen.CLOSING =>
      Offscreen.timeouts ep = []
  | Some Offscreen.CLOSED | None =>
      exists id, Offscreen.timeouts ep = [(id, 2000)]
                 /\ Offscreen.reconnectTimer ep = Some id
  end.
Proof. apply reachable_alive_or_scheduled. Qed.

(** A socket that opens is greeted once: the endpoint sends [{ id, ok: true,
    hello: 'ws-dom-controller-online' }] under a new UUID, and no reconnect
    is pending or remembered afterwards. *)
Theorem open_socket_is_greeted w ep :
  Offscreen.reachable w ep ->
  Offscreen.ws ep = Some Offscreen.CONNECTING ->
  let ep' := Offscreen.onopen (Offscreen.with_ws Offscreen.OPEN ep) in
  sent (Offscreen.session ep')
  = sent (Offscreen.session ep) ++ [Offscreen.hello (fresh_uuid (Offscreen.session ep))]
  /\ uuids_drawn (Offscreen.session ep') = S (uuids_drawn (Offscreen.session ep))
  /\ Offscreen.timeouts ep' = []
  /\ Offscreen.reconnectTimer ep' = None
  /\ Offscreen.ws ep' = Some Offscreen.OPEN.
Proof.
  intros Hreach Hws. pose proof (reachable_alive_or_scheduled w ep Hreach) as Hinv.
  unfold Offscreen.alive_or_scheduled in Hinv. rewrite Hws in Hinv.
  unfold Offscreen.onopen. simpl.
  destruct (Offscreen.reconnectTimer ep) eqn:Htimer; cbn -[format_uuid];
    rewrite ?Hinv, ?Htimer; repeat split; reflexivity.
Qed.

Lemma endpoint_alive_or_scheduled_witness :
  Offscreen.timeouts
    (Offscreen.onclose
       (Offscreen.with_ws Offscreen.CLOSED
          (Offscreen.connect false (Offscreen.initial Demo.session))))
  = [(1%nat, 2000)].
Proof.
  pose proof (endpoint_alive_or_scheduled Demo.session
                (Offscreen.onclose
                   (Offscreen.with_ws Offscreen.CLOSED
                      (Offscreen.connect false (Offscreen.initial Demo.session))))) as H.
  simpl in H. destruct H as (id & Htimeouts & _).
  - eapply Offscreen.stepped; [apply (Offscreen.started _ false) |].
    apply (Offscreen.socket_closes _ Offscreen.CONNECTING); [reflexivity | discriminate].
  - reflexivity.
Defined.

Lemma open_socket_is_greeted_witness :
  sent (Offscreen.session
          (Offscreen.onopen
             (Offscreen.with_ws Offscreen.OPEN
                (Offscreen.connect false (Offscreen.initial Demo.session)))))
  = [Offscreen.hello (str "00000000-0000-4000-8000-000000000000")].
Proof.
  destruct (open_socket_is_greeted Demo.session
              (Offscreen.connect false (Offscreen.initial Demo.session)))
    as (Hsent & _).
  - apply (Offscreen.started _ false).
  - reflexivity.
  - exact Hsent.
Defined.

(** ** The controller's command line and the extension together *)

Lemma trim_start_blank s : forallb Server.is_white_space s = true -> Server.trim_start s = [].
Proof.
  induction s as [| c s IH]; [reflexivity |]. cbn [forallb Server.trim_start].
  intros H. apply andb_prop in H as [Hc Hs]. rewrite Hc. now apply IH.
Qed.

(** The command line sends nothing for a line of white space only, for a line
    that is not JSON, and for JSON that is [null] or a primitive (where
    setting or reading [id] throws and the handler only logs). *)
Theorem cli_sends_nothing line parsed fresh :
  forallb Server.is_white_space line = true
  \/ parsed = SyntaxError
  \/ (exists v, parsed = Parsed v
                /\ match v with JObj _ | JArr _ => False | _ => True end) ->
  Server.on_line line parsed fresh = None.
Proof.
  unfold Server.on_line. intros [Hblank | [-> | (v & -> & Hv)]].
  - unfold Server.trim. rewrite (trim_start_blank _ Hblank). reflexivity.
  - case_bool_decide; reflexivity.
  - case_bool_decide; [reflexivity |]. destruct v; try reflexivity; contradiction.
Qed.

Lemma cli_sends_nothing_witness :
  Server.on_line (str "   ") (Parsed Demo.exists_div) (str "k3j9x") = None
  /\ Server.on_line (str "42") (Parsed (JInt 42)) (str "k3j9x") = None.
Proof.
  split.
  - apply cli_sends_nothing. left. reflexivity.
  - apply cli_sends_nothing. right. right. eexists. split; [reflexivity | exact I].
Defined.

(** Every valid command the command line sends is answered by one frame.
    The line's own [id] is kept when it is truthy, otherwise the generated
    one is filled in, and the command goes out with what [JSON.stringify]
    writes for it.  Unless the line's [id] is an infinity, the id sent is
    truthy and the reply carries it: the extension does not replace it.  A
    line whose [id] is an infinity (such as [1e999]) goes out with [id:
    null], and its reply carries a UUID the extension generated. *)
Theorem cli_command_is_correlated line parsed fresh m w :
  fresh <> [] ->
  Server.on_line line parsed fresh = Some m ->
  valid_cmd m ->
  exists fs frame,
    parsed = Parsed (JObj fs)
    /\ get "id" m
       = JSON_stringify <$> (if truthy (get "id" (JObj fs)) then get "id" (JObj fs)
                             else Some (JStr fresh))
    /\ outbound (Parsed m) w = [frame]
    /\ ((forall negative, get "id" (JObj fs) <> Some (JNum (Infinity negative))) ->
        truthy (get "id" m) = true /\ get "id" frame = get "id" m)
    /\ (forall negative, get "id" (JObj fs) = Some (JNum (Infinity negative)) ->
        get "id" m = Some JNull /\ get "id" frame = Some (JStr (fresh_uuid w))).
Proof.
  intros Hfresh Hline Hvalid.
  assert (exists fs,
            parsed = Parsed (JObj fs)
            /\ get "id" m
               = JSON_stringify <$> (if truthy (get "id" (JObj fs)) then get "id" (JObj fs)
                                     else Some (JStr fresh))) as (fs & Hparsed & Hid).
  { unfold Server.on_line in Hline. case_bool_decide; [discriminate |].
    destruct parsed as [| obj]; [discriminate |].
    destruct obj as [| | | | items | fs]; try discriminate.
    - injection Hline as <-.
      destruct Hvalid as [Hp | (h & Hr)];
        [discriminate | vm_compute in Hr; discriminate].
    - exists fs. split; [reflexivity |].
      destruct (truthy (get "id" (JObj fs))) eqn:Htruthy; injection Hline as <-.
      + exact (get_stringify "id" (JObj fs)).
      + etrans; [exact (get_stringify "id" (JObj (set_field (str "id") (JStr fresh) fs))) |].
        simpl. now rewrite lookup_set_field_eq. }
  destruct (ws_onmessage_replies m w (valid_cmd_answerable _ Hvalid))
    as (frame & w' & Hrun & Hsent & Hframe & _).
  exists fs, frame. split; [exact Hparsed |]. split; [exact Hid |].
  split; [eapply outbound_one; eassumption |].
  unfold correlation_id in Hframe. split.
  - intros Hfinite.
    assert (truthy (get "id" m) = true) as Htruthy.
    { rewrite Hid. destruct (truthy (get "id" (JObj fs))) eqn:Hline_id.
      - destruct (truthy (JSON_stringify <$> get "id" (JObj fs))) eqn:Hsent_id;
          [reflexivity |].
        apply truthy_stringify in Hsent_id as [Hfalsy | [negative Hinf]];
          [congruence | now apply Hfinite in Hinf].
      - simpl. now rewrite bool_decide_eq_false_2. }
    split; [exact Htruthy |]. rewrite Htruthy in Hframe. rewrite Hframe.
    rewrite Hid in *.
    match goal with
    | |- context [JSON_stringify <$> ?chosen] => destruct chosen as [sent_id |]
    end; [| discriminate].
    simpl. now rewrite JSON_stringify_idempotent.
  - intros negative Hinf. rewrite Hinf in Hid. simpl in Hid.
    split; [exact Hid |]. rewrite Hid in Hframe. exact Hframe.
Qed.

Lemma cli_command_is_correlated_witness :
  exists frame,
    outbound (Parsed (obj [("cmd", Demo.text "exists"); ("selector", Demo.text "h1");
                           ("id", Demo.text "k3j9x")]%string)) Demo.session = [frame]
    /\ get "id" frame = Some (Demo.text "k3j9x").
Proof.
  destruct (cli_command_is_correlated
              (str "{...}")
              (Parsed (obj [("cmd", Demo.text "exists"); ("selector", Demo.text "h1")]%string))
              (str "k3j9x")
              (obj [("cmd", Demo.text "exists"); ("selector", Demo.text "h1");
                    ("id", Demo.text "k3j9x")]%string) Demo.session)
    as (fs & frame & Hparsed & _ & Hout & Hkept & _).
  - discriminate.
  - reflexivity.
  - right. exists exists_handler. reflexivity.
  - exists frame. split; [exact Hout |].
    injection Hparsed as <-.
    destruct Hkept as [_ Hid]; [discriminate | exact Hid].
Defined.

(** The line [{"cmd":"ping","id":1e999}] goes out with [id: null]. *)
Example cli_infinite_id :
  Server.on_line (str "{...}")
    (Parsed (obj [("cmd", Demo.text "ping"); ("id", JNum (Infinity false))]%string))
    (str "k3j9x")
  = Some (obj [("cmd", Demo.text "ping"); ("id", JNull)]%string).
Proof. reflexivity. Qed.

(** ** Failures are terminal and reported as they are *)

(** When a handler throws, the listener answers once with [ok: false] and
    the handler's own message; nothing is retried, and what the command did
    before failing (the tab the resolver remembered, what the page function
    changed) stays done. *)
Theorem handler_failure_is_reported id cmd payload h w tabId w1 e w2 :
  registered (value_to_string cmd) = Some h ->
  h <> nav_handler ->
  resolveTargetTabId (get "tabId" payload) w = (Done tabId, w1) ->
  call (Own h) payload tabId w1 = (Thrown e, w2) ->
  e <> [] ->
  onMessage id cmd payload w
  = (Done (obj [("id", id); ("ok", JBool false); ("error", JStr e)]%string), w2).
Proof.
  intros Hreg Hnav Hres Hcall He.
  assert (handlers_get cmd = Some (Own h)) as Hget
    by (unfold handlers_get; now rewrite Hreg).
  assert (is_literal cmd "nav" = false) as Hlit.
  { destruct (is_literal cmd "nav") eqn:E; [| reflexivity].
    apply registered_nav in E. congruence. }
  unfold onMessage, try_catch. rewrite Hget, (bind_Done _ _ _ _ _ Hres), Hlit.
  rewrite (bind_Thrown _ _ _ _ _ Hcall). unfold error_text.
  now rewrite bool_decide_eq_false_2.
Qed.

Lemma handler_failure_is_reported_witness :
  exists w2,
    onMessage (Demo.text "2") (Some (Demo.text "click"))
      (obj [("selector", Demo.text "#missing"); ("timeout_ms", JInt 100)]%string)
      Demo.forgetful_session
    = (Done (obj [("id", Demo.text "2"); ("ok", JBool false);
                  ("error", Demo.text "Element not found: #missing[0]")]%string), w2)
    /\ lastTabId w2 = Some 7.
Proof.
  eexists. split.
  - apply (handler_failure_is_reported (Demo.text "2") (Some (Demo.text "click"))
             (obj [("selector", Demo.text "#missing"); ("timeout_ms", JInt 100)]%string)
             click_handler Demo.forgetful_session 7
             (resolveTargetTabId None Demo.forgetful_session).2).
    + reflexivity.
    + discriminate.
    + reflexivity.
    + vm_compute. reflexivity.
    + discriminate.
  - reflexivity.
Defined.



